(** * LawVisor risk engine: a shallow embedding of [core/risk_engine.py]

    The module turns extracted clauses and their compliance analyses into
    clause risks, category risks, one overall score and a report.

    Numbers.  The Python code computes on [float].  The engine is written
    down twice.  In the first reading every score, weight and confidence
    is a rational ([Q]) and the operations are exact; it carries the
    properties that do not depend on how a result is rounded.  Module
    [Binary64] repeats the arithmetic with the rounding of IEEE-754
    binary64 after every operation; it carries the properties that
    rounding decides.  NaN and infinities are in neither.

    Left out of the report: [analyzed_at] (the clock) and [summary] (text
    formatting); no property below reads them.  The iteration order of a
    Python [set] of strings is not fixed by the language: it is the
    section variable [list_of_set]. *)

From Stdlib Require Import QArith Qminmax Qround Qabs Qpower Lqa Lia.
From Stdlib Require Floats.
From stdpp Require Import base list strings gmap sorting.

Open Scope Q_scope.

(** ** Python's [str]

    A [str] is a sequence of Unicode code points: [len] counts code points
    and a slice cuts between them.  The texts that the code measures or
    slices ([raw_text], [clause_text], [clause_text_preview]) are lists of
    code points.  Identifiers, titles and the other texts, which the code
    only copies, compares or uses as keys, are [string]s. *)
Definition text := list N.

(** A literal of ASCII characters: one code point each. *)
Definition text_of (s : string) : text :=
  map Ascii.N_of_ascii (String.list_ascii_of_string s).

(** ** Python's numeric builtins on rationals *)

Definition Qltb (x y : Q) : bool := negb (Qle_bool y x).

(** [min(a, b)] returns [a] unless [b < a]; [max(a, b)] returns [a] unless
    [b > a]. *)
Definition py_min (a b : Q) : Q := if Qltb b a then b else a.
Definition py_max (a b : Q) : Q := if Qltb a b then b else a.

(** [sum(xs)]: starts from 0 and adds from the left. *)
Definition py_sum (xs : list Q) : Q := fold_left Qplus xs 0.

(** [max(xs)] on a non-empty sequence [x :: xs]: the first maximal element. *)
Definition py_max_list (x : Q) (xs : list Q) : Q := fold_left py_max xs x.

(** [sum(1 for r in rs if p r)]. *)
Definition count_if {A} (p : A -> bool) (rs : list A) : nat :=
  length (List.filter p rs).

Definition Qnat (n : nat) : Q := inject_Z (Z.of_nat n).

(** [round(x, 2)]: nearest multiple of 1/100, halves to the even one. *)
Definition round2 (x : Q) : Q :=
  let n := (Qnum x * 100)%Z in
  let d := Zpos (Qden x) in
  let q := (n / d)%Z in
  let r := (n mod d)%Z in
  let up := match (2 * r ?= d)%Z with
            | Lt => false
            | Gt => true
            | Eq => Z.odd q
            end in
  inject_Z (if up then q + 1 else q) / 100.

(** ** Enumerations *)

Inductive RiskLevel := CRITICAL | HIGH | MEDIUM | LOW | MINIMAL.

#[global] Instance RiskLevel_eq_dec : EqDecision RiskLevel.
Proof. solve_decision. Defined.

Inductive ClauseType :=
  | DATA_PROTECTION | LIABILITY | TERMINATION | INTELLECTUAL_PROPERTY
  | JURISDICTION | CONFIDENTIALITY | INDEMNIFICATION | FORCE_MAJEURE
  | PAYMENT_TERMS | WARRANTIES | DISPUTE_RESOLUTION | AMENDMENT
  | ASSIGNMENT | GOVERNING_LAW | SEVERABILITY | NOTICES
  | ENTIRE_AGREEMENT | COUNTERPARTS | UNKNOWN.

(** [ClauseType.value] *)
Definition ClauseType_value (t : ClauseType) : string :=
  match t with
  | DATA_PROTECTION => "data_protection"
  | LIABILITY => "liability"
  | TERMINATION => "termination"
  | INTELLECTUAL_PROPERTY => "intellectual_property"
  | JURISDICTION => "jurisdiction"
  | CONFIDENTIALITY => "confidentiality"
  | INDEMNIFICATION => "indemnification"
  | FORCE_MAJEURE => "force_majeure"
  | PAYMENT_TERMS => "payment_terms"
  | WARRANTIES => "warranties"
  | DISPUTE_RESOLUTION => "dispute_resolution"
  | AMENDMENT => "amendment"
  | ASSIGNMENT => "assignment"
  | GOVERNING_LAW => "governing_law"
  | SEVERABILITY => "severability"
  | NOTICES => "notices"
  | ENTIRE_AGREEMENT => "entire_agreement"
  | COUNTERPARTS => "counterparts"
  | UNKNOWN => "unknown"
  end.

(** ** Inputs: the fields of the collaborators' records the engine reads *)

Module RetrievedContext.
Record t := mk {
  regulation_id : string;
  article_number : string;
  title : string;
  text : string;
  relevance_score : Q;
  source_url : string;
  regulation_type : string }.
End RetrievedContext.

Module ComplianceAnalysis.
Record t := mk {
  clause_id : string;
  clause_type : string;
  clause_text : text;
  is_compliant : bool;
  risk_level : string;
  risk_score : Q;
  violated_regulations : list string;
  matched_regulations : list RetrievedContext.t;
  explanation : string;
  reasoning_chain : list string;
  recommendations : list string;
  confidence : Q }.

Definition with_risk_score (a : t) (s : Q) : t :=
  mk (clause_id a) (clause_type a) (clause_text a) (is_compliant a)
     (risk_level a) s (violated_regulations a) (matched_regulations a)
     (explanation a) (reasoning_chain a) (recommendations a) (confidence a).
End ComplianceAnalysis.

Module ExtractedClause.
Record t := mk {
  clause_id : string;
  clause_type : ClauseType;
  title : string;
  raw_text : text }.
End ExtractedClause.

(** ** Outputs *)

(** One entry of [contributing_factors]: the dict with keys "factor",
    "value" and "description". *)
Module Factor.
Record t := mk {
  factor : string;
  value : Q;
  description : string }.
End Factor.

Module ClauseRisk.
Record t := mk {
  clause_id : string;
  clause_type : string;
  clause_title : string;
  clause_text_preview : text;
  risk_score : Q;
  risk_level : RiskLevel;
  contributing_factors : list Factor.t;
  violated_regulations : list string;
  recommendations : list string;
  explanation : string;
  confidence : Q }.
End ClauseRisk.

Module CategoryRisk.
Record t := mk {
  category : string;
  category_display : string;
  risk_score : Q;
  risk_level : RiskLevel;
  clause_count : nat;
  high_risk_clauses : nat;
  top_issues : list string;
  clauses : list ClauseRisk.t }.
End CategoryRisk.

(** One citation dict of the report. *)
Module Citation.
Record t := mk {
  regulation_id : string;
  title : string;
  source_url : string;
  regulation_type : string }.
End Citation.

(** The scoring breakdown: a dict from term name to a dict of numbers, or
    (key "formula") to a text; [[]] is the empty dict. *)
Inductive BreakdownValue :=
  | BNumbers (entries : list (string * Q))
  | BText (s : string).

Module ContractRiskReport.
Record t := mk {
  document_id : string;
  overall_risk_score : Q;
  overall_risk_level : RiskLevel;
  total_clauses_analyzed : nat;
  high_risk_clause_count : nat;
  medium_risk_clause_count : nat;
  low_risk_clause_count : nat;
  category_risks : list CategoryRisk.t;
  top_risks : list ClauseRisk.t;
  all_clause_risks : list ClauseRisk.t;
  citations : list Citation.t;
  confidence : Q;
  scoring_breakdown : list (string * BreakdownValue) }.
End ContractRiskReport.

(** ** The weight table and the display names *)

Definition CLAUSE_TYPE_WEIGHTS_items : list (string * Q) :=
  [ ("data_protection", 15 # 10);
    ("liability", 14 # 10);
    ("indemnification", 14 # 10);
    ("confidentiality", 13 # 10);
    ("intellectual_property", 13 # 10);
    ("jurisdiction", 12 # 10);
    ("termination", 12 # 10);
    ("dispute_resolution", 11 # 10);
    ("warranties", 11 # 10);
    ("payment_terms", 1);
    ("force_majeure", 1);
    ("governing_law", 1);
    ("amendment", 9 # 10);
    ("assignment", 9 # 10);
    ("severability", 8 # 10);
    ("notices", 8 # 10);
    ("entire_agreement", 7 # 10);
    ("counterparts", 5 # 10);
    ("unknown", 1) ].

Definition CLAUSE_TYPE_WEIGHTS : gmap string Q :=
  list_to_map CLAUSE_TYPE_WEIGHTS_items.

Definition CATEGORY_DISPLAY_NAMES : gmap string string :=
  list_to_map
  [ ("data_protection", "Data Protection & Privacy");
    ("liability", "Liability & Risk Allocation");
    ("indemnification", "Indemnification");
    ("confidentiality", "Confidentiality");
    ("intellectual_property", "Intellectual Property");
    ("jurisdiction", "Jurisdiction & Venue");
    ("termination", "Termination Rights");
    ("dispute_resolution", "Dispute Resolution");
    ("warranties", "Warranties & Representations");
    ("payment_terms", "Payment Terms");
    ("force_majeure", "Force Majeure");
    ("governing_law", "Governing Law");
    ("amendment", "Amendment Provisions");
    ("assignment", "Assignment Rights");
    ("severability", "Severability");
    ("notices", "Notices");
    ("entire_agreement", "Entire Agreement");
    ("counterparts", "Counterparts");
    ("unknown", "Other Provisions") ].

(** [self.clause_weights.get(k, 1.0)] *)
Definition clause_weight (k : string) : Q :=
  default 1 (CLAUSE_TYPE_WEIGHTS !! k).

(** [self.category_names.get(k, k)] *)
Definition category_name (k : string) : string :=
  default k (CATEGORY_DISPLAY_NAMES !! k).

(** ** [_score_to_level] *)

Definition _score_to_level (score : Q) : RiskLevel :=
  if Qle_bool 80 score then CRITICAL
  else if Qle_bool 60 score then HIGH
  else if Qle_bool 40 score then MEDIUM
  else if Qle_bool 20 score then LOW
  else MINIMAL.

(** [r.risk_level in [RiskLevel.CRITICAL, RiskLevel.HIGH]] *)
Definition is_high_risk (l : RiskLevel) : bool :=
  match l with CRITICAL | HIGH => true | _ => false end.

Definition is_medium_risk (l : RiskLevel) : bool :=
  match l with MEDIUM => true | _ => false end.

Definition is_low_risk (l : RiskLevel) : bool :=
  match l with LOW | MINIMAL => true | _ => false end.

(** ** [_calculate_clause_risks] *)

(** [{a.clause_id: a for a in analyses}]: a later analysis of the same
    clause replaces an earlier one. *)
Definition analysis_map (analyses : list ComplianceAnalysis.t)
  : gmap string ComplianceAnalysis.t :=
  foldl (fun m a => <[ComplianceAnalysis.clause_id a := a]> m) ∅ analyses.

(** [raw_text[:300] + "..."] *)
Definition text_preview (raw_text : text) : text :=
  take 300 raw_text ++ text_of "...".

(** The branch taken when the clause has an analysis. *)
Definition analysed_clause_risk
    (clause : ExtractedClause.t) (analysis : ComplianceAnalysis.t)
  : ClauseRisk.t :=
  let base_score := ComplianceAnalysis.risk_score analysis in
  let ctype := ClauseType_value (ExtractedClause.clause_type clause) in
  let weight := clause_weight ctype in
  let weighted_score := py_min 100 (base_score * weight) in
  let confidence_factor :=
    (5 # 10) + ComplianceAnalysis.confidence analysis * (5 # 10) in
  let final_score := weighted_score * confidence_factor in
  let contributing_factors :=
    [ Factor.mk "Base Compliance Score" base_score
        "Score from regulatory compliance analysis";
      Factor.mk "Clause Type Weight" weight
        ("Importance weight for " ++ ctype)%string;
      Factor.mk "Confidence Factor" confidence_factor
        "Adjustment based on analysis confidence" ] in
  ClauseRisk.mk
    (ExtractedClause.clause_id clause)
    ctype
    (ExtractedClause.title clause)
    (text_preview (ExtractedClause.raw_text clause))
    final_score
    (_score_to_level final_score)
    contributing_factors
    (ComplianceAnalysis.violated_regulations analysis)
    (ComplianceAnalysis.recommendations analysis)
    (ComplianceAnalysis.explanation analysis)
    (ComplianceAnalysis.confidence analysis).

(** The branch taken when the clause has none. *)
Definition default_clause_risk (clause : ExtractedClause.t) : ClauseRisk.t :=
  ClauseRisk.mk
    (ExtractedClause.clause_id clause)
    (ClauseType_value (ExtractedClause.clause_type clause))
    (ExtractedClause.title clause)
    (text_preview (ExtractedClause.raw_text clause))
    50
    MEDIUM
    [ Factor.mk "Missing Analysis" 50
        "Default score - analysis not available" ]
    []
    [ "Manual review recommended"%string ]
    "Compliance analysis not available for this clause."
    0.

(** The body of the loop: a dataclass instance is always truthy, so
    [if analysis] asks whether the lookup found one. *)
Definition clause_risk_of
    (m : gmap string ComplianceAnalysis.t) (clause : ExtractedClause.t)
  : ClauseRisk.t :=
  match m !! ExtractedClause.clause_id clause with
  | Some analysis => analysed_clause_risk clause analysis
  | None => default_clause_risk clause
  end.

Definition _calculate_clause_risks
    (clauses : list ExtractedClause.t) (analyses : list ComplianceAnalysis.t)
  : list ClauseRisk.t :=
  map (clause_risk_of (analysis_map analyses)) clauses.

(** ** [sorted(xs, key=key, reverse=True)] and [list.sort] with the same
    arguments

    Python's sort is stable, and [reverse=True] keeps elements with equal
    keys in their original order.  The model is an insertion sort: an
    element is put in front of the first element whose key is not larger
    than its own. *)

Fixpoint insert_desc {A} (key : A -> Q) (x : A) (l : list A) : list A :=
  match l with
  | [] => [x]
  | y :: l' =>
      if Qltb (key x) (key y) then y :: insert_desc key x l' else x :: y :: l'
  end.

Definition sorted_desc {A} (key : A -> Q) (l : list A) : list A :=
  foldr (insert_desc key) [] l.

(** ** [_aggregate_by_category] *)

(** [categories] is a dict, iterated in insertion order: an association
    list whose keys are in order of first appearance.  One step of the
    grouping loop: *)
Fixpoint group_append (cat : string) (risk : ClauseRisk.t)
    (categories : list (string * list ClauseRisk.t))
  : list (string * list ClauseRisk.t) :=
  match categories with
  | [] => [(cat, [risk])]
  | (c, rs) :: rest =>
      if decide (c = cat) then (c, rs ++ [risk]) :: rest
      else (c, rs) :: group_append cat risk rest
  end.

Definition group_by_category (clause_risks : list ClauseRisk.t)
  : list (string * list ClauseRisk.t) :=
  foldl (fun cats risk => group_append (ClauseRisk.clause_type risk) risk cats)
        [] clause_risks.

Definition risk_weight (r : ClauseRisk.t) : Q :=
  clause_weight (ClauseRisk.clause_type r).

Definition clause_is_high (r : ClauseRisk.t) : bool :=
  is_high_risk (ClauseRisk.risk_level r).

(** [sum(w(r) for r in risks)] and [sum(r.risk_score * w(r) for r in risks)] *)
Definition total_weight_of (risks : list ClauseRisk.t) : Q :=
  py_sum (map risk_weight risks).

Definition weighted_sum_of (risks : list ClauseRisk.t) : Q :=
  py_sum (map (fun r => ClauseRisk.risk_score r * risk_weight r) risks).

(** [weighted_sum / total_weight if total_weight > 0 else 0] *)
Definition weighted_average_of (risks : list ClauseRisk.t) : Q :=
  let total_weight := total_weight_of risks in
  if Qltb 0 total_weight then weighted_sum_of risks / total_weight else 0.

Section Engine.

(** [list(set(xs))]: the order in which Python iterates over the set
    built from [xs]. *)
Variable list_of_set : list string -> list string.

Definition top_issues_of (risks : list ClauseRisk.t) : list string :=
  let collected :=
    foldl (fun acc r =>
             match ClauseRisk.violated_regulations r with
             | [] => acc
             | regs => acc ++ take 2 regs
             end)
          [] (take 3 (sorted_desc ClauseRisk.risk_score risks)) in
  take 5 (list_of_set collected).

Definition category_risk_of (entry : string * list ClauseRisk.t)
  : CategoryRisk.t :=
  let '(category, risks) := entry in
  let avg_score := weighted_average_of risks in
  CategoryRisk.mk
    category
    (category_name category)
    avg_score
    (_score_to_level avg_score)
    (length risks)
    (count_if clause_is_high risks)
    (top_issues_of risks)
    risks.

Definition _aggregate_by_category (clause_risks : list ClauseRisk.t)
  : list CategoryRisk.t :=
  sorted_desc CategoryRisk.risk_score
    (map category_risk_of (group_by_category clause_risks)).

End Engine.

(** ** [_calculate_overall_score] *)

(** The three terms and their sum, before the clamp.  [max_risk] is the
    maximum over the non-empty list [r0 :: rest]. *)
Definition max_risk_of (r0 : ClauseRisk.t) (rest : list ClauseRisk.t) : Q :=
  py_max_list (ClauseRisk.risk_score r0) (map ClauseRisk.risk_score rest).

Definition max_penalty_of (weighted_avg max_risk : Q) : Q :=
  if Qltb weighted_avg max_risk
  then (max_risk - weighted_avg) * (3 # 10) else 0.

Definition density_of (clause_risks : list ClauseRisk.t) : Q :=
  match clause_risks with
  | [] => 0
  | _ => Qnat (count_if clause_is_high clause_risks)
         / Qnat (length clause_risks)
  end.

Definition raw_overall (r0 : ClauseRisk.t) (rest : list ClauseRisk.t) : Q :=
  let clause_risks := r0 :: rest in
  let weighted_avg := weighted_average_of clause_risks in
  let max_risk := max_risk_of r0 rest in
  let max_penalty := max_penalty_of weighted_avg max_risk in
  let density_penalty := density_of clause_risks * 20 in
  weighted_avg * (6 # 10) + max_penalty + density_penalty.

Definition _calculate_overall_score
    (clause_risks : list ClauseRisk.t) (category_risks : list CategoryRisk.t)
  : Q * list (string * BreakdownValue) :=
  match clause_risks with
  | [] => (0, [])
  | r0 :: rest =>
      let weighted_avg := weighted_average_of clause_risks in
      let max_risk := max_risk_of r0 rest in
      let max_penalty := max_penalty_of weighted_avg max_risk in
      let high_risk_count := count_if clause_is_high clause_risks in
      let density := density_of clause_risks in
      let density_penalty := density * 20 in
      let overall := weighted_avg * (6 # 10) + max_penalty + density_penalty in
      let overall := py_min 100 (py_max 0 overall) in
      let breakdown :=
        [ ("weighted_average"%string,
            BNumbers [ ("value"%string, round2 weighted_avg);
                       ("weight"%string, 6 # 10);
                       ("contribution"%string,
                         round2 (weighted_avg * (6 # 10))) ]);
          ("max_risk_penalty"%string,
            BNumbers [ ("max_clause_score"%string, round2 max_risk);
                       ("penalty"%string, round2 max_penalty) ]);
          ("high_risk_density"%string,
            BNumbers [ ("high_risk_count"%string, Qnat high_risk_count);
                       ("total_clauses"%string, Qnat (length clause_risks));
                       ("density"%string, round2 density);
                       ("penalty"%string, round2 density_penalty) ]);
          ("formula"%string,
            BText "overall = (weighted_avg Ã— 0.6) + max_penalty + density_penalty") ] in
      (overall, breakdown)
  end.

(** ** [_collect_citations] *)

Definition citation_of (reg : RetrievedContext.t) : Citation.t :=
  Citation.mk (RetrievedContext.regulation_id reg)
              (RetrievedContext.title reg)
              (RetrievedContext.source_url reg)
              (RetrievedContext.regulation_type reg).

(** The state of the two nested loops: the citations so far and
    [seen_ids]. *)
Definition citation_step (st : list Citation.t * gset string)
    (reg : RetrievedContext.t) : list Citation.t * gset string :=
  let '(citations, seen_ids) := st in
  if decide (RetrievedContext.regulation_id reg ∈ seen_ids) then st
  else (citations ++ [citation_of reg],
        seen_ids ∪ {[ RetrievedContext.regulation_id reg ]}).

Definition _collect_citations (analyses : list ComplianceAnalysis.t)
  : list Citation.t :=
  fst (foldl (fun st analysis =>
                foldl citation_step st
                      (ComplianceAnalysis.matched_regulations analysis))
             ([], ∅) analyses).

(** ** [calculate_risk_report] *)

Definition calculate_risk_report (list_of_set : list string -> list string)
    (document_id : string)
    (clauses : list ExtractedClause.t) (analyses : list ComplianceAnalysis.t)
  : ContractRiskReport.t :=
  let clause_risks := _calculate_clause_risks clauses analyses in
  let category_risks := _aggregate_by_category list_of_set clause_risks in
  let '(overall_score, scoring_breakdown) :=
    _calculate_overall_score clause_risks category_risks in
  let overall_level := _score_to_level overall_score in
  let top_risks := take 5 (sorted_desc ClauseRisk.risk_score clause_risks) in
  let high_risk_count := count_if clause_is_high clause_risks in
  let medium_risk_count :=
    count_if (fun r => is_medium_risk (ClauseRisk.risk_level r)) clause_risks in
  let low_risk_count :=
    count_if (fun r => is_low_risk (ClauseRisk.risk_level r)) clause_risks in
  let citations := _collect_citations analyses in
  let avg_confidence :=
    match clause_risks with
    | [] => 0
    | _ => py_sum (map ClauseRisk.confidence clause_risks)
           / Qnat (length clause_risks)
    end in
  ContractRiskReport.mk
    document_id
    overall_score
    overall_level
    (length clause_risks)
    high_risk_count
    medium_risk_count
    low_risk_count
    category_risks
    top_risks
    clause_risks
    citations
    avg_confidence
    scoring_breakdown.

(** * The engine in binary64

    A Python [float] is an IEEE-754 binary64 number, and each arithmetic
    operation returns the representable number nearest to the exact
    result, a tie going to the even mantissa.  Here a float is the
    rational it denotes and [round] is that rounding: 53 bits of mantissa,
    exponents down to the subnormal numbers (multiples of 2^-1074).
    Results of magnitude 2^1024 and more, which Python turns into
    infinities, are outside the model; so are NaN and the sign of zero.

    [sum] adds from the left and rounds after every addition, as CPython
    does up to version 3.11 (later versions compensate the rounding errors
    of float addends). *)

Module Binary64.

Definition pow2 (e : Z) : Q := 2 ^ e.

(** The integer [k] with [2^k <= |x| < 2^(k+1)], for [x] other than 0. *)
Definition ilog2 (x : Q) : Z :=
  let k := (Z.log2 (Z.abs (Qnum x)) - Z.log2 (Zpos (Qden x)))%Z in
  if Qle_bool (pow2 k) (Qabs x) then k else (k - 1)%Z.

(** The nearest integer, a tie going to the even one. *)
Definition nearest_even (x : Q) : Z :=
  let q := Qfloor x in
  match Qcompare (x - inject_Z q) (1 # 2) with
  | Lt => q
  | Gt => (q + 1)%Z
  | Eq => if Z.even q then q else (q + 1)%Z
  end.

(** The exponent of the last mantissa bit of the floats around [x]. *)
Definition ulp_exponent (x : Q) : Z := Z.max (ilog2 x - 52) (-1074).

Definition round (x : Q) : Q :=
  if Qeq_bool x 0 then 0
  else let e := ulp_exponent x in
       inject_Z (nearest_even (x / pow2 e)) * pow2 e.

(** The unit roundoff 2^-53, which bounds the relative error of [round] on
    the normal numbers, and the smallest normal number 2^-1022. *)
Definition u : Q := Eval vm_compute in Qred (pow2 (-53)).
Definition eta : Q := Eval vm_compute in Qred (pow2 (-1022)).

(** The rational that a float of Rocq's kernel denotes.  The kernel's
    floats are binary64 numbers with the processor's arithmetic; the
    examples on [round] compare it with them. *)
Definition of_float (f : PrimFloat.float) : option Q :=
  match FloatOps.Prim2SF f with
  | SpecFloat.S754_zero _ => Some 0
  | SpecFloat.S754_finite s m e =>
      Some ((if s then -1 else 1) * inject_Z (Zpos m) * pow2 e)
  | _ => None
  end.

Definition agrees (f : PrimFloat.float) (x : Q) : bool :=
  match of_float f with
  | Some y => Qeq_bool y x
  | None => false
  end.

(** [x + y], [x - y], [x * y] and [x / y] on floats; an [int] operand is
    converted first, exactly for the integers of this program. *)
Definition add (x y : Q) : Q := round (x + y).
Definition sub (x y : Q) : Q := round (x - y).
Definition mul (x y : Q) : Q := round (x * y).
Definition div (x y : Q) : Q := round (x / y).

(** [sum(xs)] *)
Definition sum (xs : list Q) : Q := fold_left add xs 0.

(** [round(x, 2)]: the float nearest to the decimal rounding of [x]. *)
Definition round2 (x : Q) : Q := round (round2 x).

(** [self.clause_weights.get(k, 1.0)]: the entries are the floats that the
    decimal literals of the table denote. *)
Definition clause_weight (k : string) : Q :=
  default 1 (round <$> CLAUSE_TYPE_WEIGHTS !! k).

(** ** [_calculate_clause_risks] *)

Definition analysed_clause_risk
    (clause : ExtractedClause.t) (analysis : ComplianceAnalysis.t)
  : ClauseRisk.t :=
  let base_score := ComplianceAnalysis.risk_score analysis in
  let ctype := ClauseType_value (ExtractedClause.clause_type clause) in
  let weight := clause_weight ctype in
  let weighted_score := py_min 100 (mul base_score weight) in
  let confidence_factor :=
    add (5 # 10) (mul (ComplianceAnalysis.confidence analysis) (5 # 10)) in
  let final_score := mul weighted_score confidence_factor in
  let contributing_factors :=
    [ Factor.mk "Base Compliance Score" base_score
        "Score from regulatory compliance analysis";
      Factor.mk "Clause Type Weight" weight
        ("Importance weight for " ++ ctype)%string;
      Factor.mk "Confidence Factor" confidence_factor
        "Adjustment based on analysis confidence" ] in
  ClauseRisk.mk
    (ExtractedClause.clause_id clause)
    ctype
    (ExtractedClause.title clause)
    (text_preview (ExtractedClause.raw_text clause))
    final_score
    (_score_to_level final_score)
    contributing_factors
    (ComplianceAnalysis.violated_regulations analysis)
    (ComplianceAnalysis.recommendations analysis)
    (ComplianceAnalysis.explanation analysis)
    (ComplianceAnalysis.confidence analysis).

Definition clause_risk_of
    (m : gmap string ComplianceAnalysis.t) (clause : ExtractedClause.t)
  : ClauseRisk.t :=
  match m !! ExtractedClause.clause_id clause with
  | Some analysis => analysed_clause_risk clause analysis
  | None => default_clause_risk clause
  end.

Definition _calculate_clause_risks
    (clauses : list ExtractedClause.t) (analyses : list ComplianceAnalysis.t)
  : list ClauseRisk.t :=
  map (clause_risk_of (analysis_map analyses)) clauses.

(** ** The weighted average of [_aggregate_by_category] and
    [_calculate_overall_score] *)

Definition risk_weight (r : ClauseRisk.t) : Q :=
  clause_weight (ClauseRisk.clause_type r).

Definition total_weight_of (risks : list ClauseRisk.t) : Q :=
  sum (map risk_weight risks).

Definition weighted_sum_of (risks : list ClauseRisk.t) : Q :=
  sum (map (fun r => mul (ClauseRisk.risk_score r) (risk_weight r)) risks).

Definition weighted_average_of (risks : list ClauseRisk.t) : Q :=
  let total_weight := total_weight_of risks in
  if Qltb 0 total_weight then div (weighted_sum_of risks) total_weight else 0.

(** ** [_aggregate_by_category] *)

Definition category_risk_of (list_of_set : list string -> list string)
    (entry : string * list ClauseRisk.t) : CategoryRisk.t :=
  let '(category, risks) := entry in
  let avg_score := weighted_average_of risks in
  CategoryRisk.mk
    category
    (category_name category)
    avg_score
    (_score_to_level avg_score)
    (length risks)
    (count_if clause_is_high risks)
    (top_issues_of list_of_set risks)
    risks.

Definition _aggregate_by_category (list_of_set : list string -> list string)
    (clause_risks : list ClauseRisk.t) : list CategoryRisk.t :=
  sorted_desc CategoryRisk.risk_score
    (map (category_risk_of list_of_set) (group_by_category clause_risks)).

(** ** [_calculate_overall_score] *)

Definition max_penalty_of (weighted_avg max_risk : Q) : Q :=
  if Qltb weighted_avg max_risk
  then mul (sub max_risk weighted_avg) (round (3 # 10)) else 0.

Definition density_of (clause_risks : list ClauseRisk.t) : Q :=
  match clause_risks with
  | [] => 0
  | _ => div (Qnat (count_if clause_is_high clause_risks))
             (Qnat (length clause_risks))
  end.

(** The value before the clamp. *)
Definition raw_overall (r0 : ClauseRisk.t) (rest : list ClauseRisk.t) : Q :=
  let clause_risks := r0 :: rest in
  let weighted_avg := weighted_average_of clause_risks in
  let max_risk := max_risk_of r0 rest in
  let max_penalty := max_penalty_of weighted_avg max_risk in
  let density_penalty := mul (density_of clause_risks) 20 in
  add (add (mul weighted_avg (round (6 # 10))) max_penalty) density_penalty.

Definition _calculate_overall_score
    (clause_risks : list ClauseRisk.t) (category_risks : list CategoryRisk.t)
  : Q * list (string * BreakdownValue) :=
  match clause_risks with
  | [] => (0, [])
  | r0 :: rest =>
      let weighted_avg := weighted_average_of clause_risks in
      let max_risk := max_risk_of r0 rest in
      let max_penalty := max_penalty_of weighted_avg max_risk in
      let high_risk_count := count_if clause_is_high clause_risks in
      let density := density_of clause_risks in
      let density_penalty := mul density 20 in
      let overall :=
        add (add (mul weighted_avg (round (6 # 10))) max_penalty)
            density_penalty in
      let overall := py_min 100 (py_max 0 overall) in
      let breakdown :=
        [ ("weighted_average"%string,
            BNumbers [ ("value"%string, round2 weighted_avg);
                       ("weight"%string, round (6 # 10));
                       ("contribution"%string,
                         round2 (mul weighted_avg (round (6 # 10)))) ]);
          ("max_risk_penalty"%string,
            BNumbers [ ("max_clause_score"%string, round2 max_risk);
                       ("penalty"%string, round2 max_penalty) ]);
          ("high_risk_density"%string,
            BNumbers [ ("high_risk_count"%string, Qnat high_risk_count);
                       ("total_clauses"%string, Qnat (length clause_risks));
                       ("density"%string, round2 density);
                       ("penalty"%string, round2 density_penalty) ]);
          ("formula"%string,
            BText "overall = (weighted_avg Ã— 0.6) + max_penalty + density_penalty") ] in
      (overall, breakdown)
  end.

(** ** [calculate_risk_report] *)

Definition calculate_risk_report (list_of_set : list string -> list string)
    (document_id : string)
    (clauses : list ExtractedClause.t) (analyses : list ComplianceAnalysis.t)
  : ContractRiskReport.t :=
  let clause_risks := _calculate_clause_risks clauses analyses in
  let category_risks := _aggregate_by_category list_of_set clause_risks in
  let '(overall_score, scoring_breakdown) :=
    _calculate_overall_score clause_risks category_risks in
  let overall_level := _score_to_level overall_score in
  let top_risks := take 5 (sorted_desc ClauseRisk.risk_score clause_risks) in
  let high_risk_count := count_if clause_is_high clause_risks in
  let medium_risk_count :=
    count_if (fun r => is_medium_risk (ClauseRisk.risk_level r)) clause_risks in
  let low_risk_count :=
    count_if (fun r => is_low_risk (ClauseRisk.risk_level r)) clause_risks in
  let citations := _collect_citations analyses in
  let avg_confidence :=
    match clause_risks with
    | [] => 0
    | _ => div (sum (map ClauseRisk.confidence clause_risks))
               (Qnat (length clause_risks))
    end in
  ContractRiskReport.mk
    document_id
    overall_score
    overall_level
    (length clause_risks)
    high_risk_count
    medium_risk_count
    low_risk_count
    category_risks
    top_risks
    clause_risks
    citations
    avg_confidence
    scoring_breakdown.

End Binary64.

(** * Around the engine: the producers of its input *)

(** ** [rag_engine.py]: analyses of clauses whose processing failed *)

(** [RAGEngine._create_error_analysis] *)
Definition _create_error_analysis (clause : ExtractedClause.t) (error : string)
  : ComplianceAnalysis.t :=
  ComplianceAnalysis.mk
    (ExtractedClause.clause_id clause)
    (ClauseType_value (ExtractedClause.clause_type clause))
    (take 500 (ExtractedClause.raw_text clause))
    false
    "high"
    75
    []
    []
    ("Analysis error: " ++ error ++ ". Manual review recommended.")%string
    ["Analysis failed due to error"%string]
    ["Manual legal review required"%string]
    0.

(** The analysis that [RAGEngine.analyze_clauses] appends for a clause
    whose [analyze_clause] raised; [error] is [str(analysis)]. *)
Definition analyze_clauses_failure (clause : ExtractedClause.t) (error : string)
  : ComplianceAnalysis.t :=
  ComplianceAnalysis.mk
    (ExtractedClause.clause_id clause)
    (ClauseType_value (ExtractedClause.clause_type clause))
    (take 500 (ExtractedClause.raw_text clause))
    false
    "high"
    75
    []
    []
    ("Analysis failed: " ++ error)%string
    ["Error during analysis"%string]
    ["Manual review required"%string]
    0.

(** ** [regulations.py] and [RAGEngine._prepare_regulatory_context] *)

Inductive RegulationType := GDPR | SEC | CCPA | HIPAA.

Definition RegulationType_value (t : RegulationType) : string :=
  match t with
  | GDPR => "gdpr"
  | SEC => "sec"
  | CCPA => "ccpa"
  | HIPAA => "hipaa"
  end.

(** [last_updated] is a point in time; the model keeps it as a number. *)
Module RegulationArticle.
Record t := mk {
  regulation_id : string;
  regulation_type : RegulationType;
  article_number : string;
  title : string;
  full_text : string;
  summary : string;
  key_requirements : list string;
  penalties : list string;
  last_updated : Z;
  source_url : string;
  related_articles : list string }.
End RegulationArticle.

(** The context built from a regulation found by clause type. *)
Definition direct_context (reg : RegulationArticle.t) : RetrievedContext.t :=
  RetrievedContext.mk
    (RegulationArticle.regulation_id reg)
    (RegulationArticle.article_number reg)
    (RegulationArticle.title reg)
    (RegulationArticle.full_text reg)
    1
    (RegulationArticle.source_url reg)
    (RegulationType_value (RegulationArticle.regulation_type reg)).

Definition _prepare_regulatory_context
    (regulations : list RegulationArticle.t)
    (additional_context : list RetrievedContext.t)
  : list RetrievedContext.t :=
  let contexts :=
    foldl (fun contexts reg => contexts ++ [direct_context reg]) []
          regulations in
  let existing_ids : gset string :=
    list_to_set (map RetrievedContext.regulation_id contexts) in
  foldl (fun contexts ctx =>
           if decide (RetrievedContext.regulation_id ctx ∈ existing_ids)
           then contexts else contexts ++ [ctx])
        contexts additional_context.

(** ** [clause_extractor.py]: the clean-up of the extracted clauses *)

(** [str.strip] removes the white space at both ends of a text; which
    code points count as white space is Python's matter, so the function
    is a parameter.  [len] is the number of code points. *)
Definition _validate_clauses (strip : text -> text)
    (clauses : list ExtractedClause.t) : list ExtractedClause.t :=
  foldl (fun validated clause =>
           if (length (strip (ExtractedClause.raw_text clause)) <? 10)%nat
           then validated
           else if existsb
                     (fun c => bool_decide
                                 (strip (ExtractedClause.raw_text c)
                                  = strip (ExtractedClause.raw_text clause)))
                     validated
                then validated
                else validated ++ [clause])
        [] clauses.

Definition _calculate_type_distribution (clauses : list ExtractedClause.t)
  : gmap string nat :=
  foldl (fun distribution clause =>
           let type_key := ClauseType_value (ExtractedClause.clause_type clause) in
           <[type_key := (default 0 (distribution !! type_key) + 1)%nat]>
             distribution)
        ∅ clauses.

(** * Around the engine: the consumers of its report *)

(** ** [schemas/__init__.py] *)

(** [RiskLevel.value] *)
Definition RiskLevel_value (l : RiskLevel) : string :=
  match l with
  | CRITICAL => "critical"
  | HIGH => "high"
  | MEDIUM => "medium"
  | LOW => "low"
  | MINIMAL => "minimal"
  end.

Module RiskLevelEnum.
Inductive t := CRITICAL | HIGH | MEDIUM | LOW | MINIMAL.

Definition members : list (string * t) :=
  [ ("critical"%string, CRITICAL); ("high"%string, HIGH);
    ("medium"%string, MEDIUM); ("low"%string, LOW);
    ("minimal"%string, MINIMAL) ].

(** [RiskLevelEnum(value)]: [None] stands for the [ValueError]. *)
Definition of_value (value : string) : option t :=
  (list_to_map members : gmap string t) !! value.
End RiskLevelEnum.

Module ClauseTypeEnum.
Inductive t :=
  | DATA_PROTECTION | LIABILITY | TERMINATION | INTELLECTUAL_PROPERTY
  | JURISDICTION | CONFIDENTIALITY | INDEMNIFICATION | FORCE_MAJEURE
  | PAYMENT_TERMS | WARRANTIES | DISPUTE_RESOLUTION | AMENDMENT
  | ASSIGNMENT | GOVERNING_LAW | SEVERABILITY | NOTICES
  | ENTIRE_AGREEMENT | COUNTERPARTS | UNKNOWN.

Definition members : list (string * t) :=
  [ ("data_protection"%string, DATA_PROTECTION);
    ("liability"%string, LIABILITY);
    ("termination"%string, TERMINATION);
    ("intellectual_property"%string, INTELLECTUAL_PROPERTY);
    ("jurisdiction"%string, JURISDICTION);
    ("confidentiality"%string, CONFIDENTIALITY);
    ("indemnification"%string, INDEMNIFICATION);
    ("force_majeure"%string, FORCE_MAJEURE);
    ("payment_terms"%string, PAYMENT_TERMS);
    ("warranties"%string, WARRANTIES);
    ("dispute_resolution"%string, DISPUTE_RESOLUTION);
    ("amendment"%string, AMENDMENT);
    ("assignment"%string, ASSIGNMENT);
    ("governing_law"%string, GOVERNING_LAW);
    ("severability"%string, SEVERABILITY);
    ("notices"%string, NOTICES);
    ("entire_agreement"%string, ENTIRE_AGREEMENT);
    ("counterparts"%string, COUNTERPARTS);
    ("unknown"%string, UNKNOWN) ].

(** The validation of a string against the enumeration. *)
Definition of_value (value : string) : option t :=
  (list_to_map members : gmap string t) !! value.
End ClauseTypeEnum.

(** A pydantic model is built only if every field passes its validation;
    [None] stands for the [ValidationError].  [Field(..., ge=lo, le=hi)]
    and [Field(..., max_length=n)]: *)
Definition field_ge_le (lo hi : Q) (x : Q) : option Q :=
  if Qle_bool lo x && Qle_bool x hi then Some x else None.

Definition field_max_length (n : nat) (s : text) : option text :=
  if (length s <=? n)%nat then Some s else None.

Module ContributingFactorSchema.
Record t := mk {
  factor : string;
  value : Q;
  description : string }.
End ContributingFactorSchema.

Module ClauseRiskSchema.
Record t := mk {
  clause_id : string;
  clause_type : ClauseTypeEnum.t;
  clause_title : string;
  clause_text_preview : text;
  risk_score : Q;
  risk_level : RiskLevelEnum.t;
  contributing_factors : list ContributingFactorSchema.t;
  violated_regulations : list string;
  recommendations : list string;
  explanation : string;
  confidence : Q }.
End ClauseRiskSchema.

Module CategoryRiskSchema.
Record t := mk {
  category : string;
  category_display : string;
  risk_score : Q;
  risk_level : RiskLevelEnum.t;
  clause_count : nat;
  high_risk_clauses : nat;
  top_issues : list string }.
End CategoryRiskSchema.

Module CitationSchema.
Record t := mk {
  regulation_id : string;
  title : string;
  source_url : string;
  regulation_type : string }.
End CitationSchema.

Module ScoringBreakdownSchema.
Record t := mk {
  weighted_average : list (string * Q);
  max_risk_penalty : list (string * Q);
  high_risk_density : list (string * Q);
  formula : string }.
End ScoringBreakdownSchema.

Module RiskReportSchema.
Record t := mk {
  document_id : string;
  analyzed_at : Z;
  overall_risk_score : Q;
  overall_risk_level : RiskLevelEnum.t;
  total_clauses_analyzed : nat;
  high_risk_clause_count : nat;
  medium_risk_clause_count : nat;
  low_risk_clause_count : nat;
  category_risks : list CategoryRiskSchema.t;
  high_risk_clauses : list ClauseRiskSchema.t;
  summary : string;
  citations : list CitationSchema.t;
  confidence : Q;
  scoring_breakdown : ScoringBreakdownSchema.t }.
End RiskReportSchema.

(** ** [api/analyze.py]: [convert_risk_report_to_schema] *)

Definition factor_to_schema (f : Factor.t) : ContributingFactorSchema.t :=
  ContributingFactorSchema.mk
    (Factor.factor f) (Factor.value f) (Factor.description f).

Definition clause_risk_to_schema (r : ClauseRisk.t)
  : option ClauseRiskSchema.t :=
  risk_level ← RiskLevelEnum.of_value (RiskLevel_value (ClauseRisk.risk_level r));
  clause_type ← ClauseTypeEnum.of_value (ClauseRisk.clause_type r);
  clause_text_preview ←
    field_max_length 500 (take 500 (ClauseRisk.clause_text_preview r));
  risk_score ← field_ge_le 0 100 (ClauseRisk.risk_score r);
  confidence ← field_ge_le 0 1 (ClauseRisk.confidence r);
  Some (ClauseRiskSchema.mk
          (ClauseRisk.clause_id r)
          clause_type
          (ClauseRisk.clause_title r)
          clause_text_preview
          risk_score
          risk_level
          (map factor_to_schema (ClauseRisk.contributing_factors r))
          (ClauseRisk.violated_regulations r)
          (ClauseRisk.recommendations r)
          (ClauseRisk.explanation r)
          confidence).

Definition category_risk_to_schema (c : CategoryRisk.t)
  : option CategoryRiskSchema.t :=
  risk_level ← RiskLevelEnum.of_value (RiskLevel_value (CategoryRisk.risk_level c));
  risk_score ← field_ge_le 0 100 (CategoryRisk.risk_score c);
  Some (CategoryRiskSchema.mk
          (CategoryRisk.category c)
          (CategoryRisk.category_display c)
          risk_score
          risk_level
          (CategoryRisk.clause_count c)
          (CategoryRisk.high_risk_clauses c)
          (CategoryRisk.top_issues c)).

Definition citation_to_schema (c : Citation.t) : CitationSchema.t :=
  CitationSchema.mk
    (Citation.regulation_id c) (Citation.title c)
    (Citation.source_url c) (Citation.regulation_type c).

(** [d.get(key)] on the breakdown dict. *)
Fixpoint breakdown_get (key : string) (d : list (string * BreakdownValue))
  : option BreakdownValue :=
  match d with
  | [] => None
  | (k, v) :: d' => if decide (k = key) then Some v else breakdown_get key d'
  end.

(** [scoring_breakdown.get(key, {})] validated as a dict of numbers, and
    [scoring_breakdown.get("formula", "")] validated as a string. *)
Definition breakdown_numbers (key : string) (d : list (string * BreakdownValue))
  : option (list (string * Q)) :=
  match breakdown_get key d with
  | None => Some []
  | Some (BNumbers entries) => Some entries
  | Some (BText _) => None
  end.

Definition breakdown_text (key : string) (d : list (string * BreakdownValue))
  : option string :=
  match breakdown_get key d with
  | None => Some ""%string
  | Some (BText s) => Some s
  | Some (BNumbers _) => None
  end.

(** [report.analyzed_at] and [report.summary], which the model of the
    report leaves out, are passed next to the report. *)
Definition convert_risk_report_to_schema
    (analyzed_at : Z) (summary : string) (report : ContractRiskReport.t)
  : option RiskReportSchema.t :=
  high_risk_clauses ← mapM clause_risk_to_schema
                         (ContractRiskReport.top_risks report);
  category_risks ← mapM category_risk_to_schema
                      (ContractRiskReport.category_risks report);
  let citations := map citation_to_schema (ContractRiskReport.citations report) in
  weighted_average ←
    breakdown_numbers "weighted_average"
                      (ContractRiskReport.scoring_breakdown report);
  max_risk_penalty ←
    breakdown_numbers "max_risk_penalty"
                      (ContractRiskReport.scoring_breakdown report);
  high_risk_density ←
    breakdown_numbers "high_risk_density"
                      (ContractRiskReport.scoring_breakdown report);
  formula ← breakdown_text "formula"
                           (ContractRiskReport.scoring_breakdown report);
  let scoring_breakdown :=
    ScoringBreakdownSchema.mk weighted_average max_risk_penalty
                              high_risk_density formula in
  overall_risk_level ←
    RiskLevelEnum.of_value
      (RiskLevel_value (ContractRiskReport.overall_risk_level report));
  overall_risk ← field_ge_le 0 100 (ContractRiskReport.overall_risk_score report);
  confidence ← field_ge_le 0 1 (ContractRiskReport.confidence report);
  Some (RiskReportSchema.mk
          (ContractRiskReport.document_id report)
          analyzed_at
          overall_risk
          overall_risk_level
          (ContractRiskReport.total_clauses_analyzed report)
          (ContractRiskReport.high_risk_clause_count report)
          (ContractRiskReport.medium_risk_clause_count report)
          (ContractRiskReport.low_risk_clause_count report)
          category_risks
          high_risk_clauses
          summary
          citations
          confidence
          scoring_breakdown).

(** ** Serialisation: the [to_dict] methods of [risk_engine.py] *)

(** The values a [to_dict] result is made of. *)
#[warnings="-register-all"]
Inductive PyVal :=
  | PNone
  | PStr (s : string)
  | PText (s : text)
  | PNum (q : Q)
  | PInt (n : nat)
  | PList (l : list PyVal)
  | PDict (items : list (string * PyVal)).


(** The contributing factors are dicts already; this is their shape. *)
Definition factor_dict (f : Factor.t) : PyVal :=
  PDict [ ("factor"%string, PStr (Factor.factor f));
          ("value"%string, PNum (Factor.value f));
          ("description"%string, PStr (Factor.description f)) ].

(** [ClauseRisk.to_dict] *)
Definition ClauseRisk_to_dict (r : ClauseRisk.t) : PyVal :=
  PDict
    [ ("clause_id"%string, PStr (ClauseRisk.clause_id r));
      ("clause_type"%string, PStr (ClauseRisk.clause_type r));
      ("clause_title"%string, PStr (ClauseRisk.clause_title r));
      ("clause_text_preview"%string, PText (ClauseRisk.clause_text_preview r));
      ("risk_score"%string, PNum (round2 (ClauseRisk.risk_score r)));
      ("risk_level"%string, PStr (RiskLevel_value (ClauseRisk.risk_level r)));
      ("contributing_factors"%string,
        PList (map factor_dict (ClauseRisk.contributing_factors r)));
      ("violated_regulations"%string,
        PList (map PStr (ClauseRisk.violated_regulations r)));
      ("recommendations"%string,
        PList (map PStr (ClauseRisk.recommendations r)));
      ("explanation"%string, PStr (ClauseRisk.explanation r));
      ("confidence"%string, PNum (round2 (ClauseRisk.confidence r))) ].


(** ** [api/upload.py]: the document store, and [api/risk.py] *)

Inductive AnalysisStatusEnum := PENDING | PROCESSING | COMPLETED | FAILED.

(** One entry of [DOCUMENT_STORE]; points in time are numbers. *)
Module Document.
Record t := mk {
  document_id : string;
  filename : string;
  file_path : string;
  file_size_bytes : nat;
  upload_timestamp : Z;
  status : AnalysisStatusEnum;
  analysis_started_at : option Z;
  analysis_completed_at : option Z;
  risk_report : option ContractRiskReport.t;
  error_message : option string }.
End Document.

(** An [HTTPException] whose detail has the keys "error" and "message". *)
Module HTTPException.
Record t := mk {
  status_code : nat;
  error : string;
  message : string }.
End HTTPException.

(** The loop of [get_clause_risk] over [report.all_clause_risks]. *)
Fixpoint find_clause_risk (clause_id : string) (risks : list ClauseRisk.t)
  : option ClauseRisk.t :=
  match risks with
  | [] => None
  | clause_risk :: rest =>
      if decide (ClauseRisk.clause_id clause_risk = clause_id)
      then Some clause_risk
      else find_clause_risk clause_id rest
  end.

(** [get_clause_risk]: the left summand is the exception raised. *)
Definition get_clause_risk (store : gmap string Document.t)
    (document_id clause_id : string) : HTTPException.t + PyVal :=
  match store !! document_id with
  | None =>
      inl (HTTPException.mk 404 "DocumentNotFound"
             ("Document with ID '" ++ document_id ++ "' not found."))
  | Some doc =>
      match Document.risk_report doc with
      | None =>
          inl (HTTPException.mk 400 "AnalysisNotComplete"
                 "Document analysis is not complete.")
      | Some report =>
          match find_clause_risk clause_id
                  (ContractRiskReport.all_clause_risks report) with
          | Some clause_risk => inr (ClauseRisk_to_dict clause_risk)
          | None =>
              inl (HTTPException.mk 404 "ClauseNotFound"
                     ("Clause with ID '" ++ clause_id
                      ++ "' not found in document."))
          end
      end
  end.

(** * Notions used to state the properties *)

(** [clamp x lo hi]: [x] brought into the interval from [lo] to [hi]. *)
Definition clamp (x lo hi : Q) : Q := Qmin hi (Qmax lo x).

(** Sums and maxima as in mathematics, for the statements about the
    formula of the overall score. *)
Definition Qsum (xs : list Q) : Q := foldr Qplus 0 xs.

Definition weighted_average (risks : list ClauseRisk.t) : Q :=
  Qsum (map (fun r => ClauseRisk.risk_score r * risk_weight r) risks)
  / Qsum (map risk_weight risks).

Definition max_score (r0 : ClauseRisk.t) (rest : list ClauseRisk.t) : Q :=
  foldr Qmax (ClauseRisk.risk_score r0) (map ClauseRisk.risk_score rest).

(** Descending order of keys. *)
Definition desc {A} (key : A -> Q) (x y : A) : Prop := key y <= key x.

#[global] Instance Qeq_decision : RelDecision Qeq := Qeq_dec.

(** The elements of [l] whose key is [k], in the order of [l]. *)
Definition with_key {A} (key : A -> Q) (k : Q) (l : list A) : list A :=
  filter (fun x => key x == k) l.

(** Stable deduplication: each element is kept unless an earlier
    element has the same key. *)
Fixpoint first_occurrences {A K} `{EqDecision K} (key : A -> K) (l : list A)
  : list A :=
  match l with
  | [] => []
  | x :: l' => x :: filter (fun y => key y <> key x) (first_occurrences key l')
  end.

(** The stored level of a clause risk is the classifier's answer for its
    stored score. *)
Definition level_matches_score (r : ClauseRisk.t) : Prop :=
  ClauseRisk.risk_level r = _score_to_level (ClauseRisk.risk_score r).

(** The claimed formula of the score of a clause [c] with analysis [a]:
    weighted = min(100, base * weight), confidence factor
    = 0.5 + 0.5 * confidence, final = weighted * confidence factor brought
    into the interval from 0 to 100. *)
Definition clause_score_formula
    (c : ExtractedClause.t) (a : ComplianceAnalysis.t) : Q :=
  let base := ComplianceAnalysis.risk_score a in
  let weight := clause_weight (ClauseType_value (ExtractedClause.clause_type c)) in
  let weighted := Qmin 100 (base * weight) in
  let confidence_factor := (5 # 10) + (5 # 10) * ComplianceAnalysis.confidence a in
  clamp (weighted * confidence_factor) 0 100.

#[global] Instance clamp_proper : Proper (Qeq ==> Qeq ==> Qeq ==> Qeq) clamp.
Proof. intros x x' Hx lo lo' Hlo hi hi' Hhi. unfold clamp. rewrite Hx, Hlo, Hhi. reflexivity. Qed.

(** ** Small inputs for the examples *)

Definition sample_clause (id : string) (t : ClauseType) : ExtractedClause.t :=
  ExtractedClause.mk id t "Clause" (text_of "The text of the clause.").

Definition sample_analysis (id : string) (score confidence : Q)
    (matched : list RetrievedContext.t) : ComplianceAnalysis.t :=
  ComplianceAnalysis.mk id "unknown" (text_of "The text of the clause.") false
    "medium"
    score [] matched "" [] [] confidence.

Definition sample_regulation (id title : string) : RetrievedContext.t :=
  RetrievedContext.mk id "1" title "" 1 "https://example.org" "gdpr".

Definition sample_risk (clause_type : string) (score : Q) (level : RiskLevel)
  : ClauseRisk.t :=
  ClauseRisk.mk "c" clause_type "Clause" (text_of "...") score level [] [] []
    "" 1.

Definition sample_risk_with (clause_type : string) (score : Q)
    (level : RiskLevel) (violated : list string) : ClauseRisk.t :=
  ClauseRisk.mk "c" clause_type "Clause" (text_of "...") score level []
    violated [] "" 1.

(** The risk levels in ascending order of severity. *)
Definition level_rank (l : RiskLevel) : nat :=
  match l with
  | MINIMAL => 0
  | LOW => 1
  | MEDIUM => 2
  | HIGH => 3
  | CRITICAL => 4
  end.

(** * Properties *)

(** ** Comparisons and the numeric builtins *)

Lemma Qltb_true (x y : Q) : Qltb x y = true <-> x < y.
Proof.
  unfold Qltb. rewrite negb_true_iff. split.
  - intros H. apply Qnot_le_lt. intros Hle.
    apply Qle_bool_iff in Hle. congruence.
  - intros H. destruct (Qle_bool y x) eqn:E; [|reflexivity].
    apply Qle_bool_iff in E. lra.
Qed.

Lemma Qltb_false (x y : Q) : Qltb x y = false <-> y <= x.
Proof.
  unfold Qltb. rewrite negb_false_iff. apply Qle_bool_iff.
Qed.

Lemma Qle_bool_false (x y : Q) : Qle_bool x y = false <-> y < x.
Proof.
  rewrite <- Qltb_true. unfold Qltb.
  destruct (Qle_bool x y); simpl; split; congruence.
Qed.

Ltac case_Qltb a b :=
  let E := fresh "E" in
  destruct (Qltb a b) eqn:E;
  [apply Qltb_true in E | apply Qltb_false in E].

Ltac case_Qle a b :=
  let E := fresh "E" in
  destruct (Qle_bool a b) eqn:E;
  [apply Qle_bool_iff in E | apply Qle_bool_false in E].

Lemma py_min_Qmin (a b : Q) : py_min a b == Qmin a b.
Proof.
  unfold py_min. case_Qltb b a.
  - rewrite Q.min_r; lra.
  - rewrite Q.min_l; lra.
Qed.

Lemma py_max_Qmax (a b : Q) : py_max a b == Qmax a b.
Proof.
  unfold py_max. case_Qltb a b.
  - rewrite Q.max_r; lra.
  - rewrite Q.max_l; lra.
Qed.



Lemma fold_left_Qplus_acc (xs : list Q) (a : Q) :
  fold_left Qplus xs a == a + py_sum xs.
Proof.
  unfold py_sum. revert a. induction xs as [|x xs IH]; intros a; simpl.
  - lra.
  - rewrite (IH (a + x)), (IH (0 + x)). lra.
Qed.

Lemma py_sum_cons (x : Q) (xs : list Q) : py_sum (x :: xs) == x + py_sum xs.
Proof.
  unfold py_sum at 1. simpl. rewrite fold_left_Qplus_acc. lra.
Qed.


(** ** The weight table is total and positive *)

Lemma CLAUSE_TYPE_WEIGHTS_items_pos :
  List.Forall (fun kv => 0 < snd kv) CLAUSE_TYPE_WEIGHTS_items.
Proof. repeat constructor. Qed.

Lemma clause_weight_pos (k : string) : 0 < clause_weight k.
Proof.
  unfold clause_weight.
  destruct (CLAUSE_TYPE_WEIGHTS !! k) as [w|] eqn:E; simpl; [|reflexivity].
  apply elem_of_list_to_map_2 in E.
  pose proof CLAUSE_TYPE_WEIGHTS_items_pos as HF.
  rewrite List.Forall_forall in HF.
  apply (HF (k, w)). apply list_elem_of_In. exact E.
Qed.

Example weight_data_protection : clause_weight "data_protection" = 15 # 10.
Proof. vm_compute. reflexivity. Qed.

Example weight_unlisted : clause_weight "general" = 1.
Proof. vm_compute. reflexivity. Qed.

(** ** The classifier *)

Lemma _score_to_level_spec (s : Q) :
  (80 <= s -> _score_to_level s = CRITICAL) /\
  (60 <= s < 80 -> _score_to_level s = HIGH) /\
  (40 <= s < 60 -> _score_to_level s = MEDIUM) /\
  (20 <= s < 40 -> _score_to_level s = LOW) /\
  (s < 20 -> _score_to_level s = MINIMAL).
Proof.
  unfold _score_to_level.
  case_Qle 80 s; [|case_Qle 60 s; [|case_Qle 40 s; [|case_Qle 20 s]]];
    repeat split; intros; try reflexivity; lra.
Qed.

Lemma is_high_iff_score (s : Q) :
  is_high_risk (_score_to_level s) = true <-> 60 <= s.
Proof.
  unfold _score_to_level.
  case_Qle 80 s; [|case_Qle 60 s; [|case_Qle 40 s; [|case_Qle 20 s]]];
    simpl; split; intros; try reflexivity; try discriminate; lra.
Qed.

(** ** The stable descending sort *)

Section Sorting.
Context {A : Type} (key : A -> Q).

Lemma insert_desc_Permutation (x : A) (l : list A) :
  insert_desc key x l ≡ₚ x :: l.
Proof.
  induction l as [|y l IH]; simpl; [reflexivity|].
  destruct (Qltb (key x) (key y)); [|reflexivity].
  rewrite IH. apply Permutation_swap.
Qed.

Lemma sorted_desc_Permutation (l : list A) : sorted_desc key l ≡ₚ l.
Proof.
  induction l as [|x l IH]; simpl; [reflexivity|].
  rewrite insert_desc_Permutation, IH. reflexivity.
Qed.

Lemma insert_desc_sorted (x : A) (l : list A) :
  StronglySorted (desc key) l ->
  StronglySorted (desc key) (insert_desc key x l).
Proof.
  induction 1 as [|y l Hl IH Hy]; simpl.
  - repeat constructor.
  - case_Qltb (key x) (key y).
    + constructor; [exact IH|].
      rewrite insert_desc_Permutation. constructor; [|exact Hy].
      unfold desc. lra.
    + constructor; [constructor; assumption|].
      constructor; [unfold desc; lra|].
      eapply Forall_impl; [exact Hy|].
      unfold desc. intros z Hz. lra.
Qed.

Lemma sorted_desc_sorted (l : list A) :
  StronglySorted (desc key) (sorted_desc key l).
Proof.
  induction l as [|x l IH]; simpl; [constructor|].
  apply insert_desc_sorted, IH.
Qed.

Lemma insert_desc_stable (k : Q) (x : A) (l : list A) :
  with_key key k (insert_desc key x l) = with_key key k (x :: l).
Proof.
  unfold with_key. induction l as [|y l IH]; simpl; [reflexivity|].
  case_Qltb (key x) (key y); [|reflexivity].
  rewrite (filter_cons _ y), IH, !filter_cons.
  destruct (decide (key x == k)) as [Hx|Hx];
    destruct (decide (key y == k)) as [Hy|Hy]; try reflexivity.
  exfalso. rewrite Hx, Hy in E. lra.
Qed.

Lemma sorted_desc_stable (k : Q) (l : list A) :
  with_key key k (sorted_desc key l) = with_key key k l.
Proof.
  induction l as [|x l IH]; simpl; [reflexivity|].
  rewrite insert_desc_stable. unfold with_key in *.
  rewrite !filter_cons, IH. reflexivity.
Qed.

Lemma elem_of_sorted_desc (x : A) (l : list A) :
  x ∈ sorted_desc key l <-> x ∈ l.
Proof. rewrite sorted_desc_Permutation. reflexivity. Qed.

End Sorting.

Example sorted_desc_ties :
  sorted_desc snd [("a", 1); ("b", 3); ("c", 1); ("d", 3); ("e", 2)]
  = [("b", 3); ("d", 3); ("e", 2); ("a", 1); ("c", 1)].
Proof. reflexivity. Qed.

(** ** Stable deduplication *)

Section FirstOccurrences.
Context {A K : Type} `{EqDecision K} (key : A -> K).

Lemma first_occurrences_sublist (l : list A) :
  first_occurrences key l `sublist_of` l.
Proof.
  induction l as [|x l IH]; simpl; [constructor|].
  apply sublist_skip. etrans; [apply sublist_filter|exact IH].
Qed.


Lemma first_occurrences_keys (l : list A) (k : K) :
  k ∈ map key (first_occurrences key l) <-> k ∈ map key l.
Proof.
  induction l as [|x l IH]; simpl; [reflexivity|].
  rewrite !elem_of_cons, <- IH.
  split; intros [H|H]; auto.
  - apply list_elem_of_fmap in H as (y & -> & Hy%list_elem_of_filter).
    right. apply list_elem_of_fmap_2. tauto.
  - destruct (decide (k = key x)) as [->|Hne]; [auto|right].
    apply list_elem_of_fmap in H as (y & -> & Hy).
    apply list_elem_of_fmap_2, list_elem_of_filter. auto.
Qed.

Lemma NoDup_keys_filter (P : A -> Prop) `{!forall x, Decision (P x)}
    (l : list A) :
  NoDup (map key l) -> NoDup (map key (filter P l)).
Proof.
  induction l as [|x l IH]; simpl; [auto|].
  intros [Hx Hl]%NoDup_cons. rewrite filter_cons.
  destruct (decide (P x)); [|auto]. simpl. apply NoDup_cons. split; [|auto].
  intros (y & Hk & Hy%list_elem_of_filter)%list_elem_of_fmap.
  apply Hx. rewrite Hk. apply list_elem_of_fmap_2. tauto.
Qed.

Lemma first_occurrences_NoDup (l : list A) :
  NoDup (map key (first_occurrences key l)).
Proof.
  induction l as [|x l IH]; simpl; [constructor|].
  apply NoDup_cons. split; [|apply NoDup_keys_filter, IH].
  intros (y & Hk & Hy%list_elem_of_filter)%list_elem_of_fmap.
  destruct Hy as [Hne _]. congruence.
Qed.

Lemma first_occurrences_first (x : A) (l : list A) :
  x ∈ first_occurrences key l ->
  exists l1 l2, l = l1 ++ x :: l2 /\ key x ∉ map key l1.
Proof.
  induction l as [|y l IH]; simpl; [intros H; inversion H|].
  intros [->|H]%elem_of_cons.
  - exists [], l. split; [reflexivity|]. simpl. apply not_elem_of_nil.
  - apply list_elem_of_filter in H as [Hne H].
    destruct (IH H) as (l1 & l2 & -> & Hl1).
    exists (y :: l1), l2. split; [reflexivity|].
    simpl. rewrite elem_of_cons. tauto.
Qed.

Lemma first_occurrences_snoc (l : list A) (x : A) :
  first_occurrences key (l ++ [x])
  = first_occurrences key l
    ++ (if decide (key x ∈ map key l) then [] else [x]).
Proof.
  induction l as [|y l IH]; simpl; [reflexivity|].
  rewrite IH, filter_app. f_equal. f_equal.
  destruct (decide (key x ∈ map key l)) as [Hin|Hin].
  - rewrite decide_True by (apply elem_of_cons; auto). reflexivity.
  - rewrite filter_cons, filter_nil.
    destruct (decide (key x <> key y)) as [Hne|He].
    + rewrite decide_False; [reflexivity|].
      rewrite elem_of_cons. tauto.
    + rewrite decide_True; [reflexivity|].
      apply elem_of_cons. left. destruct (decide (key x = key y)); tauto.
Qed.

End FirstOccurrences.

(** ** The analysis lookup *)

Lemma analysis_map_fold_None (analyses : list ComplianceAnalysis.t)
    (m : gmap string ComplianceAnalysis.t) (k : string) :
  m !! k = None ->
  k ∉ map ComplianceAnalysis.clause_id analyses ->
  foldl (fun m a => <[ComplianceAnalysis.clause_id a := a]> m) m analyses !! k
  = None.
Proof.
  revert m. induction analyses as [|a l IH]; intros m Hm Hk; simpl; [exact Hm|].
  simpl in Hk. apply not_elem_of_cons in Hk as [Hne Hk].
  apply IH; [|exact Hk].
  rewrite lookup_insert_ne; [exact Hm|congruence].
Qed.

Lemma analysis_map_lookup_None (analyses : list ComplianceAnalysis.t)
    (k : string) :
  k ∉ map ComplianceAnalysis.clause_id analyses ->
  analysis_map analyses !! k = None.
Proof. apply analysis_map_fold_None, lookup_empty. Qed.


(** ** Levels and scores of clause risks *)

Lemma clause_risk_of_level (m : gmap string ComplianceAnalysis.t)
    (c : ExtractedClause.t) :
  level_matches_score (clause_risk_of m c).
Proof.
  unfold clause_risk_of, level_matches_score.
  destruct (m !! ExtractedClause.clause_id c); reflexivity.
Qed.

Lemma _calculate_clause_risks_levels clauses analyses :
  Forall level_matches_score (_calculate_clause_risks clauses analyses).
Proof.
  unfold _calculate_clause_risks. apply Forall_fmap, Forall_forall.
  intros c _. apply clause_risk_of_level.
Qed.

Lemma count_buckets (rs : list ClauseRisk.t) :
  (count_if clause_is_high rs
   + count_if (fun r => is_medium_risk (ClauseRisk.risk_level r)) rs
   + count_if (fun r => is_low_risk (ClauseRisk.risk_level r)) rs
   = length rs)%nat.
Proof.
  unfold count_if, clause_is_high.
  induction rs as [|r rs IH]; simpl; [reflexivity|].
  destruct (ClauseRisk.risk_level r); simpl; lia.
Qed.

Lemma count_if_le_length {A} (p : A -> bool) (l : list A) :
  (count_if p l <= length l)%nat.
Proof.
  unfold count_if. induction l as [|x l IH]; simpl; [lia|].
  destruct (p x); simpl; lia.
Qed.


(** ** Grouping by category *)

Lemma group_append_keys cat r cats :
  map fst (group_append cat r cats)
  = map fst cats ++ (if decide (cat ∈ map fst cats) then [] else [cat]).
Proof.
  induction cats as [|[c rs] cats IH]; simpl; [reflexivity|].
  destruct (decide (c = cat)) as [->|Hne]; simpl.
  - rewrite decide_True by (apply elem_of_cons; auto).
    rewrite app_nil_r. reflexivity.
  - rewrite IH. f_equal. f_equal.
    destruct (decide (cat ∈ map fst cats)) as [Hin|Hin].
    + rewrite decide_True by (apply elem_of_cons; auto). reflexivity.
    + rewrite decide_False; [reflexivity|].
      rewrite elem_of_cons. intros [->|?]; tauto.
Qed.

Lemma group_by_category_snoc l r :
  group_by_category (l ++ [r])
  = group_append (ClauseRisk.clause_type r) r (group_by_category l).
Proof. unfold group_by_category. rewrite foldl_snoc. reflexivity. Qed.

(** The categories appear in the order in which they are first met. *)
Lemma group_by_category_keys (l : list ClauseRisk.t) :
  map fst (group_by_category l)
  = first_occurrences id (map ClauseRisk.clause_type l).
Proof.
  induction l as [|r l IH] using rev_ind; [reflexivity|].
  rewrite group_by_category_snoc, group_append_keys, IH.
  rewrite map_app. simpl. rewrite first_occurrences_snoc. f_equal.
  assert (Hiff : ClauseRisk.clause_type r
                   ∈ first_occurrences id (map ClauseRisk.clause_type l)
                 <-> id (ClauseRisk.clause_type r)
                   ∈ map id (map ClauseRisk.clause_type l)).
  { rewrite <- (first_occurrences_keys id). rewrite !map_id. reflexivity. }
  destruct (decide (ClauseRisk.clause_type r
                      ∈ first_occurrences id (map ClauseRisk.clause_type l)));
    destruct (decide (id (ClauseRisk.clause_type r)
                      ∈ map id (map ClauseRisk.clause_type l)));
    tauto || reflexivity.
Qed.

Lemma group_append_Forall (P : ClauseRisk.t -> Prop) cat r cats :
  P r -> Forall (fun e => Forall P (snd e)) cats ->
  Forall (fun e => Forall P (snd e)) (group_append cat r cats).
Proof.
  intros Hr. induction 1 as [|[c rs] cats Hrs Hcats IH]; simpl.
  - repeat constructor. exact Hr.
  - destruct (decide (c = cat)); constructor; simpl in *; auto.
    apply Forall_app. split; [exact Hrs|]. repeat constructor. exact Hr.
Qed.

Lemma group_by_category_Forall (P : ClauseRisk.t -> Prop) l :
  Forall P l -> Forall (fun e => Forall P (snd e)) (group_by_category l).
Proof.
  induction l as [|r l IH] using rev_ind; intros H; [constructor|].
  apply Forall_app in H as [Hl Hr]. inversion Hr; subst.
  rewrite group_by_category_snoc. apply group_append_Forall; auto.
Qed.

(** ** The citation loop *)

Lemma citation_loops_flatten (analyses : list ComplianceAnalysis.t)
    (st : list Citation.t * gset string) :
  foldl (fun st analysis =>
           foldl citation_step st
                 (ComplianceAnalysis.matched_regulations analysis))
        st analyses
  = foldl citation_step st
      (concat (map ComplianceAnalysis.matched_regulations analyses)).
Proof.
  revert st. induction analyses as [|a l IH]; intros st; simpl; [reflexivity|].
  rewrite foldl_app. apply IH.
Qed.

Lemma citation_loop (regs : list RetrievedContext.t)
    (citations : list Citation.t) (seen_ids : gset string) :
  fst (foldl citation_step (citations, seen_ids) regs)
  = citations
    ++ map citation_of
         (filter (fun r => RetrievedContext.regulation_id r ∉ seen_ids)
                 (first_occurrences RetrievedContext.regulation_id regs)).
Proof.
  revert citations seen_ids.
  induction regs as [|r regs IH]; intros citations seen_ids; simpl.
  - rewrite app_nil_r. reflexivity.
  - rewrite filter_cons.
    destruct (decide (RetrievedContext.regulation_id r ∈ seen_ids)) as [Hin|Hin].
    + rewrite decide_False by tauto.
      rewrite IH, list_filter_filter. do 2 f_equal.
      apply list_filter_iff. intros x. split; [|tauto].
      intros Hx. split; [exact Hx|]. congruence.
    + rewrite decide_True by exact Hin.
      rewrite IH, <- app_assoc. simpl. do 3 f_equal.
      rewrite list_filter_filter. apply list_filter_iff. intros x.
      rewrite not_elem_of_union, not_elem_of_singleton. tauto.
Qed.

(** * The report *)

Section Report.
Variable list_of_set : list string -> list string.
Variable document_id : string.
Variables (clauses : list ExtractedClause.t)
          (analyses : list ComplianceAnalysis.t).

Let report := calculate_risk_report list_of_set document_id clauses analyses.

Lemma report_all_clause_risks :
  ContractRiskReport.all_clause_risks report
  = _calculate_clause_risks clauses analyses.
Proof.
  unfold report, calculate_risk_report.
  destruct (_calculate_overall_score _ _). reflexivity.
Qed.

Lemma report_top_risks :
  ContractRiskReport.top_risks report
  = take 5 (sorted_desc ClauseRisk.risk_score
              (_calculate_clause_risks clauses analyses)).
Proof.
  unfold report, calculate_risk_report.
  destruct (_calculate_overall_score _ _). reflexivity.
Qed.

Lemma report_category_risks :
  ContractRiskReport.category_risks report
  = _aggregate_by_category list_of_set
      (_calculate_clause_risks clauses analyses).
Proof.
  unfold report, calculate_risk_report.
  destruct (_calculate_overall_score _ _). reflexivity.
Qed.

Lemma report_overall :
  ContractRiskReport.overall_risk_score report
  = fst (_calculate_overall_score
           (_calculate_clause_risks clauses analyses)
           (_aggregate_by_category list_of_set
              (_calculate_clause_risks clauses analyses)))
  /\ ContractRiskReport.overall_risk_level report
     = _score_to_level (ContractRiskReport.overall_risk_score report).
Proof.
  unfold report, calculate_risk_report.
  destruct (_calculate_overall_score _ _). split; reflexivity.
Qed.

Lemma report_counts :
  ContractRiskReport.total_clauses_analyzed report
  = length (_calculate_clause_risks clauses analyses)
  /\ ContractRiskReport.high_risk_clause_count report
     = count_if clause_is_high (_calculate_clause_risks clauses analyses)
  /\ ContractRiskReport.medium_risk_clause_count report
     = count_if (fun r => is_medium_risk (ClauseRisk.risk_level r))
         (_calculate_clause_risks clauses analyses)
  /\ ContractRiskReport.low_risk_clause_count report
     = count_if (fun r => is_low_risk (ClauseRisk.risk_level r))
         (_calculate_clause_risks clauses analyses).
Proof.
  unfold report, calculate_risk_report.
  destruct (_calculate_overall_score _ _). repeat split; reflexivity.
Qed.

Lemma report_citations :
  ContractRiskReport.citations report = _collect_citations analyses.
Proof.
  unfold report, calculate_risk_report.
  destruct (_calculate_overall_score _ _). reflexivity.
Qed.

End Report.

(** C4.  A clause without a compliance analysis gets, without any failure,
    a clause risk with score 50, level medium, confidence 0, the single
    contributing factor "Missing Analysis", the explanation that the
    analysis is not available and the recommendation of a manual review. *)
Theorem C4_missing_analysis_default
    (clauses : list ExtractedClause.t) (analyses : list ComplianceAnalysis.t)
    (i : nat) (c : ExtractedClause.t) :
  clauses !! i = Some c ->
  ExtractedClause.clause_id c ∉ map ComplianceAnalysis.clause_id analyses ->
  exists r,
    _calculate_clause_risks clauses analyses !! i = Some r /\
    ClauseRisk.clause_id r = ExtractedClause.clause_id c /\
    ClauseRisk.risk_score r = 50 /\
    ClauseRisk.risk_level r = MEDIUM /\
    ClauseRisk.confidence r = 0 /\
    (exists f, ClauseRisk.contributing_factors r = [f]
               /\ Factor.factor f = "Missing Analysis"%string) /\
    ClauseRisk.explanation r
      = "Compliance analysis not available for this clause."%string /\
    ClauseRisk.recommendations r = ["Manual review recommended"%string].
Proof.
  intros Hi Hid. exists (default_clause_risk c).
  split.
  - unfold _calculate_clause_risks.
    change (map ?f ?l) with (f <$> l).
    rewrite list_lookup_fmap, Hi. simpl. f_equal.
    unfold clause_risk_of.
    rewrite (analysis_map_lookup_None _ _ Hid). reflexivity.
  - repeat split; try reflexivity.
    eexists. split; reflexivity.
Qed.

(** C5.  The classifier answers critical from 80, high from 60, medium
    from 40, low from 20 and minimal below; and in every report the level
    of each clause risk (also on the default path, which stores medium
    with 50), of each category risk and of the whole contract is the
    classifier's answer for the score stored next to it. *)
Theorem C5_level_is_classifier_of_score
    (list_of_set : list string -> list string) (document_id : string)
    (clauses : list ExtractedClause.t) (analyses : list ComplianceAnalysis.t)
    (s : Q) :
  let report := calculate_risk_report list_of_set document_id clauses analyses in
  ((80 <= s -> _score_to_level s = CRITICAL) /\
   (60 <= s < 80 -> _score_to_level s = HIGH) /\
   (40 <= s < 60 -> _score_to_level s = MEDIUM) /\
   (20 <= s < 40 -> _score_to_level s = LOW) /\
   (s < 20 -> _score_to_level s = MINIMAL)) /\
  Forall level_matches_score (ContractRiskReport.all_clause_risks report) /\
  Forall level_matches_score (ContractRiskReport.top_risks report) /\
  Forall (fun c => CategoryRisk.risk_level c
                   = _score_to_level (CategoryRisk.risk_score c)
                   /\ Forall level_matches_score (CategoryRisk.clauses c))
         (ContractRiskReport.category_risks report) /\
  ContractRiskReport.overall_risk_level report
  = _score_to_level (ContractRiskReport.overall_risk_score report) /\
  (forall c, ClauseRisk.risk_score (default_clause_risk c) = 50
             /\ ClauseRisk.risk_level (default_clause_risk c) = MEDIUM
             /\ level_matches_score (default_clause_risk c)).
Proof.
  intros report. subst report.
  pose proof (_calculate_clause_risks_levels clauses analyses) as Hall.
  split; [apply _score_to_level_spec|].
  rewrite report_all_clause_risks, report_top_risks, report_category_risks.
  split; [exact Hall|]. split; [|split; [|split]].
  - rewrite Forall_forall. intros r Hr.
    apply elem_of_sublist with (l2 := sorted_desc ClauseRisk.risk_score
            (_calculate_clause_risks clauses analyses)) in Hr;
      [|apply sublist_take].
    apply elem_of_sorted_desc in Hr.
    rewrite Forall_forall in Hall. auto.
  - unfold _aggregate_by_category. rewrite Forall_forall. intros c Hc.
    apply elem_of_sorted_desc in Hc.
    apply list_elem_of_fmap in Hc as ([cat rs] & -> & He).
    simpl. split; [reflexivity|].
    pose proof (group_by_category_Forall _ _ Hall) as HF.
    rewrite Forall_forall in HF. apply (HF _ He).
  - apply report_overall.
  - intros c. repeat split.
Qed.

(** C6.  In every report the count of high or critical clauses, the count
    of medium clauses and the count of low or minimal clauses add up to
    the number of clauses analysed. *)
Theorem C6_level_counts_sum_to_total
    (list_of_set : list string -> list string) (document_id : string)
    (clauses : list ExtractedClause.t) (analyses : list ComplianceAnalysis.t) :
  let report := calculate_risk_report list_of_set document_id clauses analyses in
  (ContractRiskReport.high_risk_clause_count report
   + ContractRiskReport.medium_risk_clause_count report
   + ContractRiskReport.low_risk_clause_count report
   = ContractRiskReport.total_clauses_analyzed report)%nat
  /\ ContractRiskReport.total_clauses_analyzed report = length clauses.
Proof.
  intros report. subst report.
  destruct (report_counts list_of_set document_id clauses analyses)
    as (-> & -> & -> & ->).
  split; [apply count_buckets|].
  unfold _calculate_clause_risks. apply length_map.
Qed.

(** C8.  In every report the top risks are the first five clause risks of
    the full list sorted by descending score, and the category risks are
    the categories, taken in the order in which they are first met, sorted
    by descending score; both sorts are stable: the result is a
    rearrangement in descending order in which the elements of equal score
    keep their original order. *)
Theorem C8_top_risks_and_categories_stably_sorted
    (list_of_set : list string -> list string) (document_id : string)
    (clauses : list ExtractedClause.t) (analyses : list ComplianceAnalysis.t) :
  let report := calculate_risk_report list_of_set document_id clauses analyses in
  let all := ContractRiskReport.all_clause_risks report in
  let ranked := sorted_desc ClauseRisk.risk_score all in
  let met := map (category_risk_of list_of_set) (group_by_category all) in
  let cats := ContractRiskReport.category_risks report in
  (ContractRiskReport.top_risks report = take 5 ranked
   /\ ranked ≡ₚ all
   /\ StronglySorted (desc ClauseRisk.risk_score) ranked
   /\ (forall k, with_key ClauseRisk.risk_score k ranked
                 = with_key ClauseRisk.risk_score k all))
  /\
  (map CategoryRisk.category met
   = first_occurrences id (map ClauseRisk.clause_type all)
   /\ cats ≡ₚ met
   /\ StronglySorted (desc CategoryRisk.risk_score) cats
   /\ (forall k, with_key CategoryRisk.risk_score k cats
                 = with_key CategoryRisk.risk_score k met)).
Proof.
  intros report all ranked met cats.
  subst cats met ranked all report.
  rewrite report_all_clause_risks, report_top_risks, report_category_risks.
  split; [split; [reflexivity|split; [|split]]|split; [|split; [|split]]].
  - apply sorted_desc_Permutation.
  - apply sorted_desc_sorted.
  - intros k. apply sorted_desc_stable.
  - rewrite <- group_by_category_keys, map_map. apply map_ext.
    intros [cat rs]. reflexivity.
  - apply sorted_desc_Permutation.
  - apply sorted_desc_sorted.
  - intros k. apply sorted_desc_stable.
Qed.

(** C9.  The citations of the report are the matched regulations of all
    analyses, walked in input order, of which only the first with each
    regulation identifier is kept; each kept citation carries that
    regulation's identifier, title, source locator and regulation type. *)
Theorem C9_citations_first_occurrence_per_id
    (list_of_set : list string -> list string) (document_id : string)
    (clauses : list ExtractedClause.t) (analyses : list ComplianceAnalysis.t) :
  let report := calculate_risk_report list_of_set document_id clauses analyses in
  let regs := concat (map ComplianceAnalysis.matched_regulations analyses) in
  let kept := first_occurrences RetrievedContext.regulation_id regs in
  ContractRiskReport.citations report = _collect_citations analyses
  /\ _collect_citations analyses = map citation_of kept
  /\ kept `sublist_of` regs
  /\ NoDup (map RetrievedContext.regulation_id kept)
  /\ (forall r, r ∈ regs ->
        RetrievedContext.regulation_id r
          ∈ map RetrievedContext.regulation_id kept)
  /\ (forall r, r ∈ kept ->
        exists before after,
          regs = before ++ r :: after
          /\ RetrievedContext.regulation_id r
               ∉ map RetrievedContext.regulation_id before)
  /\ (forall r,
        Citation.regulation_id (citation_of r) = RetrievedContext.regulation_id r
        /\ Citation.title (citation_of r) = RetrievedContext.title r
        /\ Citation.source_url (citation_of r) = RetrievedContext.source_url r
        /\ Citation.regulation_type (citation_of r)
           = RetrievedContext.regulation_type r).
Proof.
  intros report regs kept. subst report kept regs.
  split; [apply report_citations|].
  split; [|split; [|split; [|split; [|split]]]].
  - unfold _collect_citations.
    rewrite citation_loops_flatten, citation_loop. simpl. f_equal.
    induction (first_occurrences _ _) as [|x l IH]; [reflexivity|].
    rewrite filter_cons_True by apply not_elem_of_empty. f_equal. exact IH.
  - apply first_occurrences_sublist.
  - apply first_occurrences_NoDup.
  - intros r Hr. apply first_occurrences_keys, list_elem_of_fmap_2, Hr.
  - intros r Hr. apply first_occurrences_first, Hr.
  - intros r. repeat split.
Qed.

(** * The overall score *)

Lemma py_sum_Qsum (xs : list Q) : py_sum xs == Qsum xs.
Proof.
  induction xs as [|x xs IH]; [reflexivity|].
  rewrite py_sum_cons, IH. reflexivity.
Qed.

Lemma total_weight_of_cons r l :
  total_weight_of (r :: l) == risk_weight r + total_weight_of l.
Proof. apply py_sum_cons. Qed.

Lemma risk_weight_pos r : 0 < risk_weight r.
Proof. apply clause_weight_pos. Qed.

Lemma total_weight_of_nonneg l : 0 <= total_weight_of l.
Proof.
  induction l as [|r l IH]; [unfold total_weight_of, py_sum; simpl; lra|].
  rewrite total_weight_of_cons. pose proof (risk_weight_pos r). lra.
Qed.

(** The guard [total_weight > 0] holds for every non-empty list. *)
Lemma total_weight_of_pos r l : 0 < total_weight_of (r :: l).
Proof.
  rewrite total_weight_of_cons.
  pose proof (risk_weight_pos r). pose proof (total_weight_of_nonneg l). lra.
Qed.

Lemma weighted_average_of_div r l :
  weighted_average_of (r :: l)
  == weighted_sum_of (r :: l) / total_weight_of (r :: l).
Proof.
  unfold weighted_average_of.
  pose proof (total_weight_of_pos r l) as Hpos.
  apply Qltb_true in Hpos. rewrite Hpos. reflexivity.
Qed.

Lemma weighted_average_of_spec r l :
  weighted_average_of (r :: l) == weighted_average (r :: l).
Proof.
  rewrite weighted_average_of_div.
  unfold weighted_sum_of, total_weight_of, weighted_average.
  rewrite !py_sum_Qsum. reflexivity.
Qed.

(** The maximum, through its least-upper-bound property. *)
Lemma py_max_list_lub (xs : list Q) (a M : Q) :
  py_max_list a xs <= M <-> a <= M /\ Forall (fun x => x <= M) xs.
Proof.
  unfold py_max_list. revert a.
  induction xs as [|x xs IH]; intros a; simpl.
  - split; [intros H; split; [exact H|constructor]|tauto].
  - rewrite IH, Forall_cons. unfold py_max.
    case_Qltb a x; split; intros H; repeat split; try tauto; lra.
Qed.

Lemma foldr_Qmax_lub (xs : list Q) (a M : Q) :
  foldr Qmax a xs <= M <-> a <= M /\ Forall (fun x => x <= M) xs.
Proof.
  induction xs as [|x xs IH]; simpl.
  - split; [intros H; split; [exact H|constructor]|tauto].
  - rewrite Q.max_lub_iff, IH, Forall_cons. tauto.
Qed.

Lemma max_risk_of_spec r0 rest : max_risk_of r0 rest == max_score r0 rest.
Proof.
  unfold max_risk_of, max_score. apply Qle_antisym.
  - apply py_max_list_lub, foldr_Qmax_lub, Qle_refl.
  - apply foldr_Qmax_lub, py_max_list_lub, Qle_refl.
Qed.

Lemma max_risk_of_upper r0 rest :
  Forall (fun r => ClauseRisk.risk_score r <= max_risk_of r0 rest) (r0 :: rest).
Proof.
  pose proof (proj1 (py_max_list_lub (map ClauseRisk.risk_score rest)
                       (ClauseRisk.risk_score r0) (max_risk_of r0 rest))
                    (Qle_refl _)) as [H0 Hrest].
  constructor; [exact H0|].
  rewrite Forall_forall in Hrest. apply Forall_forall. intros r Hr.
  apply Hrest. apply list_elem_of_fmap_2. exact Hr.
Qed.

Lemma max_score_attained r0 rest :
  exists r, r ∈ r0 :: rest /\ max_score r0 rest == ClauseRisk.risk_score r.
Proof.
  unfold max_score. induction rest as [|r rest IH]; simpl.
  - exists r0. split; [apply list_elem_of_here|reflexivity].
  - destruct IH as (m & Hm & He).
    destruct (Q.max_dec (ClauseRisk.risk_score r)
                (foldr Qmax (ClauseRisk.risk_score r0)
                       (map ClauseRisk.risk_score rest))) as [H|H].
    + exists r. split; [|exact H].
      apply list_elem_of_further, list_elem_of_here.
    + exists m. split; [|rewrite H; exact He].
      apply elem_of_cons in Hm as [->|Hm];
        [apply list_elem_of_here|do 2 apply list_elem_of_further; exact Hm].
Qed.

Lemma max_penalty_of_spec (A M : Q) :
  max_penalty_of A M == Qmax 0 (M - A) * (3 # 10).
Proof.
  unfold max_penalty_of. case_Qltb A M.
  - rewrite Q.max_r by lra. reflexivity.
  - rewrite Q.max_l by lra. lra.
Qed.

Lemma _calculate_overall_score_raw r0 rest cats :
  fst (_calculate_overall_score (r0 :: rest) cats)
  == clamp (raw_overall r0 rest) 0 100.
Proof.
  unfold _calculate_overall_score, raw_overall, clamp. simpl fst.
  rewrite py_min_Qmin, py_max_Qmax. reflexivity.
Qed.

(** C1.  For a non-empty list of clause risks the overall score is
    clamp(A*0.6 + B + C, 0, 100), with A the weighted average of the
    scores, B = max(0, max score - A) * 0.3 and C = (number of high or
    critical clauses / number of clauses) * 20; for the empty list the
    score is 0 and the breakdown is empty. *)
Theorem C1_overall_score_formula
    (r0 : ClauseRisk.t) (rest : list ClauseRisk.t)
    (category_risks : list CategoryRisk.t) :
  let clause_risks := r0 :: rest in
  let A := weighted_average clause_risks in
  let B := Qmax 0 (max_score r0 rest - A) * (3 # 10) in
  let C := Qnat (count_if clause_is_high clause_risks)
           / Qnat (length clause_risks) * 20 in
  fst (_calculate_overall_score clause_risks category_risks)
  == clamp (A * (6 # 10) + B + C) 0 100
  /\ _calculate_overall_score [] category_risks = (0, [])
  /\ Forall (fun r => ClauseRisk.risk_score r <= max_score r0 rest) clause_risks
  /\ (exists r, r ∈ clause_risks
                /\ max_score r0 rest == ClauseRisk.risk_score r).
Proof.
  intros clause_risks A B C.
  split; [|split; [reflexivity|split; [|apply max_score_attained]]]; cycle 1.
  { pose proof (max_risk_of_upper r0 rest) as Hup.
    eapply Forall_impl; [exact Hup|]. intros r Hr. simpl in Hr.
    rewrite <- max_risk_of_spec. exact Hr. }
  subst clause_risks A B C.
  rewrite _calculate_overall_score_raw.
  unfold clamp, raw_overall, density_of. cbv beta iota zeta.
  rewrite max_penalty_of_spec, max_risk_of_spec, weighted_average_of_spec.
  reflexivity.
Qed.

(** * The score of one clause *)

Lemma analysed_score_in_range (c : ExtractedClause.t) (a : ComplianceAnalysis.t) :
  0 <= ComplianceAnalysis.risk_score a <= 100 ->
  0 <= ComplianceAnalysis.confidence a <= 1 ->
  0 <= ClauseRisk.risk_score (analysed_clause_risk c a) <= 100.
Proof.
  intros Hs Hc. simpl.
  set (w := clause_weight _). pose proof (clause_weight_pos
    (ClauseType_value (ExtractedClause.clause_type c))) as Hw. fold w in Hw.
  assert (Hm : 0 <= py_min 100 (ComplianceAnalysis.risk_score a * w) <= 100).
  { unfold py_min. case_Qltb (ComplianceAnalysis.risk_score a * w) 100; nra. }
  nra.
Qed.

Lemma analysed_score_formula (c : ExtractedClause.t) (a : ComplianceAnalysis.t) :
  0 <= ComplianceAnalysis.risk_score a ->
  -1 <= ComplianceAnalysis.confidence a <= 1 ->
  ClauseRisk.risk_score (analysed_clause_risk c a) == clause_score_formula c a.
Proof.
  intros Hs Hc.
  assert (Hr : 0 <= ClauseRisk.risk_score (analysed_clause_risk c a) <= 100).
  { simpl. set (w := clause_weight _).
    pose proof (clause_weight_pos
                  (ClauseType_value (ExtractedClause.clause_type c))) as Hw.
    fold w in Hw.
    assert (Hm : 0 <= py_min 100 (ComplianceAnalysis.risk_score a * w) <= 100).
    { unfold py_min. case_Qltb (ComplianceAnalysis.risk_score a * w) 100; nra. }
    nra. }
  unfold clause_score_formula, clamp. cbv zeta.
  rewrite <- (py_min_Qmin 100 (ComplianceAnalysis.risk_score a * _)).
  assert (He : py_min 100 (ComplianceAnalysis.risk_score a
                 * clause_weight (ClauseType_value (ExtractedClause.clause_type c)))
               * ((5 # 10) + (5 # 10) * ComplianceAnalysis.confidence a)
               == ClauseRisk.risk_score (analysed_clause_risk c a)).
  { simpl. ring. }
  rewrite He. rewrite Q.max_r, Q.min_r by lra. reflexivity.
Qed.

(** C2.  The score of a clause with an analysis is weighted * confidence
    factor, with weighted = min(100, base * weight) and confidence factor
    = 0.5 + 0.5 * confidence, and it is stored as it is: the product is
    not brought into the interval from 0 to 100.  For a liability clause
    whose analysis has risk score -20 and confidence 1 the stored score is
    -28, where the claimed formula gives 0.  Whenever the risk score is at
    least 0 and the confidence lies between -1 and 1 the product is in the
    interval already and the stored score is the claimed one; a
    data-protection clause (weight 1.5) with base score 60 and confidence
    0.8 gets score 81 and level critical. *)
Theorem C2_clause_score_is_not_clamped :
  (let c := sample_clause "c1" LIABILITY in
   let a := sample_analysis "c1" (-20) 1 [] in
   exists r,
     _calculate_clause_risks [c] [a] = [r] /\
     ClauseRisk.risk_score r == -28 /\
     clause_score_formula c a == 0 /\
     ~ 0 <= ClauseRisk.risk_score r)
  /\
  (forall (clauses : list ExtractedClause.t)
          (analyses : list ComplianceAnalysis.t)
          (i : nat) (c : ExtractedClause.t) (a : ComplianceAnalysis.t),
     clauses !! i = Some c ->
     analysis_map analyses !! ExtractedClause.clause_id c = Some a ->
     exists r,
       _calculate_clause_risks clauses analyses !! i = Some r /\
       ClauseRisk.risk_level r = _score_to_level (ClauseRisk.risk_score r) /\
       (0 <= ComplianceAnalysis.risk_score a ->
        -1 <= ComplianceAnalysis.confidence a <= 1 ->
        ClauseRisk.risk_score r == clause_score_formula c a) /\
       (ExtractedClause.clause_type c = DATA_PROTECTION ->
        ComplianceAnalysis.risk_score a == 60 ->
        ComplianceAnalysis.confidence a == 8 # 10 ->
        ClauseRisk.risk_score r == 81 /\ ClauseRisk.risk_level r = CRITICAL)).
Proof.
  split.
  { eexists. split; [vm_compute; reflexivity|].
    split; [reflexivity|]. split; [reflexivity|].
    vm_compute. intros H. apply H. reflexivity. }
  intros clauses analyses i c a Hi Ha. exists (analysed_clause_risk c a).
  split; [|split; [|split]].
  - unfold _calculate_clause_risks. change (map ?f ?l) with (f <$> l).
    rewrite list_lookup_fmap, Hi. simpl. f_equal.
    unfold clause_risk_of. rewrite Ha. reflexivity.
  - reflexivity.
  - apply analysed_score_formula.
  - intros Ht Hb Hconf.
    assert (H81 : ClauseRisk.risk_score (analysed_clause_risk c a) == 81).
    { simpl. rewrite Ht. change (clause_weight _) with (15 # 10).
      unfold py_min.
      case_Qltb (ComplianceAnalysis.risk_score a * (15 # 10)) 100; [|lra].
      rewrite Hb, Hconf. reflexivity. }
    split; [exact H81|].
    change (ClauseRisk.risk_level (analysed_clause_risk c a))
      with (_score_to_level (ClauseRisk.risk_score (analysed_clause_risk c a))).
    apply _score_to_level_spec. lra.
Qed.

Lemma C2_clause_score_is_not_clamped_witness :
  exists r,
    _calculate_clause_risks [sample_clause "c1" DATA_PROTECTION]
        [sample_analysis "c1" 60 (8 # 10) []] !! 0%nat = Some r /\
    ClauseRisk.risk_score r
    == clause_score_formula (sample_clause "c1" DATA_PROTECTION)
         (sample_analysis "c1" 60 (8 # 10) []) /\
    ClauseRisk.risk_score r == 81 /\ ClauseRisk.risk_level r = CRITICAL.
Proof.
  destruct (proj2 C2_clause_score_is_not_clamped
              [sample_clause "c1" DATA_PROTECTION]
              [sample_analysis "c1" 60 (8 # 10) []] 0%nat
              (sample_clause "c1" DATA_PROTECTION)
              (sample_analysis "c1" 60 (8 # 10) []))
    as (r & Hr & _ & Hformula & Hscenario).
  - reflexivity.
  - vm_compute. reflexivity.
  - exists r. split; [exact Hr|]. split.
    + apply Hformula; simpl; lra.
    + apply Hscenario; reflexivity.
Defined.

(** The three findings outside their ranges and Scenario A give the same
    clause scores in binary64. *)
Example clause_scores_in_binary64 :
  Forall2 Qeq
    (map ClauseRisk.risk_score
       (Binary64._calculate_clause_risks
          [sample_clause "c1" LIABILITY; sample_clause "c2" DATA_PROTECTION;
           sample_clause "c3" DATA_PROTECTION; sample_clause "c4" DATA_PROTECTION]
          [sample_analysis "c1" (-20) 1 []; sample_analysis "c2" 100 2 [];
           sample_analysis "c3" (-10) 1 [];
           sample_analysis "c4" 60 (Binary64.round (8 # 10)) []]))
    [-28; 150; -15; 81].
Proof. repeat constructor. Qed.

(** C3.  Values outside their range are not brought back into it: an
    analysis with confidence 2 gives a clause risk score of 150, and one
    with risk score -10 gives -15. *)
Theorem C3_out_of_range_inputs_escape :
  (exists r,
     _calculate_clause_risks [sample_clause "c1" DATA_PROTECTION]
                             [sample_analysis "c1" 100 2 []] = [r]
     /\ ClauseRisk.risk_score r == 150
     /\ ~ ClauseRisk.risk_score r <= 100)
  /\
  (exists r,
     _calculate_clause_risks [sample_clause "c1" DATA_PROTECTION]
                             [sample_analysis "c1" (-10) 1 []] = [r]
     /\ ClauseRisk.risk_score r == -15
     /\ ~ 0 <= ClauseRisk.risk_score r).
Proof.
  split; eexists; (split; [vm_compute; reflexivity|]);
    (split; [reflexivity|]); vm_compute; intros H; apply H; reflexivity.
Qed.

Lemma C4_missing_analysis_default_witness :
  exists r,
    _calculate_clause_risks [sample_clause "c1" TERMINATION]
        [sample_analysis "c2" 70 1 []] !! 0%nat = Some r /\
    ClauseRisk.risk_score r = 50 /\ ClauseRisk.risk_level r = MEDIUM.
Proof.
  destruct (C4_missing_analysis_default
              [sample_clause "c1" TERMINATION]
              [sample_analysis "c2" 70 1 []] 0
              (sample_clause "c1" TERMINATION))
    as (r & Hr & _ & Hscore & Hlevel & _).
  - reflexivity.
  - simpl. intros [H|H]%elem_of_cons; [discriminate|inversion H].
  - exists r. auto.
Defined.

(** * Bounds on the three terms *)

Lemma Qnat_S (n : nat) : Qnat (S n) == 1 + Qnat n.
Proof.
  unfold Qnat. rewrite Nat2Z.inj_succ, <- Z.add_1_l, inject_Z_plus.
  reflexivity.
Qed.

Lemma Qnat_le (n m : nat) : (n <= m)%nat -> Qnat n <= Qnat m.
Proof. intros H. unfold Qnat. rewrite <- Zle_Qle. lia. Qed.

Lemma Qnat_S_pos (n : nat) : 0 < Qnat (S n).
Proof. unfold Qnat. change 0 with (inject_Z 0). rewrite <- Zlt_Qlt. lia. Qed.

Lemma density_of_bounds r (l : list ClauseRisk.t) :
  0 <= density_of (r :: l) <= 1.
Proof.
  unfold density_of.
  pose proof (count_if_le_length clause_is_high (r :: l)) as Hle.
  apply Qnat_le in Hle.
  pose proof (Qnat_S_pos (length l)) as Hpos.
  change (Qnat (S (length l))) with (Qnat (length (r :: l))) in Hpos.
  assert (0 <= Qnat (count_if clause_is_high (r :: l)))
    by (apply (Qnat_le 0); lia).
  split.
  - apply Qle_shift_div_l; [exact Hpos|lra].
  - apply Qle_shift_div_r; [exact Hpos|lra].
Qed.


(** * The overall score in binary64 *)

(** ** Powers of two and the binary logarithm *)

Lemma pow2_pos (e : Z) : 0 < Binary64.pow2 e.
Proof. apply Qpower_0_lt. reflexivity. Qed.

Lemma pow2_add (a b : Z) : Binary64.pow2 (a + b) == Binary64.pow2 a * Binary64.pow2 b.
Proof. apply Qpower_plus. discriminate. Qed.

Lemma pow2_le (a b : Z) : (a <= b)%Z -> Binary64.pow2 a <= Binary64.pow2 b.
Proof. intros H. apply Qpower_le_compat_l; [exact H|discriminate]. Qed.

Lemma pow2_lt_inv (a b : Z) : Binary64.pow2 a < Binary64.pow2 b -> (a < b)%Z.
Proof. intros H. eapply Qpower_lt_compat_l_inv; [exact H|reflexivity]. Qed.

Lemma pow2_Z (n : Z) : (0 <= n)%Z -> inject_Z (2 ^ n) == Binary64.pow2 n.
Proof. intros H. apply Zpower_Qpower, H. Qed.

Lemma pow2_succ (a : Z) : Binary64.pow2 (a + 1) == 2 * Binary64.pow2 a.
Proof. rewrite pow2_add. change (Binary64.pow2 1) with 2. ring. Qed.

(** ** ilog2 *)

Lemma Qabs_num_den (x : Q) :
  Qabs x == inject_Z (Z.abs (Qnum x)) / inject_Z (Zpos (Qden x)).
Proof.
  destruct x as [n d]. unfold Qabs. simpl.
  rewrite (Qmake_Qdiv (Z.abs n) d). reflexivity.
Qed.

Lemma ilog2_spec (x : Q) :
  ~ x == 0 -> Binary64.pow2 (Binary64.ilog2 x) <= Qabs x < Binary64.pow2 (Binary64.ilog2 x + 1).
Proof.
  intros Hx. unfold Binary64.ilog2.
  set (a := Z.abs (Qnum x)). set (b := Zpos (Qden x)).
  assert (Ha : (0 < a)%Z).
  { unfold a. destruct x as [n d]. unfold Qeq in Hx. simpl in *. lia. }
  assert (Hb : (0 < b)%Z) by (unfold b; lia).
  pose proof (Z.log2_spec a Ha) as [Ha1 Ha2].
  pose proof (Z.log2_spec b Hb) as [Hb1 Hb2].
  pose proof (Z.log2_nonneg a) as Hla. pose proof (Z.log2_nonneg b) as Hlb.
  set (la := Z.log2 a) in *. set (lb := Z.log2 b) in *.
  assert (Habs : Qabs x == inject_Z a / inject_Z b) by apply Qabs_num_den.
  assert (HbQ : 0 < inject_Z b).
  { change 0 with (inject_Z 0). rewrite <- Zlt_Qlt. exact Hb. }
  assert (Ha1Q : Binary64.pow2 la <= inject_Z a).
  { rewrite <- pow2_Z by exact Hla. rewrite <- Zle_Qle. exact Ha1. }
  assert (Ha2Q : inject_Z a < Binary64.pow2 (la + 1)).
  { rewrite <- pow2_Z by lia. rewrite <- Zlt_Qlt. exact Ha2. }
  assert (Hb1Q : Binary64.pow2 lb <= inject_Z b).
  { rewrite <- pow2_Z by exact Hlb. rewrite <- Zle_Qle. exact Hb1. }
  assert (Hb2Q : inject_Z b < Binary64.pow2 (lb + 1)).
  { rewrite <- pow2_Z by lia. rewrite <- Zlt_Qlt. exact Hb2. }
  pose proof (pow2_pos lb) as Hplb. pose proof (pow2_pos la) as Hpla.
  pose proof (pow2_pos (la - lb)) as Hpk.
  assert (Hk : Binary64.pow2 la == Binary64.pow2 (la - lb) * Binary64.pow2 lb).
  { rewrite <- pow2_add. replace (la - lb + lb)%Z with la by lia. reflexivity. }
  assert (Hup : Qabs x < Binary64.pow2 (la - lb + 1)).
  { rewrite Habs. apply Qlt_shift_div_r; [exact HbQ|].
    rewrite pow2_succ. rewrite pow2_succ in Ha2Q. nra. }
  assert (Hlo : Binary64.pow2 (la - lb - 1) <= Qabs x).
  { rewrite Habs. apply Qle_shift_div_l; [exact HbQ|].
    assert (H2 : Binary64.pow2 (la - lb) == 2 * Binary64.pow2 (la - lb - 1)).
    { rewrite <- pow2_succ. replace (la - lb - 1 + 1)%Z with (la - lb)%Z by lia.
      reflexivity. }
    rewrite pow2_succ in Hb2Q.
    pose proof (pow2_pos (la - lb - 1)). nra. }
  destruct (Qle_bool (Binary64.pow2 (la - lb)) (Qabs x)) eqn:E.
  - apply Qle_bool_iff in E. split; assumption.
  - replace (la - lb - 1 + 1)%Z with (la - lb)%Z by lia.
    split; [exact Hlo|].
    apply Qnot_le_lt. intros H. apply Qle_bool_iff in H. congruence.
Qed.

Lemma ilog2_mono (x y : Q) :
  ~ x == 0 -> Qabs x <= Qabs y -> (Binary64.ilog2 x <= Binary64.ilog2 y)%Z.
Proof.
  intros Hx Hle.
  assert (Hy : ~ y == 0).
  { intros Hy. rewrite Hy in Hle. change (Qabs 0) with 0 in Hle.
    revert Hle. apply Qabs_case; intros; apply Hx; lra. }
  destruct (ilog2_spec x Hx) as [H1 H2]. destruct (ilog2_spec y Hy) as [H3 H4].
  assert (Binary64.ilog2 x < Binary64.ilog2 y + 1)%Z by (apply pow2_lt_inv; lra).
  lia.
Qed.

(** ** nearest_even *)

Lemma nearest_even_bounds (x : Q) :
  x - (1 # 2) <= inject_Z (Binary64.nearest_even x) <= x + (1 # 2).
Proof.
  unfold Binary64.nearest_even.
  pose proof (Qfloor_le x) as H1. pose proof (Qlt_floor x) as H2.
  rewrite inject_Z_plus in H2. change (inject_Z 1) with 1 in H2.
  set (q := Qfloor x) in *.
  destruct (Qcompare_spec (x - inject_Z q) (1 # 2)) as [E|E|E];
    [destruct (Z.even q)| |];
    rewrite ?inject_Z_plus; change (inject_Z 1) with 1; lra.
Qed.

Lemma nearest_even_mono (x y : Q) :
  x <= y -> (Binary64.nearest_even x <= Binary64.nearest_even y)%Z.
Proof.
  intros Hxy. unfold Binary64.nearest_even.
  pose proof (Qfloor_resp_le x y Hxy) as Hq.
  pose proof (Qfloor_le x) as Hx1. pose proof (Qlt_floor x) as Hx2.
  pose proof (Qfloor_le y) as Hy1. pose proof (Qlt_floor y) as Hy2.
  rewrite inject_Z_plus in Hx2, Hy2. change (inject_Z 1) with 1 in Hx2, Hy2.
  set (qx := Qfloor x) in *. set (qy := Qfloor y) in *.
  destruct (Z.eq_dec qx qy) as [He|Hne].
  - rewrite He in *. clear He.
    destruct (Qcompare_spec (x - inject_Z qy) (1 # 2)) as [Ex|Ex|Ex];
      destruct (Qcompare_spec (y - inject_Z qy) (1 # 2)) as [Ey|Ey|Ey];
      destruct (Z.even qy); first [lia | exfalso; lra].
  - assert (qx + 1 <= qy)%Z by lia.
    destruct (Qcompare (x - inject_Z qx) (1 # 2));
      destruct (Qcompare (y - inject_Z qy) (1 # 2));
      destruct (Z.even qx); destruct (Z.even qy); lia.
Qed.

Lemma nearest_even_Z (n : Z) : Binary64.nearest_even (inject_Z n) = n.
Proof.
  unfold Binary64.nearest_even. rewrite Qfloor_Z.
  destruct (Qcompare_spec (inject_Z n - inject_Z n) (1 # 2)) as [E|E|E];
    [exfalso; lra|reflexivity|exfalso; lra].
Qed.

Lemma nearest_even_nonneg (x : Q) : 0 <= x -> (0 <= Binary64.nearest_even x)%Z.
Proof.
  intros H. rewrite <- (nearest_even_Z 0).
  apply nearest_even_mono. exact H.
Qed.

(** ** round *)

Lemma round_zero (x : Q) : x == 0 -> Binary64.round x = 0.
Proof.
  intros H. unfold Binary64.round. apply Qeq_bool_iff in H. rewrite H. reflexivity.
Qed.

Lemma round_nonzero (x : Q) :
  ~ x == 0 ->
  Binary64.round x = inject_Z (Binary64.nearest_even (x / Binary64.pow2 (Binary64.ulp_exponent x)))
            * Binary64.pow2 (Binary64.ulp_exponent x).
Proof.
  intros H. unfold Binary64.round.
  destruct (Qeq_bool x 0) eqn:E; [|reflexivity].
  apply Qeq_bool_iff in E. contradiction.
Qed.

(** The result is at most half a unit in the last place away. *)
Lemma round_error (x : Q) :
  x - Binary64.pow2 (Binary64.ulp_exponent x) * (1 # 2) <= Binary64.round x
  <= x + Binary64.pow2 (Binary64.ulp_exponent x) * (1 # 2).
Proof.
  pose proof (pow2_pos (Binary64.ulp_exponent x)) as He.
  destruct (Qeq_dec x 0) as [Hx|Hx].
  - rewrite (round_zero x Hx). lra.
  - rewrite (round_nonzero x Hx).
    set (e := Binary64.ulp_exponent x) in *.
    pose proof (nearest_even_bounds (x / Binary64.pow2 e)) as [H1 H2].
    assert (Hm : x / Binary64.pow2 e * Binary64.pow2 e == x) by (field; lra).
    set (m := x / Binary64.pow2 e) in *. set (n := inject_Z (Binary64.nearest_even m)) in *.
    nra.
Qed.

Lemma round_nonneg (x : Q) : 0 <= x -> 0 <= Binary64.round x.
Proof.
  intros H. destruct (Qeq_dec x 0) as [Hx|Hx].
  - rewrite (round_zero x Hx). lra.
  - rewrite (round_nonzero x Hx).
    pose proof (pow2_pos (Binary64.ulp_exponent x)) as He.
    apply Qmult_le_0_compat; [|lra].
    change 0 with (inject_Z 0). rewrite <- Zle_Qle.
    apply nearest_even_nonneg. apply Qle_shift_div_l; lra.
Qed.

Lemma ulp_exponent_mono (x y : Q) :
  0 < x -> x <= y -> (Binary64.ulp_exponent x <= Binary64.ulp_exponent y)%Z.
Proof.
  intros Hx Hxy. unfold Binary64.ulp_exponent.
  assert (Binary64.ilog2 x <= Binary64.ilog2 y)%Z; [|lia].
  apply ilog2_mono; [lra|].
  rewrite !Qabs_pos by lra. exact Hxy.
Qed.

Lemma pow2_53 : inject_Z (2 ^ 53) == Binary64.pow2 53.
Proof. apply pow2_Z. lia. Qed.

Lemma pow2_52 : inject_Z (2 ^ 52) == Binary64.pow2 52.
Proof. apply pow2_Z. lia. Qed.

(** Rounding is monotone. *)
Lemma round_mono (x y : Q) : 0 <= x -> x <= y -> Binary64.round x <= Binary64.round y.
Proof.
  intros Hx Hxy.
  destruct (Qeq_dec x 0) as [Hx0|Hx0].
  { rewrite (round_zero x Hx0). apply round_nonneg. lra. }
  assert (Hxpos : 0 < x) by lra.
  assert (Hy0 : ~ y == 0) by lra.
  rewrite (round_nonzero x Hx0), (round_nonzero y Hy0).
  pose proof (ulp_exponent_mono x y Hxpos Hxy) as Hexp.
  pose proof (pow2_pos (Binary64.ulp_exponent x)) as Hpx.
  pose proof (pow2_pos (Binary64.ulp_exponent y)) as Hpy.
  destruct (Z.eq_dec (Binary64.ulp_exponent x) (Binary64.ulp_exponent y)) as [He|Hne].
  - rewrite He in *. apply Qmult_le_compat_r; [|lra].
    rewrite <- Zle_Qle. apply nearest_even_mono.
    unfold Qdiv. apply Qmult_le_compat_r; [exact Hxy|].
    apply Qlt_le_weak, Qinv_lt_0_compat. exact Hpy.
  - assert (Hlt : (Binary64.ulp_exponent x + 1 <= Binary64.ulp_exponent y)%Z) by lia.
    destruct (ilog2_spec x Hx0) as [_ Hx2].
    destruct (ilog2_spec y Hy0) as [Hy1 _].
    rewrite Qabs_pos in Hx2, Hy1 by lra.
    assert (Hey : Binary64.ulp_exponent y = (Binary64.ilog2 y - 52)%Z).
    { unfold Binary64.ulp_exponent in *. lia. }
    assert (Hex : (Binary64.ilog2 x + 1 <= Binary64.ulp_exponent x + 53)%Z).
    { unfold Binary64.ulp_exponent. lia. }
    (* round x <= 2^(ex+53) *)
    assert (Hrx : inject_Z (Binary64.nearest_even (x / Binary64.pow2 (Binary64.ulp_exponent x)))
                  * Binary64.pow2 (Binary64.ulp_exponent x) <= Binary64.pow2 (Binary64.ulp_exponent x + 53)).
    { rewrite Z.add_comm, pow2_add, <- pow2_53.
      apply Qmult_le_compat_r; [|lra].
      rewrite <- Zle_Qle.
      etransitivity; [|rewrite <- (nearest_even_Z (2 ^ 53)); reflexivity].
      apply nearest_even_mono. rewrite pow2_53.
      apply Qle_shift_div_r; [exact Hpx|].
      rewrite <- pow2_add, Z.add_comm.
      apply Qlt_le_weak. eapply Qlt_le_trans; [exact Hx2|].
      apply pow2_le. exact Hex. }
    assert (Hry : Binary64.pow2 (Binary64.ulp_exponent y + 52)
                  <= inject_Z (Binary64.nearest_even (y / Binary64.pow2 (Binary64.ulp_exponent y)))
                     * Binary64.pow2 (Binary64.ulp_exponent y)).
    { rewrite Z.add_comm, pow2_add, <- pow2_52.
      apply Qmult_le_compat_r; [|lra].
      rewrite <- Zle_Qle.
      etransitivity; [rewrite <- (nearest_even_Z (2 ^ 52)); reflexivity|].
      apply nearest_even_mono. rewrite pow2_52.
      apply Qle_shift_div_l; [exact Hpy|].
      rewrite <- pow2_add, Z.add_comm, Hey.
      replace (Binary64.ilog2 y - 52 + 52)%Z with (Binary64.ilog2 y) by lia. exact Hy1. }
    eapply Qle_trans; [exact Hrx|]. eapply Qle_trans; [|exact Hry].
    apply pow2_le. lia.
Qed.

(** ** Relative error *)

Lemma u_pow2 : Binary64.u == Binary64.pow2 (-53).
Proof. vm_compute. reflexivity. Qed.

Lemma eta_pow2 : Binary64.eta == Binary64.pow2 (-1022).
Proof. vm_compute. reflexivity. Qed.

Lemma round_rel (x : Q) :
  Binary64.eta <= x -> x * (1 - Binary64.u) <= Binary64.round x <= x * (1 + Binary64.u).
Proof.
  intros Hx. rewrite eta_pow2 in Hx.
  pose proof (pow2_pos (-1022)) as Hpos.
  assert (Hx0 : ~ x == 0) by lra.
  destruct (ilog2_spec x Hx0) as [H1 H2].
  rewrite Qabs_pos in H1, H2 by lra.
  assert (Hlog : (-1022 <= Binary64.ilog2 x)%Z).
  { assert (-1022 < Binary64.ilog2 x + 1)%Z by (apply pow2_lt_inv; lra). lia. }
  assert (He : Binary64.ulp_exponent x = (Binary64.ilog2 x - 52)%Z).
  { unfold Binary64.ulp_exponent. lia. }
  pose proof (round_error x) as [H3 H4]. rewrite He in H3, H4.
  assert (Hulp : Binary64.pow2 (Binary64.ilog2 x - 52) * (1 # 2) == Binary64.pow2 (Binary64.ilog2 x) * Binary64.u).
  { rewrite u_pow2, <- pow2_add.
    replace (Binary64.ilog2 x + -53)%Z with (Binary64.ilog2 x - 52 + -1)%Z by lia.
    rewrite pow2_add. reflexivity. }
  rewrite Hulp in H3, H4.
  assert (Hu : 0 < Binary64.u) by reflexivity.
  assert (Binary64.pow2 (Binary64.ilog2 x) * Binary64.u <= x * Binary64.u) by (apply Qmult_le_compat_r; lra).
  lra.
Qed.

Example round_eta : Binary64.round Binary64.eta == Binary64.eta.
Proof. vm_compute. reflexivity. Qed.

(** For every non-negative [x], also a subnormal one. *)
Lemma round_upper (x : Q) : 0 <= x -> Binary64.round x <= x * (1 + Binary64.u) + Binary64.eta.
Proof.
  intros Hx. destruct (Qlt_le_dec x Binary64.eta) as [Hlt|Hge].
  - pose proof (round_mono x Binary64.eta Hx (Qlt_le_weak _ _ Hlt)) as H.
    rewrite round_eta in H.
    assert (0 <= x * (1 + Binary64.u)); [|lra].
    apply Qmult_le_0_compat; [exact Hx|]. unfold Binary64.u. lra.
  - pose proof (round_rel x Hge) as [_ H]. unfold Binary64.eta. lra.
Qed.

(** ** [round] against the floats of the kernel *)

Section KernelFloats.
Import PrimFloat.
Local Open Scope float_scope.

Example kernel_division : Binary64.agrees (7 / 10) (Binary64.div 7 10) = true.
Proof. vm_compute. reflexivity. Qed.

Example kernel_literal :
  Binary64.agrees (14 / 10) (Binary64.clause_weight "liability") = true.
Proof. vm_compute. reflexivity. Qed.

Example kernel_sum :
  Binary64.agrees (11 / 10 + 11 / 10 + 11 / 10)
    (Binary64.sum (replicate 3 (Binary64.round (11 # 10)))) = true.
Proof. vm_compute. reflexivity. Qed.

Example kernel_average :
  Binary64.agrees
    ((100 * (14 / 10) + 100 * (14 / 10) + 100 * (14 / 10))
     / (14 / 10 + 14 / 10 + 14 / 10))
    (Binary64.weighted_average_of
       (replicate 3 (sample_risk "liability" 100 CRITICAL))) = true.
Proof. vm_compute. reflexivity. Qed.

Example kernel_overall :
  Binary64.agrees
    ((50 * (14 / 10) + 50 * (8 / 10)) / (14 / 10 + 8 / 10) * (6 / 10)
     + (50 - (50 * (14 / 10) + 50 * (8 / 10)) / (14 / 10 + 8 / 10)) * (3 / 10)
     + 0 / 2 * 20)
    (fst (Binary64._calculate_overall_score
            [sample_risk "liability" 50 MEDIUM; sample_risk "notices" 50 MEDIUM]
            [])) = true.
Proof. vm_compute. reflexivity. Qed.

Example kernel_subnormal :
  Binary64.agrees (FloatOps.Z.ldexp 1 (-1074)%Z * (7 / 10))
    (Binary64.mul (Binary64.pow2 (-1074)) (Binary64.round (7 # 10))) = true.
Proof. vm_compute. reflexivity. Qed.

End KernelFloats.

(** ** Sums *)

Lemma sum_snoc (xs : list Q) (x : Q) : Binary64.sum (xs ++ [x]) = Binary64.add (Binary64.sum xs) x.
Proof. unfold Binary64.sum. rewrite fold_left_app. reflexivity. Qed.

Lemma Qsum_snoc (xs : list Q) (x : Q) : Qsum (xs ++ [x]) == Qsum xs + x.
Proof.
  induction xs as [|y xs IH]; simpl; [ring|]. rewrite IH. ring.
Qed.

Lemma Qsum_nonneg (xs : list Q) : Forall (fun x => 0 <= x) xs -> 0 <= Qsum xs.
Proof. induction 1; simpl; lra. Qed.

Lemma sum_nonneg (xs : list Q) : Forall (fun x => 0 <= x) xs -> 0 <= Binary64.sum xs.
Proof.
  induction xs as [|x xs IH] using rev_ind; intros H.
  - unfold Binary64.sum. simpl. lra.
  - rewrite sum_snoc. apply Forall_app in H as [H1 H2].
    inversion H2; subst. apply round_nonneg. specialize (IH H1). lra.
Qed.

(** The rounded sum of [n] non-negative numbers exceeds the exact sum by a
    factor of at most 1 + 2 n u, apart from underflow. *)
Lemma sum_upper (xs : list Q) :
  Forall (fun x => 0 <= x) xs ->
  2 * Qnat (length xs) * Binary64.u <= 1 ->
  Binary64.sum xs <= (1 + 2 * Qnat (length xs) * Binary64.u) * (Qsum xs + Qnat (length xs) * Binary64.eta).
Proof.
  induction xs as [|x xs IH] using rev_ind; intros H Hn.
  - change (0 <= (1 + 2 * 0 * Binary64.u) * (0 + 0 * Binary64.eta)). unfold Binary64.u, Binary64.eta. lra.
  - apply Forall_app in H as [H1 H2]. inversion H2 as [|? ? Hx _]; subst.
    rewrite length_app in *. simpl length in *.
    rewrite Nat.add_1_r, Qnat_S in *.
    pose proof (sum_nonneg xs H1) as HS. pose proof (Qsum_nonneg xs H1) as HQ.
    assert (Hk : 0 <= Qnat (length xs)).
    { unfold Qnat. change 0 with (inject_Z 0). rewrite <- Zle_Qle. lia. }
    set (k := Qnat (length xs)) in *.
    assert (Hn' : 2 * k * Binary64.u <= 1) by (unfold Binary64.u in *; lra).
    specialize (IH H1 Hn').
    rewrite sum_snoc, Qsum_snoc. unfold Binary64.add.
    pose proof (round_upper (Binary64.sum xs + x) ltac:(lra)) as Hr.
    set (S := Binary64.sum xs) in *. set (T := Qsum xs) in *.
    clearbody S T k.
    assert (He : 0 < Binary64.eta) by reflexivity.
    unfold Binary64.u in *.
    assert (Hkx : 0 <= k * x) by nra.
    assert (Hb : 0 <= k * Binary64.eta) by nra.
    assert (Hkk : 0 <= k * k) by nra.
    assert (Hkt : 0 <= k * T) by nra.
    assert (Hkke : 0 <= k * (k * Binary64.eta)) by nra.
    eapply Qle_trans; [exact Hr|]. nra.
Qed.

Lemma Qnat_nonneg (n : nat) : 0 <= Qnat n.
Proof.
  unfold Qnat. change 0 with (inject_Z 0). rewrite <- Zle_Qle. lia.
Qed.

(** And it falls short of the exact sum by a factor of at most 1 - n u
    when no addend is subnormal. *)
Lemma sum_lower (xs : list Q) :
  Forall (fun x => Binary64.eta <= x) xs ->
  Qnat (length xs) * Binary64.u <= 1 ->
  (1 - Qnat (length xs) * Binary64.u) * Qsum xs <= Binary64.sum xs.
Proof.
  induction xs as [|x xs IH] using rev_ind; intros H Hn.
  - change ((1 - 0 * Binary64.u) * 0 <= 0). lra.
  - apply Forall_app in H as [H1 H2]. inversion H2 as [|? ? Hx _]; subst.
    rewrite length_app in *. simpl length in *.
    rewrite Nat.add_1_r, Qnat_S in *.
    assert (H0 : Forall (fun x => 0 <= x) xs).
    { eapply Forall_impl; [exact H1|]. simpl. intros y Hy. unfold Binary64.eta in Hy. lra. }
    pose proof (sum_nonneg xs H0) as HS. pose proof (Qsum_nonneg xs H0) as HQ.
    pose proof (Qnat_nonneg (length xs)) as Hk.
    set (k := Qnat (length xs)) in *.
    assert (Hn' : k * Binary64.u <= 1) by (unfold Binary64.u in *; lra).
    specialize (IH H1 Hn').
    rewrite sum_snoc, Qsum_snoc. unfold Binary64.add.
    assert (He : 0 < Binary64.eta) by reflexivity.
    pose proof (round_rel (Binary64.sum xs + x) ltac:(lra)) as [Hr _].
    set (S := Binary64.sum xs) in *. set (T := Qsum xs) in *.
    clearbody S T k.
    unfold Binary64.u in *.
    assert (Hkx : 0 <= k * x) by nra.
    assert (Hkt : 0 <= k * T) by nra.
    eapply Qle_trans; [|exact Hr]. nra.
Qed.

(** ** The weights *)

Lemma clause_weight_range (k : string) :
  1 # 2 <= Binary64.clause_weight k <= 3 # 2.
Proof.
  unfold Binary64.clause_weight.
  destruct (CLAUSE_TYPE_WEIGHTS !! k) as [w|] eqn:E; simpl; [|lra].
  apply elem_of_list_to_map_2 in E.
  assert (HF : List.Forall (fun kv => 1 # 2 <= Binary64.round (snd kv) <= 3 # 2)
                 CLAUSE_TYPE_WEIGHTS_items).
  { repeat constructor; apply Qle_bool_iff; vm_compute; reflexivity. }
  rewrite List.Forall_forall in HF.
  apply (HF (k, w)). apply list_elem_of_In. exact E.
Qed.

Lemma risk_weight_range (r : ClauseRisk.t) : 1 # 2 <= Binary64.risk_weight r <= 3 # 2.
Proof. apply clause_weight_range. Qed.

Example round_1 : Binary64.round 1 == 1.
Proof. vm_compute. reflexivity. Qed.

Example round_20 : Binary64.round 20 == 20.
Proof. vm_compute. reflexivity. Qed.

(** ** The weighted average *)

Lemma product_upper (s w : Q) :
  0 <= s <= 100 -> 1 # 2 <= w ->
  0 <= Binary64.mul s w <= 100 * (1 + Binary64.u) * w.
Proof.
  intros Hs Hw. unfold Binary64.mul. split.
  - apply round_nonneg. nra.
  - eapply Qle_trans; [apply (round_mono (s * w) (100 * w)); nra|].
    assert (He : Binary64.eta <= 100 * w) by (unfold Binary64.eta; lra).
    pose proof (round_rel (100 * w) He) as [_ H]. lra.
Qed.

Lemma Qsum_products_upper (risks : list ClauseRisk.t) :
  Forall (fun r => 0 <= ClauseRisk.risk_score r <= 100) risks ->
  Forall (fun x => 0 <= x)
         (map (fun r => Binary64.mul (ClauseRisk.risk_score r) (Binary64.risk_weight r)) risks)
  /\ Qsum (map (fun r => Binary64.mul (ClauseRisk.risk_score r) (Binary64.risk_weight r)) risks)
     <= 100 * (1 + Binary64.u) * Qsum (map Binary64.risk_weight risks).
Proof.
  induction 1 as [|r risks Hr _ [IH1 IH2]]; simpl.
  - split; [constructor|]. lra.
  - pose proof (risk_weight_range r) as [Hw _].
    pose proof (product_upper _ _ Hr Hw) as [Hp1 Hp2].
    split; [constructor; assumption|]. lra.
Qed.

Lemma Qsum_weights_lower (risks : list ClauseRisk.t) :
  Forall (fun x => Binary64.eta <= x) (map Binary64.risk_weight risks)
  /\ Qnat (length risks) * (1 # 2) <= Qsum (map Binary64.risk_weight risks).
Proof.
  induction risks as [|r risks [IH1 IH2]]; simpl map; simpl length.
  - split; [constructor|]. change (0 * (1 # 2) <= 0). lra.
  - pose proof (risk_weight_range r) as [Hw _].
    rewrite Qnat_S. simpl Qsum.
    split; [constructor; [unfold Binary64.eta; lra|assumption]|]. lra.
Qed.

Lemma weighted_average_of_upper (r0 : ClauseRisk.t) (rest : list ClauseRisk.t) :
  Forall (fun r => 0 <= ClauseRisk.risk_score r <= 100) (r0 :: rest) ->
  Qnat (length (r0 :: rest)) <= 1000000 ->
  0 <= Binary64.weighted_average_of (r0 :: rest) <= 100 + (1 # 10000000).
Proof.
  intros Hrange Hn. unfold Binary64.weighted_average_of, Binary64.total_weight_of, Binary64.weighted_sum_of.
  set (risks := r0 :: rest) in *.
  destruct (Qsum_products_upper risks Hrange) as [Hp0 HP].
  destruct (Qsum_weights_lower risks) as [Hw0 HW].
  pose proof (Qnat_nonneg (length risks)) as Hn0.
  assert (Hn1 : 1 <= Qnat (length risks)).
  { unfold risks. simpl length. rewrite Qnat_S.
    pose proof (Qnat_nonneg (length rest)). lra. }
  pose proof (sum_upper _ Hp0) as Hsu. pose proof (sum_lower _ Hw0) as Hsl.
  pose proof (sum_nonneg _ Hp0) as Hs0. pose proof (Qsum_nonneg _ Hp0) as HP0.
  rewrite !length_map in Hsu, Hsl.
  assert (Ht : 0 <= Qnat (length risks) * Binary64.eta <= 1 # 1000000000000000000000000).
  { unfold Binary64.eta. lra. }
  set (t := Qnat (length risks) * Binary64.eta) in *.
  set (n := Qnat (length risks)) in *.
  set (P := Qsum (map (fun r => Binary64.mul (ClauseRisk.risk_score r) (Binary64.risk_weight r))
                      risks)) in *.
  set (W := Qsum (map Binary64.risk_weight risks)) in *.
  set (sp := Binary64.sum (map (fun r => Binary64.mul (ClauseRisk.risk_score r) (Binary64.risk_weight r))
                      risks)) in *.
  set (sw := Binary64.sum (map Binary64.risk_weight risks)) in *.
  clearbody t n P W sp sw.
  unfold Binary64.u in *.
  specialize (Hsu ltac:(lra)). specialize (Hsl ltac:(lra)).
  assert (HW0 : 1 # 2 <= W) by lra.
  assert (Hsw : (1 - 1000000 * (1 # 9007199254740992)) * W <= sw).
  { eapply Qle_trans; [|exact Hsl]. apply Qmult_le_compat_r; lra. }
  assert (Hsw0 : 0 < sw) by lra.
  case_Qltb 0 sw; [|lra].
  unfold Binary64.div.
  assert (Hq : 0 <= sp / sw <= 100 + (4 # 100000000)).
  { split.
    - apply Qle_shift_div_l; [exact Hsw0|]. lra.
    - apply Qle_shift_div_r; [exact Hsw0|].
      assert (H1 : sp <= (1 + 2 * 1000000 * (1 # 9007199254740992)) * (P + t)).
      { eapply Qle_trans; [exact Hsu|].
        apply Qmult_le_compat_r; lra. }
      lra. }
  split; [apply round_nonneg; lra|].
  eapply Qle_trans; [apply (round_mono _ (100 + (4 # 100000000))); lra|].
  pose proof (round_rel (100 + (4 # 100000000))) as Hr.
  unfold Binary64.u, Binary64.eta in Hr. specialize (Hr ltac:(lra)). lra.
Qed.

(** ** The value before the clamp *)

Example round_6_10 : 0 <= Binary64.round (6 # 10) <= 6 # 10.
Proof. split; apply Qle_bool_iff; vm_compute; reflexivity. Qed.

Example round_3_10 : 0 <= Binary64.round (3 # 10) <= 3 # 10.
Proof. split; apply Qle_bool_iff; vm_compute; reflexivity. Qed.

Lemma density_of_round r (l : list ClauseRisk.t) :
  Binary64.density_of (r :: l) = Binary64.round (density_of (r :: l)).
Proof. reflexivity. Qed.

Lemma density_of_range r (l : list ClauseRisk.t) :
  0 <= Binary64.density_of (r :: l) <= 1.
Proof.
  rewrite density_of_round.
  pose proof (density_of_bounds r l) as [H0 H1]. split.
  - apply round_nonneg, H0.
  - rewrite <- round_1. apply round_mono; assumption.
Qed.

Lemma density_penalty_range (d : Q) : 0 <= d <= 1 -> 0 <= Binary64.mul d 20 <= 20.
Proof.
  intros [H0 H1]. unfold Binary64.mul. split.
  - apply round_nonneg. lra.
  - rewrite <- round_20 at 2. apply round_mono; lra.
Qed.

(** [x * c] for a float [c] that is at most the decimal [c']. *)
Lemma mul_upper (x c c' : Q) :
  0 <= x -> 0 <= c <= c' -> 0 <= Binary64.mul x c <= x * c' * (1 + Binary64.u) + Binary64.eta.
Proof.
  intros Hx Hc. unfold Binary64.mul. split.
  - apply round_nonneg. nra.
  - eapply Qle_trans; [apply (round_mono (x * c) (x * c')); nra|].
    apply round_upper. nra.
Qed.

Lemma max_penalty_of_upper (A M : Q) :
  0 <= A -> M <= 100 ->
  0 <= Binary64.max_penalty_of A M
  /\ (A < M ->
      Binary64.max_penalty_of A M
      <= ((M - A) * (1 + Binary64.u) + Binary64.eta) * (3 # 10) * (1 + Binary64.u) + Binary64.eta)
  /\ (M <= A -> Binary64.max_penalty_of A M == 0).
Proof.
  intros HA HM. unfold Binary64.max_penalty_of.
  case_Qltb A M.
  - assert (Hs : 0 <= Binary64.sub M A <= (M - A) * (1 + Binary64.u) + Binary64.eta).
    { unfold Binary64.sub. split; [apply round_nonneg; lra|apply round_upper; lra]. }
    pose proof (mul_upper (Binary64.sub M A) _ (3 # 10) (proj1 Hs) round_3_10) as [H1 H2].
    split; [exact H1|]. split; [|intros; lra].
    intros _. eapply Qle_trans; [exact H2|]. unfold Binary64.u, Binary64.eta in *. lra.
  - split; [lra|]. split; [intros; lra|reflexivity].
Qed.

Lemma max_risk_of_range r0 rest :
  Forall (fun r => 0 <= ClauseRisk.risk_score r <= 100) (r0 :: rest) ->
  0 <= max_risk_of r0 rest <= 100.
Proof.
  intros Hrange. split.
  - pose proof (max_risk_of_upper r0 rest) as Hup.
    inversion Hup; subst. inversion Hrange; subst. lra.
  - apply py_max_list_lub. inversion Hrange as [|? ? H0 Hrest]; subst.
    split; [tauto|]. apply Forall_fmap. eapply Forall_impl; [exact Hrest|].
    simpl. tauto.
Qed.

(** The first two terms together: the average times 0.6, plus the
    penalty. *)
Lemma base_plus_penalty_upper (r0 : ClauseRisk.t) (rest : list ClauseRisk.t) :
  Forall (fun r => 0 <= ClauseRisk.risk_score r <= 100) (r0 :: rest) ->
  Qnat (length (r0 :: rest)) <= 1000000 ->
  let A := Binary64.weighted_average_of (r0 :: rest) in
  0 <= Binary64.add (Binary64.mul A (Binary64.round (6 # 10))) (Binary64.max_penalty_of A (max_risk_of r0 rest))
    <= 60 + (1 # 10000000).
Proof.
  intros Hrange Hn A. subst A.
  pose proof (weighted_average_of_upper r0 rest Hrange Hn) as HA.
  pose proof (max_risk_of_range r0 rest Hrange) as HM.
  set (A := Binary64.weighted_average_of (r0 :: rest)) in *.
  set (M := max_risk_of r0 rest) in *.
  pose proof (mul_upper A _ (6 # 10) (proj1 HA) round_6_10) as HB.
  destruct (max_penalty_of_upper A M (proj1 HA) (proj2 HM)) as (HP0 & HP1 & HP2).
  set (base := Binary64.mul A (Binary64.round (6 # 10))) in *.
  set (pen := Binary64.max_penalty_of A M) in *.
  assert (Hbp : 0 <= Binary64.add base pen <= (base + pen) * (1 + Binary64.u) + Binary64.eta).
  { unfold Binary64.add. split; [apply round_nonneg; lra|apply round_upper; lra]. }
  split; [tauto|].
  eapply Qle_trans; [exact (proj2 Hbp)|].
  clearbody A M base pen.
  destruct (Qlt_le_dec A M) as [Hlt|Hge].
  - specialize (HP1 Hlt). unfold Binary64.u, Binary64.eta in *. lra.
  - specialize (HP2 Hge). unfold Binary64.u, Binary64.eta in *. lra.
Qed.

Lemma raw_overall_upper (r0 : ClauseRisk.t) (rest : list ClauseRisk.t) :
  Forall (fun r => 0 <= ClauseRisk.risk_score r <= 100) (r0 :: rest) ->
  Qnat (length (r0 :: rest)) <= 1000000 ->
  0 <= Binary64.raw_overall r0 rest <= 80 + (1 # 1000000).
Proof.
  intros Hrange Hn. unfold Binary64.raw_overall. cbv zeta.
  pose proof (base_plus_penalty_upper r0 rest Hrange Hn) as Hbp.
  pose proof (density_penalty_range _ (density_of_range r0 rest)) as HD.
  cbv zeta in Hbp.
  set (bp := Binary64.add _ (Binary64.max_penalty_of _ _)) in *.
  set (dp := Binary64.mul (Binary64.density_of (r0 :: rest)) 20) in *.
  assert (Hraw : 0 <= Binary64.add bp dp <= (bp + dp) * (1 + Binary64.u) + Binary64.eta).
  { unfold Binary64.add. split; [apply round_nonneg; lra|apply round_upper; lra]. }
  split; [tauto|].
  eapply Qle_trans; [exact (proj2 Hraw)|].
  clearbody bp dp. unfold Binary64.u, Binary64.eta in *. lra.
Qed.


Lemma clamp_of_raw (x : Q) : 0 <= x <= 100 -> py_min 100 (py_max 0 x) == x.
Proof.
  intros [H0 H1]. unfold py_min, py_max.
  case_Qltb 0 x.
  - case_Qltb x 100; lra.
  - case_Qltb 0 100; lra.
Qed.




(** * Raising the risk score of one analysis *)

(** C7.  Raising the risk score of one analysis can lower the overall
    score.  Two clauses of unknown type have the analyses (risk score 100,
    confidence 1) and (risk score 10, confidence -3).  The confidence
    factor of the second is 0.5 + (-3) * 0.5 = -1, which nothing raises to
    0, so its clause score is -10 and the overall score is 53.5; with the
    risk score 10 raised to 20 the clause score falls to -20 and the
    overall score to 52. *)
Theorem C7_raising_a_risk_score_lowers_the_overall_score :
  let clauses := [sample_clause "c1" UNKNOWN; sample_clause "c2" UNKNOWN] in
  let a1 := sample_analysis "c1" 100 1 [] in
  let a2 := sample_analysis "c2" 10 (-3) [] in
  let lower := calculate_risk_report id "doc" clauses [a1; a2] in
  let raised :=
    calculate_risk_report id "doc" clauses
      [a1; ComplianceAnalysis.with_risk_score a2 20] in
  ComplianceAnalysis.risk_score a2
    < ComplianceAnalysis.risk_score (ComplianceAnalysis.with_risk_score a2 20)
  /\ Forall2 Qeq
       (map ClauseRisk.risk_score (ContractRiskReport.all_clause_risks lower))
       [100; -10]
  /\ Forall2 Qeq
       (map ClauseRisk.risk_score (ContractRiskReport.all_clause_risks raised))
       [100; -20]
  /\ ContractRiskReport.overall_risk_score lower == 107 # 2
  /\ ContractRiskReport.overall_risk_score raised == 52
  /\ ContractRiskReport.overall_risk_score raised
     < ContractRiskReport.overall_risk_score lower.
Proof.
  split; [reflexivity|].
  split; [repeat constructor|].
  split; [repeat constructor|].
  split; [vm_compute; reflexivity|].
  split; [vm_compute; reflexivity|].
  vm_compute. reflexivity.
Qed.

(** The same two reports in binary64. *)
Example overall_scores_in_binary64 :
  let clauses := [sample_clause "c1" UNKNOWN; sample_clause "c2" UNKNOWN] in
  let a1 := sample_analysis "c1" 100 1 [] in
  let a2 := sample_analysis "c2" 10 (-3) [] in
  ContractRiskReport.overall_risk_score
    (Binary64.calculate_risk_report id "doc" clauses [a1; a2]) == 107 # 2
  /\ ContractRiskReport.overall_risk_score
       (Binary64.calculate_risk_report id "doc" clauses
          [a1; ComplianceAnalysis.with_risk_score a2 20]) == 52.
Proof. split; vm_compute; reflexivity. Qed.

(** * Worked examples *)

(** Three clauses with scores 60, 80 and 40 at weights 1.5, 1.4 and 1.0:
    A = 242/3.9, the maximum is 80, two of the three clauses are high. *)
Example overall_three_clauses :
  let rs := [ sample_risk "data_protection" 60 HIGH;
              sample_risk "liability" 80 CRITICAL;
              sample_risk "payment_terms" 40 MEDIUM ] in
  fst (_calculate_overall_score rs [])
  == (2420 # 39) * (6 # 10) + (80 - (2420 # 39)) * (3 # 10) + (2 # 3) * 20.
Proof. vm_compute. reflexivity. Qed.

(** Five clauses, all high or critical: the density term is 20. *)
Example density_five_high :
  density_of (replicate 5 (sample_risk "liability" 85 CRITICAL)) * 20 == 20.
Proof. vm_compute. reflexivity. Qed.

Example citations_keep_first :
  map Citation.title
    (_collect_citations
       [ sample_analysis "c1" 10 1
           [sample_regulation "GDPR-Art-5" "first";
            sample_regulation "SEC-FD" "second"];
         sample_analysis "c2" 10 1
           [sample_regulation "GDPR-Art-5" "third";
            sample_regulation "GDPR-Art-6" "fourth"] ])
  = ["first"; "second"; "fourth"]%string.
Proof. vm_compute. reflexivity. Qed.

Example later_analysis_replaces_earlier :
  map ClauseRisk.risk_score
    (_calculate_clause_risks [sample_clause "c1" PAYMENT_TERMS]
       [sample_analysis "c1" 10 1 []; sample_analysis "c1" 70 1 []])
  = [70 * 1 * ((5 # 10) + 1 * (5 # 10))].
Proof. vm_compute. reflexivity. Qed.

Example categories_in_report :
  let report :=
    calculate_risk_report id "doc"
      [ sample_clause "c1" NOTICES; sample_clause "c2" LIABILITY;
        sample_clause "c3" NOTICES; sample_clause "c4" TERMINATION ]
      [ sample_analysis "c1" 50 1 []; sample_analysis "c2" 50 1 [];
        sample_analysis "c4" (175 # 3) 1 [] ] in
  map CategoryRisk.category (ContractRiskReport.category_risks report)
  = ["liability"; "termination"; "notices"]%string
  /\ map ClauseRisk.clause_id (ContractRiskReport.top_risks report)
     = ["c2"; "c4"; "c3"; "c1"]%string.
Proof. vm_compute. split; reflexivity. Qed.

(** * Further properties of the engine *)

(** ** The categories partition the clause risks *)

Lemma filter_type_snoc (l : list ClauseRisk.t) (r : ClauseRisk.t) (c : string) :
  filter (fun x => ClauseRisk.clause_type x = c) (l ++ [r])
  = filter (fun x => ClauseRisk.clause_type x = c) l
    ++ (if decide (c = ClauseRisk.clause_type r) then [r] else []).
Proof.
  rewrite filter_app, filter_cons, filter_nil. f_equal.
  destruct (decide (ClauseRisk.clause_type r = c)),
           (decide (c = ClauseRisk.clause_type r)); congruence.
Qed.

Lemma group_append_map (f : string -> list ClauseRisk.t)
    (cat : string) (r : ClauseRisk.t) (ks : list string) :
  NoDup ks ->
  (cat ∉ ks -> f cat = []) ->
  group_append cat r (map (fun c => (c, f c)) ks)
  = map (fun c => (c, f c ++ (if decide (c = cat) then [r] else [])))
        (ks ++ (if decide (cat ∈ ks) then [] else [cat])).
Proof.
  intros Hnd Hf. induction ks as [|k ks IH]; simpl.
  - rewrite decide_True by reflexivity. rewrite Hf by apply not_elem_of_nil.
    reflexivity.
  - apply NoDup_cons in Hnd as [Hk Hnd].
    destruct (decide (k = cat)) as [->|Hne].
    + rewrite (decide_True (P := cat ∈ cat :: ks)) by apply list_elem_of_here.
      rewrite app_nil_r. f_equal.
      apply map_ext_in. intros c Hc%list_elem_of_In.
      rewrite decide_False by (intros ->; tauto).
      rewrite app_nil_r. reflexivity.
    + rewrite app_nil_r. f_equal.
      rewrite IH; [|exact Hnd|].
      * do 2 f_equal.
        destruct (decide (cat ∈ ks)) as [Hin|Hin].
        -- rewrite decide_True by (apply list_elem_of_further, Hin).
           reflexivity.
        -- rewrite decide_False; [reflexivity|].
           rewrite elem_of_cons. intros [->|?]; tauto.
      * intros Hin. apply Hf. rewrite elem_of_cons. intros [->|?]; tauto.
Qed.

Lemma first_occurrences_id_elem (l : list string) (x : string) :
  x ∈ first_occurrences id l <-> x ∈ l.
Proof.
  pose proof (first_occurrences_keys id l x) as H.
  rewrite !map_id in H. exact H.
Qed.

Lemma first_occurrences_id_NoDup (l : list string) :
  NoDup (first_occurrences id l).
Proof.
  pose proof (first_occurrences_NoDup id l) as H.
  rewrite map_id in H. exact H.
Qed.

Lemma filter_type_absent (l : list ClauseRisk.t) (c : string) :
  c ∉ map ClauseRisk.clause_type l ->
  filter (fun r => ClauseRisk.clause_type r = c) l = [].
Proof.
  induction l as [|x l IH]; [reflexivity|].
  simpl. intros [Hne Hnot]%not_elem_of_cons.
  rewrite filter_cons, decide_False by congruence. apply IH, Hnot.
Qed.

Lemma first_occurrences_id_snoc (l : list string) (x : string) :
  first_occurrences id (l ++ [x])
  = first_occurrences id l
    ++ (if decide (x ∈ first_occurrences id l) then [] else [x]).
Proof.
  rewrite first_occurrences_snoc, map_id. unfold id at 2. f_equal.
  destruct (decide (x ∈ l)) as [H|H],
           (decide (x ∈ first_occurrences id l)) as [H'|H'];
    try reflexivity; rewrite first_occurrences_id_elem in H'; tauto.
Qed.

(** The dict built by the grouping loop: one entry per clause type, in
    order of first appearance, holding the clause risks of that type in
    their original order. *)
Lemma group_by_category_spec (l : list ClauseRisk.t) :
  group_by_category l
  = map (fun c => (c, filter (fun r => ClauseRisk.clause_type r = c) l))
        (first_occurrences id (map ClauseRisk.clause_type l)).
Proof.
  induction l as [|r l IH] using rev_ind; [reflexivity|].
  rewrite group_by_category_snoc, IH.
  rewrite group_append_map.
  - replace (map ClauseRisk.clause_type (l ++ [r]))
      with (map ClauseRisk.clause_type l ++ [ClauseRisk.clause_type r])
      by (rewrite map_app; reflexivity).
    rewrite first_occurrences_id_snoc.
    apply map_ext. intros c. rewrite filter_type_snoc. reflexivity.
  - apply first_occurrences_id_NoDup.
  - intros Hnot. rewrite first_occurrences_id_elem in Hnot.
    apply filter_type_absent, Hnot.
Qed.

Lemma _aggregate_by_category_met
    (list_of_set : list string -> list string) (l : list ClauseRisk.t) :
  _aggregate_by_category list_of_set l
  ≡ₚ map (fun c => category_risk_of list_of_set
                     (c, filter (fun r => ClauseRisk.clause_type r = c) l))
         (first_occurrences id (map ClauseRisk.clause_type l)).
Proof.
  unfold _aggregate_by_category.
  rewrite sorted_desc_Permutation, group_by_category_spec, map_map.
  reflexivity.
Qed.

Lemma elem_of_aggregate
    (list_of_set : list string -> list string) (l : list ClauseRisk.t)
    (c : CategoryRisk.t) :
  c ∈ _aggregate_by_category list_of_set l ->
  exists cat,
    cat ∈ map ClauseRisk.clause_type l
    /\ c = category_risk_of list_of_set
             (cat, filter (fun r => ClauseRisk.clause_type r = cat) l).
Proof.
  rewrite _aggregate_by_category_met.
  intros (cat & -> & Hcat)%list_elem_of_fmap.
  exists cat. split; [|reflexivity].
  apply first_occurrences_id_elem, Hcat.
Qed.

Lemma filter_type_nonempty (l : list ClauseRisk.t) (cat : string) :
  cat ∈ map ClauseRisk.clause_type l ->
  filter (fun r => ClauseRisk.clause_type r = cat) l <> [].
Proof.
  intros (r & -> & Hr)%list_elem_of_fmap Hnil.
  assert (Hin : r ∈ filter (fun x => ClauseRisk.clause_type x
                                     = ClauseRisk.clause_type r) l)
    by (apply list_elem_of_filter; auto).
  rewrite Hnil in Hin. inversion Hin.
Qed.

(** X1.  The categories of the aggregation are pairwise different, every
    clause risk's type is one of them, and each category holds exactly the
    clause risks of its type, in their original order, of which there is
    at least one; its display name is the table's, or the raw tag. *)
Theorem X1_categories_partition_clause_risks
    (list_of_set : list string -> list string) (l : list ClauseRisk.t) :
  let cats := _aggregate_by_category list_of_set l in
  NoDup (map CategoryRisk.category cats)
  /\ (forall r, r ∈ l ->
        ClauseRisk.clause_type r ∈ map CategoryRisk.category cats)
  /\ Forall (fun c =>
               CategoryRisk.clauses c
               = filter (fun r => ClauseRisk.clause_type r
                                  = CategoryRisk.category c) l
               /\ CategoryRisk.clauses c <> []
               /\ CategoryRisk.category_display c
                  = default (CategoryRisk.category c)
                      (CATEGORY_DISPLAY_NAMES !! CategoryRisk.category c))
            cats.
Proof.
  intros cats. subst cats.
  assert (Hcats : map CategoryRisk.category (_aggregate_by_category list_of_set l)
                  ≡ₚ first_occurrences id (map ClauseRisk.clause_type l)).
  { rewrite _aggregate_by_category_met, map_map. simpl.
    rewrite map_id. reflexivity. }
  split; [|split].
  - rewrite Hcats. apply first_occurrences_id_NoDup.
  - intros r Hr. rewrite Hcats. apply first_occurrences_id_elem.
    apply list_elem_of_fmap_2, Hr.
  - apply Forall_forall. intros c Hc.
    apply elem_of_aggregate in Hc as (cat & Hcat & ->). simpl.
    split; [reflexivity|]. split; [|reflexivity].
    apply filter_type_nonempty, Hcat.
Qed.

Lemma sum_indicator (ks : list string) (k : string) :
  NoDup ks -> k ∈ ks ->
  sum_list_with (fun c => if decide (k = c) then 1%nat else 0%nat) ks = 1%nat.
Proof.
  induction 1 as [|c ks Hc Hnd IH]; [intros H; inversion H|].
  simpl. intros [->|Hin]%elem_of_cons.
  - rewrite decide_True by reflexivity.
    assert (H0 : sum_list_with (fun c0 => if decide (c = c0) then 1%nat else 0%nat)
                   ks = 0%nat).
    { clear IH Hnd. induction ks as [|x ks IH]; [reflexivity|].
      simpl. apply not_elem_of_cons in Hc as [Hne Hc].
      rewrite decide_False by exact Hne. apply IH, Hc. }
    rewrite H0. reflexivity.
  - rewrite decide_False by (intros ->; tauto). rewrite IH by exact Hin.
    reflexivity.
Qed.

Lemma sum_filter_lengths (l : list ClauseRisk.t) (ks : list string) :
  NoDup ks ->
  (forall r, r ∈ l -> ClauseRisk.clause_type r ∈ ks) ->
  sum_list_with
    (fun c => length (filter (fun r => ClauseRisk.clause_type r = c) l)) ks
  = length l.
Proof.
  intros Hnd. induction l as [|x l IH]; intros Hin.
  - clear. induction ks as [|k ks IHk]; [reflexivity|exact IHk].
  - assert (Hsplit :
      sum_list_with
        (fun c => length (filter (fun r => ClauseRisk.clause_type r = c)
                                 (x :: l))) ks
      = (sum_list_with (fun c => if decide (ClauseRisk.clause_type x = c)
                                 then 1%nat else 0%nat) ks
         + sum_list_with
             (fun c => length (filter (fun r => ClauseRisk.clause_type r = c)
                                      l)) ks)%nat).
    { clear. induction ks as [|k ks IHk]; [reflexivity|].
      simpl. rewrite IHk, filter_cons.
      destruct (decide (ClauseRisk.clause_type x = k)); simpl; lia. }
    rewrite Hsplit, sum_indicator; [|exact Hnd|apply Hin, list_elem_of_here].
    rewrite IH; [reflexivity|].
    intros r Hr. apply Hin, list_elem_of_further, Hr.
Qed.

(** X2.  Every category reports the number of its clauses, which is at
    least one, and the number of those at level high or critical, which is
    no larger; the clause counts of all categories add up to the number of
    clause risks. *)
Theorem X2_category_counts
    (list_of_set : list string -> list string) (l : list ClauseRisk.t) :
  let cats := _aggregate_by_category list_of_set l in
  Forall (fun c =>
            CategoryRisk.clause_count c = length (CategoryRisk.clauses c)
            /\ (1 <= CategoryRisk.clause_count c)%nat
            /\ CategoryRisk.high_risk_clauses c
               = count_if clause_is_high (CategoryRisk.clauses c)
            /\ (CategoryRisk.high_risk_clauses c
                <= CategoryRisk.clause_count c)%nat)
         cats
  /\ sum_list_with CategoryRisk.clause_count cats = length l.
Proof.
  intros cats. subst cats. split.
  - apply Forall_forall. intros c Hc.
    apply elem_of_aggregate in Hc as (cat & Hcat & ->). simpl.
    pose proof (filter_type_nonempty l cat Hcat) as Hne.
    split; [reflexivity|]. split; [|split; [reflexivity|]].
    + destruct (filter _ l); [congruence|simpl; lia].
    + apply count_if_le_length.
  - rewrite _aggregate_by_category_met.
    rewrite <- (sum_filter_lengths l
                  (first_occurrences id (map ClauseRisk.clause_type l))).
    + generalize (first_occurrences id (map ClauseRisk.clause_type l)).
      intros ks. induction ks as [|k ks IH]; [reflexivity|].
      cbn [map sum_list_with]. rewrite IH. reflexivity.
    + apply first_occurrences_id_NoDup.
    + intros r Hr. apply first_occurrences_id_elem, list_elem_of_fmap_2, Hr.
Qed.

(** ** The top issues of a category *)

Lemma elem_of_collected_issues (rs : list ClauseRisk.t) (acc : list string)
    (x : string) :
  x ∈ foldl (fun acc r =>
               match ClauseRisk.violated_regulations r with
               | [] => acc
               | regs => acc ++ take 2 regs
               end) acc rs
  <-> x ∈ acc
      \/ exists r, r ∈ rs /\ x ∈ take 2 (ClauseRisk.violated_regulations r).
Proof.
  revert acc. induction rs as [|r rs IH]; intros acc; cbn [foldl].
  - split; [auto|]. intros [H|(r & Hr & _)]; [exact H|inversion Hr].
  - rewrite IH. clear IH.
    destruct (ClauseRisk.violated_regulations r) as [|v vs] eqn:E.
    + split.
      * intros [H|(r' & Hr' & H)]; [auto|].
        right. exists r'. split; [apply list_elem_of_further, Hr'|exact H].
      * intros [H|(r' & [->|Hr']%elem_of_cons & H)]; [auto| |eauto].
        rewrite E in H. inversion H.
    + rewrite elem_of_app. split.
      * intros [[H|H]|(r' & Hr' & H)]; [auto| |].
        -- right. exists r. split; [apply list_elem_of_here|].
           rewrite E. exact H.
        -- right. exists r'. split; [apply list_elem_of_further, Hr'|exact H].
      * intros [H|(r' & [->|Hr']%elem_of_cons & H)]; [auto| |eauto].
        rewrite E in H. auto.
Qed.

(** X4.  When the iteration over a set yields each of its elements once,
    the top issues of a category are at most five, pairwise different, and
    each is one of the first two violated regulations of one of the three
    highest-scoring clauses of the category. *)
Theorem X4_top_issues_of_category
    (list_of_set : list string -> list string) (l : list ClauseRisk.t) :
  (forall xs, NoDup (list_of_set xs)
              /\ forall x, x ∈ list_of_set xs <-> x ∈ xs) ->
  Forall (fun c =>
            (length (CategoryRisk.top_issues c) <= 5)%nat
            /\ NoDup (CategoryRisk.top_issues c)
            /\ forall x, x ∈ CategoryRisk.top_issues c ->
                 exists r,
                   r ∈ take 3 (sorted_desc ClauseRisk.risk_score
                                 (CategoryRisk.clauses c))
                   /\ x ∈ take 2 (ClauseRisk.violated_regulations r))
         (_aggregate_by_category list_of_set l).
Proof.
  intros Hset. apply Forall_forall. intros c Hc.
  apply elem_of_aggregate in Hc as (cat & _ & ->). simpl.
  unfold top_issues_of. split; [|split].
  - rewrite length_take. lia.
  - eapply sublist_NoDup; [apply Hset|apply sublist_take].
  - intros x Hx.
    eapply elem_of_sublist in Hx; [|apply sublist_take].
    apply Hset, elem_of_collected_issues in Hx as [Hx|Hx];
      [inversion Hx|exact Hx].
Qed.

Lemma X4_top_issues_of_category_witness :
  Forall (fun c =>
            (length (CategoryRisk.top_issues c) <= 5)%nat
            /\ NoDup (CategoryRisk.top_issues c)
            /\ forall x, x ∈ CategoryRisk.top_issues c ->
                 exists r,
                   r ∈ take 3 (sorted_desc ClauseRisk.risk_score
                                 (CategoryRisk.clauses c))
                   /\ x ∈ take 2 (ClauseRisk.violated_regulations r))
         (_aggregate_by_category remove_dups
            [ sample_risk_with "liability" 70 HIGH
                ["GDPR-Art-5"; "GDPR-Art-6"; "SEC-FD"]%string;
              sample_risk_with "liability" 40 MEDIUM ["GDPR-Art-5"%string] ]).
Proof.
  apply (X4_top_issues_of_category remove_dups).
  intros xs. split; [apply NoDup_remove_dups|apply elem_of_remove_dups].
Defined.

(** ** The overall score for every input *)

Lemma clamp_bounds (x lo hi : Q) : lo <= hi -> lo <= clamp x lo hi <= hi.
Proof.
  intros H. unfold clamp. split.
  - apply Q.min_glb; [exact H|apply Q.le_max_l].
  - apply Q.le_min_l.
Qed.

(** X5.  Whatever the clause risks are, the overall score lies between 0
    and 100, and the scoring breakdown is empty exactly when there is no
    clause risk. *)
Theorem X5_overall_score_within_0_100
    (clause_risks : list ClauseRisk.t) (category_risks : list CategoryRisk.t) :
  0 <= fst (_calculate_overall_score clause_risks category_risks) <= 100
  /\ (snd (_calculate_overall_score clause_risks category_risks) = []
      <-> clause_risks = []).
Proof.
  destruct clause_risks as [|r0 rest].
  - simpl. split; [lra|tauto].
  - split.
    + rewrite _calculate_overall_score_raw. apply clamp_bounds. lra.
    + simpl. split; intros H; discriminate.
Qed.

(** ** The report at its edges *)

Lemma report_confidence
    (list_of_set : list string -> list string) (document_id : string)
    (clauses : list ExtractedClause.t) (analyses : list ComplianceAnalysis.t) :
  ContractRiskReport.confidence
    (calculate_risk_report list_of_set document_id clauses analyses)
  = match _calculate_clause_risks clauses analyses with
    | [] => 0
    | _ => py_sum (map ClauseRisk.confidence
                     (_calculate_clause_risks clauses analyses))
           / Qnat (length (_calculate_clause_risks clauses analyses))
    end.
Proof.
  unfold calculate_risk_report.
  destruct (_calculate_overall_score _ _). reflexivity.
Qed.

Lemma report_scoring_breakdown
    (list_of_set : list string -> list string) (document_id : string)
    (clauses : list ExtractedClause.t) (analyses : list ComplianceAnalysis.t) :
  ContractRiskReport.scoring_breakdown
    (calculate_risk_report list_of_set document_id clauses analyses)
  = snd (_calculate_overall_score
           (_calculate_clause_risks clauses analyses)
           (_aggregate_by_category list_of_set
              (_calculate_clause_risks clauses analyses))).
Proof.
  unfold calculate_risk_report.
  destruct (_calculate_overall_score _ _). reflexivity.
Qed.

(** X7.  With no clause the report has overall score 0 at level minimal,
    zero counts, no category, no top risk, no clause risk, an empty
    breakdown and confidence 0, while the citations of the analyses are
    still collected; its conversion to the API schema succeeds, with empty
    breakdown dicts and an empty formula.  A report with at least one
    clause never has an empty breakdown. *)
Theorem X7_report_of_no_clauses
    (analyzed_at : Z) (summary : string)
    (list_of_set : list string -> list string) (document_id : string)
    (clauses : list ExtractedClause.t) (analyses : list ComplianceAnalysis.t) :
  let empty := calculate_risk_report list_of_set document_id [] analyses in
  empty
  = ContractRiskReport.mk document_id 0 MINIMAL 0 0 0 0 [] [] []
      (_collect_citations analyses) 0 []
  /\ (exists schema,
        convert_risk_report_to_schema analyzed_at summary empty = Some schema
        /\ RiskReportSchema.scoring_breakdown schema
           = ScoringBreakdownSchema.mk [] [] [] ""
        /\ RiskReportSchema.overall_risk_level schema = RiskLevelEnum.MINIMAL)
  /\ (ContractRiskReport.scoring_breakdown
        (calculate_risk_report list_of_set document_id clauses analyses) = []
      <-> clauses = []).
Proof.
  intros empty. subst empty. split; [reflexivity|]. split.
  - eexists. split; [vm_compute; reflexivity|]. split; reflexivity.
  - rewrite report_scoring_breakdown.
    destruct clauses as [|c cs]; [tauto|].
    simpl. split; intros H; discriminate.
Qed.

Lemma _calculate_clause_risks_all_missing clauses analyses :
  Forall (fun c => ExtractedClause.clause_id c
                   ∉ map ComplianceAnalysis.clause_id analyses) clauses ->
  _calculate_clause_risks clauses analyses = map default_clause_risk clauses.
Proof.
  intros H. unfold _calculate_clause_risks. apply map_ext_in.
  intros c Hc%list_elem_of_In. rewrite Forall_forall in H.
  unfold clause_risk_of. rewrite analysis_map_lookup_None by auto.
  reflexivity.
Qed.

(** A list that is already in descending order is left as it is. *)
Lemma sorted_desc_already_sorted {A} (key : A -> Q) (l : list A) :
  StronglySorted (desc key) l -> sorted_desc key l = l.
Proof.
  induction 1 as [|x l Hl IH Hx]; [reflexivity|].
  simpl. rewrite IH. destruct l as [|y l']; [reflexivity|].
  simpl. inversion Hx as [|? ? Hy _]; subst. unfold desc in Hy.
  apply Qltb_false in Hy. rewrite Hy. reflexivity.
Qed.

Lemma constant_key_sorted {A} (key : A -> Q) (k : Q) (l : list A) :
  Forall (fun x => key x == k) l -> StronglySorted (desc key) l.
Proof.
  induction 1 as [|x l Hx Hl IH]; constructor; [exact IH|].
  eapply Forall_impl; [exact Hl|]. intros y Hy. unfold desc.
  rewrite Hx, Hy. apply Qle_refl.
Qed.

Lemma count_if_none {A} (p : A -> bool) (l : list A) :
  Forall (fun x => p x = false) l -> count_if p l = 0%nat.
Proof.
  unfold count_if. induction 1 as [|x l Hx Hl IH]; [reflexivity|].
  simpl. rewrite Hx. exact IH.
Qed.

Lemma count_if_every {A} (p : A -> bool) (l : list A) :
  Forall (fun x => p x = true) l -> count_if p l = length l.
Proof.
  unfold count_if. induction 1 as [|x l Hx Hl IH]; [reflexivity|].
  simpl. rewrite Hx. simpl. rewrite IH. reflexivity.
Qed.

Lemma py_sum_zero (xs : list Q) : Forall (fun x => x == 0) xs -> py_sum xs == 0.
Proof.
  induction 1 as [|x xs Hx Hxs IH]; [reflexivity|].
  rewrite py_sum_cons, Hx, IH. reflexivity.
Qed.

(** X8.  When no clause has an analysis, every clause risk is the default
    one, the top risks are the first five clauses in their original order,
    all clauses are counted as medium, and the confidence of the report
    is 0. *)
Theorem X8_report_without_any_analysis
    (list_of_set : list string -> list string) (document_id : string)
    (clauses : list ExtractedClause.t) (analyses : list ComplianceAnalysis.t) :
  clauses <> [] ->
  Forall (fun c => ExtractedClause.clause_id c
                   ∉ map ComplianceAnalysis.clause_id analyses) clauses ->
  let report := calculate_risk_report list_of_set document_id clauses analyses in
  ContractRiskReport.all_clause_risks report = map default_clause_risk clauses
  /\ ContractRiskReport.top_risks report
     = take 5 (map default_clause_risk clauses)
  /\ ContractRiskReport.high_risk_clause_count report = 0%nat
  /\ ContractRiskReport.medium_risk_clause_count report = length clauses
  /\ ContractRiskReport.low_risk_clause_count report = 0%nat
  /\ ContractRiskReport.confidence report == 0.
Proof.
  intros Hne Hmiss report. subst report.
  pose proof (_calculate_clause_risks_all_missing _ _ Hmiss) as Hrisks.
  assert (H50 : Forall (fun r => ClauseRisk.risk_score r == 50)
                  (map default_clause_risk clauses)).
  { apply Forall_fmap, Forall_forall. intros c _. reflexivity. }
  assert (Hhigh : count_if clause_is_high (map default_clause_risk clauses)
                  = 0%nat).
  { apply count_if_none, Forall_fmap, Forall_forall. intros c _. reflexivity. }
  rewrite report_all_clause_risks, report_top_risks.
  destruct (report_counts list_of_set document_id clauses analyses)
    as (_ & -> & -> & ->).
  rewrite report_confidence, Hrisks.
  split; [reflexivity|]. split.
  { rewrite sorted_desc_already_sorted; [reflexivity|].
    eapply constant_key_sorted, H50. }
  split; [exact Hhigh|]. split.
  { rewrite count_if_every, length_map; [reflexivity|].
    apply Forall_fmap, Forall_forall. intros c _. reflexivity. }
  split.
  { apply count_if_none, Forall_fmap, Forall_forall. intros c _. reflexivity. }
  destruct clauses as [|c cs]; [congruence|]. simpl map.
  cbv beta iota. rewrite py_sum_zero; [reflexivity|].
  constructor; [reflexivity|].
  apply Forall_fmap, Forall_fmap, Forall_forall. intros x _. reflexivity.
Qed.

Lemma X8_report_without_any_analysis_witness :
  let report :=
    calculate_risk_report id "doc"
      [sample_clause "c1" LIABILITY; sample_clause "c2" NOTICES]
      [sample_analysis "c9" 90 1 []] in
  ContractRiskReport.medium_risk_clause_count report = 2%nat
  /\ ContractRiskReport.confidence report == 0.
Proof.
  intros report.
  destruct (X8_report_without_any_analysis id "doc"
              [sample_clause "c1" LIABILITY; sample_clause "c2" NOTICES]
              [sample_analysis "c9" 90 1 []])
    as (_ & _ & _ & Hmedium & _ & Hconf).
  - discriminate.
  - repeat constructor; simpl;
      intros [H|H]%elem_of_cons; (discriminate || inversion H).
  - split; assumption.
Defined.

(** ** Which analysis a clause gets *)

Lemma analysis_map_fold_agree (l : list ComplianceAnalysis.t)
    (m1 m2 : gmap string ComplianceAnalysis.t) (k : string) :
  m1 !! k = m2 !! k ->
  foldl (fun m a => <[ComplianceAnalysis.clause_id a := a]> m) m1 l !! k
  = foldl (fun m a => <[ComplianceAnalysis.clause_id a := a]> m) m2 l !! k.
Proof.
  revert m1 m2. induction l as [|b l IH]; intros m1 m2 H; simpl; [exact H|].
  apply IH.
  destruct (decide (ComplianceAnalysis.clause_id b = k)) as [->|Hne].
  - rewrite !lookup_insert_eq. reflexivity.
  - rewrite !lookup_insert_ne by exact Hne. exact H.
Qed.

Lemma analysis_map_fold_keep (l : list ComplianceAnalysis.t)
    (m : gmap string ComplianceAnalysis.t) (k : string) :
  k ∉ map ComplianceAnalysis.clause_id l ->
  foldl (fun m a => <[ComplianceAnalysis.clause_id a := a]> m) m l !! k
  = m !! k.
Proof.
  revert m. induction l as [|b l IH]; intros m Hk; simpl; [reflexivity|].
  simpl in Hk. apply not_elem_of_cons in Hk as [Hne Hk].
  rewrite IH by exact Hk. apply lookup_insert_ne. congruence.
Qed.

Lemma analysis_map_fold_elem (l : list ComplianceAnalysis.t)
    (m : gmap string ComplianceAnalysis.t) (k : string)
    (a : ComplianceAnalysis.t) :
  foldl (fun m a => <[ComplianceAnalysis.clause_id a := a]> m) m l !! k
  = Some a ->
  (a ∈ l /\ ComplianceAnalysis.clause_id a = k) \/ m !! k = Some a.
Proof.
  revert m. induction l as [|b l IH]; intros m H; simpl in H; [auto|].
  apply IH in H as [[H Hk]|H].
  - left. split; [apply list_elem_of_further, H|exact Hk].
  - destruct (decide (ComplianceAnalysis.clause_id b = k)) as [<-|Hne].
    + rewrite lookup_insert_eq in H. injection H as <-.
      left. split; [apply list_elem_of_here|reflexivity].
    + rewrite lookup_insert_ne in H by exact Hne. auto.
Qed.

Lemma analysis_map_lookup_elem (l : list ComplianceAnalysis.t) (k : string)
    (a : ComplianceAnalysis.t) :
  analysis_map l !! k = Some a ->
  a ∈ l /\ ComplianceAnalysis.clause_id a = k.
Proof.
  intros [H|H]%analysis_map_fold_elem; [exact H|].
  rewrite lookup_empty in H. discriminate.
Qed.

(** X10.  Of several analyses with the identifier of a clause the last one
    in the list is the one the clause is scored with. *)
Theorem X10_last_analysis_of_a_clause_wins
    (clauses : list ExtractedClause.t)
    (before after : list ComplianceAnalysis.t) (a : ComplianceAnalysis.t)
    (i : nat) (c : ExtractedClause.t) :
  clauses !! i = Some c ->
  ComplianceAnalysis.clause_id a = ExtractedClause.clause_id c ->
  ExtractedClause.clause_id c ∉ map ComplianceAnalysis.clause_id after ->
  _calculate_clause_risks clauses (before ++ a :: after) !! i
  = Some (analysed_clause_risk c a).
Proof.
  intros Hi Hid Hafter. unfold _calculate_clause_risks.
  change (map ?f ?l) with (f <$> l).
  rewrite list_lookup_fmap, Hi. simpl. f_equal.
  unfold clause_risk_of, analysis_map. rewrite foldl_app. simpl.
  rewrite analysis_map_fold_keep by exact Hafter.
  rewrite Hid, lookup_insert_eq. reflexivity.
Qed.

Lemma X10_last_analysis_of_a_clause_wins_witness :
  _calculate_clause_risks [sample_clause "c1" PAYMENT_TERMS]
    ([sample_analysis "c1" 10 1 []]
     ++ sample_analysis "c1" 70 1 [] :: [sample_analysis "c2" 90 1 []])
    !! 0%nat
  = Some (analysed_clause_risk (sample_clause "c1" PAYMENT_TERMS)
            (sample_analysis "c1" 70 1 [])).
Proof.
  apply (X10_last_analysis_of_a_clause_wins
           [sample_clause "c1" PAYMENT_TERMS]
           [sample_analysis "c1" 10 1 []] [sample_analysis "c2" 90 1 []]).
  - reflexivity.
  - reflexivity.
  - simpl. intros [H|H]%elem_of_cons; [discriminate|inversion H].
Defined.

(** X11.  An analysis whose clause identifier is the identifier of no
    clause changes nothing in the report but, possibly, the citations. *)
Theorem X11_unmatched_analysis_only_adds_citations
    (list_of_set : list string -> list string) (document_id : string)
    (clauses : list ExtractedClause.t)
    (before after : list ComplianceAnalysis.t) (b : ComplianceAnalysis.t) :
  ComplianceAnalysis.clause_id b ∉ map ExtractedClause.clause_id clauses ->
  let with_b :=
    calculate_risk_report list_of_set document_id clauses
                          (before ++ b :: after) in
  let without :=
    calculate_risk_report list_of_set document_id clauses (before ++ after) in
  with_b
  = ContractRiskReport.mk
      (ContractRiskReport.document_id without)
      (ContractRiskReport.overall_risk_score without)
      (ContractRiskReport.overall_risk_level without)
      (ContractRiskReport.total_clauses_analyzed without)
      (ContractRiskReport.high_risk_clause_count without)
      (ContractRiskReport.medium_risk_clause_count without)
      (ContractRiskReport.low_risk_clause_count without)
      (ContractRiskReport.category_risks without)
      (ContractRiskReport.top_risks without)
      (ContractRiskReport.all_clause_risks without)
      (_collect_citations (before ++ b :: after))
      (ContractRiskReport.confidence without)
      (ContractRiskReport.scoring_breakdown without).
Proof.
  intros Hb with_b without. subst with_b without.
  assert (Hrisks : _calculate_clause_risks clauses (before ++ b :: after)
                   = _calculate_clause_risks clauses (before ++ after)).
  { unfold _calculate_clause_risks. apply map_ext_in.
    intros c Hc%list_elem_of_In. unfold clause_risk_of.
    assert (Hk : analysis_map (before ++ b :: after)
                   !! ExtractedClause.clause_id c
                 = analysis_map (before ++ after)
                   !! ExtractedClause.clause_id c).
    { unfold analysis_map. rewrite !foldl_app. simpl.
      apply analysis_map_fold_agree, lookup_insert_ne.
      intros He. apply Hb. rewrite He. apply list_elem_of_fmap_2, Hc. }
    rewrite Hk. reflexivity. }
  unfold calculate_risk_report. rewrite Hrisks.
  destruct (_calculate_overall_score _ _). reflexivity.
Qed.

Lemma X11_unmatched_analysis_only_adds_citations_witness :
  ContractRiskReport.overall_risk_score
    (calculate_risk_report id "doc" [sample_clause "c1" LIABILITY]
       ([sample_analysis "c1" 40 1 []]
        ++ sample_analysis "c7" 99 1 [sample_regulation "SEC-FD" "FD"] :: []))
  = ContractRiskReport.overall_risk_score
      (calculate_risk_report id "doc" [sample_clause "c1" LIABILITY]
         ([sample_analysis "c1" 40 1 []] ++ [])).
Proof.
  rewrite (X11_unmatched_analysis_only_adds_citations id "doc"
             [sample_clause "c1" LIABILITY] [sample_analysis "c1" 40 1 []] []
             (sample_analysis "c7" 99 1 [sample_regulation "SEC-FD" "FD"])).
  - reflexivity.
  - simpl. intros [H|H]%elem_of_cons; [discriminate|inversion H].
Defined.

(** ** The top risks against the rest *)

(** X12.  The top risks are min(5, number of clauses) clause risks in
    descending order of score, and no clause risk left out of them has a
    higher score than one of them. *)
Theorem X12_top_risks_dominate_the_rest
    (list_of_set : list string -> list string) (document_id : string)
    (clauses : list ExtractedClause.t) (analyses : list ComplianceAnalysis.t) :
  let report := calculate_risk_report list_of_set document_id clauses analyses in
  let top := ContractRiskReport.top_risks report in
  length top = Nat.min 5 (length clauses)
  /\ StronglySorted (desc ClauseRisk.risk_score) top
  /\ exists rest,
       ContractRiskReport.all_clause_risks report ≡ₚ top ++ rest
       /\ forall t r, t ∈ top -> r ∈ rest ->
            ClauseRisk.risk_score r <= ClauseRisk.risk_score t.
Proof.
  intros report top. subst top report.
  rewrite report_top_risks, report_all_clause_risks.
  set (risks := _calculate_clause_risks clauses analyses).
  pose proof (sorted_desc_sorted ClauseRisk.risk_score risks) as Hsorted.
  pose proof (sorted_desc_Permutation ClauseRisk.risk_score risks) as Hperm.
  assert (Hlen : length (sorted_desc ClauseRisk.risk_score risks)
                 = length clauses).
  { rewrite Hperm. apply length_map. }
  rewrite <- (take_drop 5 (sorted_desc ClauseRisk.risk_score risks))
    in Hsorted, Hperm.
  split; [|split].
  - rewrite length_take, Hlen. reflexivity.
  - eapply StronglySorted_app_1_l, Hsorted.
  - exists (drop 5 (sorted_desc ClauseRisk.risk_score risks)).
    split; [symmetry; exact Hperm|].
    intros t r Ht Hr.
    apply (StronglySorted_app_1_elem_of _ _ _ _ _ Hsorted Ht Hr).
Qed.

(** ** Reports of analyses within their ranges *)

Lemma py_sum_bounds (lo hi : Q) (xs : list Q) :
  Forall (fun x => lo <= x <= hi) xs ->
  lo * Qnat (length xs) <= py_sum xs <= hi * Qnat (length xs).
Proof.
  induction 1 as [|x xs Hx Hxs IH].
  - change (lo * 0 <= 0 <= hi * 0). lra.
  - rewrite py_sum_cons. simpl length. rewrite Qnat_S. lra.
Qed.

Lemma _calculate_clause_risks_confidence_range clauses analyses :
  Forall (fun a => 0 <= ComplianceAnalysis.confidence a <= 1) analyses ->
  Forall (fun r => 0 <= ClauseRisk.confidence r <= 1)
         (_calculate_clause_risks clauses analyses).
Proof.
  intros Hall. unfold _calculate_clause_risks.
  apply Forall_fmap, Forall_forall. intros c _. simpl. unfold clause_risk_of.
  destruct (analysis_map analyses !! ExtractedClause.clause_id c) as [a|] eqn:E.
  - apply analysis_map_lookup_elem in E as [Ha _].
    rewrite Forall_forall in Hall. apply (Hall a Ha).
  - simpl. lra.
Qed.

Lemma _calculate_clause_risks_score_range clauses analyses :
  Forall (fun a => 0 <= ComplianceAnalysis.risk_score a <= 100
                   /\ 0 <= ComplianceAnalysis.confidence a <= 1) analyses ->
  Forall (fun r => 0 <= ClauseRisk.risk_score r <= 100)
         (_calculate_clause_risks clauses analyses).
Proof.
  intros Hall. unfold _calculate_clause_risks.
  apply Forall_fmap, Forall_forall. intros c _. simpl. unfold clause_risk_of.
  destruct (analysis_map analyses !! ExtractedClause.clause_id c) as [a|] eqn:E.
  - apply analysis_map_lookup_elem in E as [Ha _].
    rewrite Forall_forall in Hall. destruct (Hall a Ha) as [Hs Hc].
    apply analysed_score_in_range; assumption.
  - simpl. lra.
Qed.

Lemma mean_confidence_range (risks : list ClauseRisk.t) :
  Forall (fun r => 0 <= ClauseRisk.confidence r <= 1) risks ->
  0 <= match risks with
       | [] => 0
       | _ => py_sum (map ClauseRisk.confidence risks) / Qnat (length risks)
       end <= 1.
Proof.
  intros HF.
  assert (HF' : Forall (fun x => 0 <= x <= 1) (map ClauseRisk.confidence risks))
    by (apply Forall_fmap; exact HF).
  apply py_sum_bounds in HF'. rewrite length_map in HF'.
  destruct risks as [|r rs]; [lra|].
  pose proof (Qnat_S_pos (length rs)) as Hpos.
  change (Qnat (S (length rs))) with (Qnat (length (r :: rs))) in Hpos.
  split.
  - apply Qle_shift_div_l; [exact Hpos|lra].
  - apply Qle_shift_div_r; [exact Hpos|lra].
Qed.

Lemma _calculate_overall_score_range l cats :
  0 <= fst (_calculate_overall_score l cats) <= 100.
Proof.
  destruct l as [|r0 rest]; [simpl; lra|].
  rewrite _calculate_overall_score_raw. apply clamp_bounds. lra.
Qed.

(** X13.  The confidence of the report is the mean of the clause risks'
    confidences, a clause without analysis counting as 0; when every
    analysis has a confidence between 0 and 1, so has the report. *)
Theorem X13_report_confidence_within_0_1
    (list_of_set : list string -> list string) (document_id : string)
    (clauses : list ExtractedClause.t) (analyses : list ComplianceAnalysis.t) :
  Forall (fun a => 0 <= ComplianceAnalysis.confidence a <= 1) analyses ->
  let report := calculate_risk_report list_of_set document_id clauses analyses in
  ContractRiskReport.confidence report
  = match ContractRiskReport.all_clause_risks report with
    | [] => 0
    | risks => py_sum (map ClauseRisk.confidence risks) / Qnat (length risks)
    end
  /\ 0 <= ContractRiskReport.confidence report <= 1.
Proof.
  intros Hall report. subst report.
  rewrite report_confidence, report_all_clause_risks.
  split.
  - destruct (_calculate_clause_risks clauses analyses); reflexivity.
  - apply mean_confidence_range.
    apply _calculate_clause_risks_confidence_range, Hall.
Qed.

Lemma X13_report_confidence_within_0_1_witness :
  0 <= ContractRiskReport.confidence
         (calculate_risk_report id "doc"
            [sample_clause "c1" LIABILITY; sample_clause "c2" NOTICES]
            [sample_analysis "c1" 40 (9 # 10) []])
    <= 1.
Proof.
  apply (X13_report_confidence_within_0_1 id "doc").
  repeat constructor; simpl; lra.
Defined.

(** X14.  When every analysis has a risk score between 0 and 100 and a
    confidence between 0 and 1, every clause risk of the report has a
    score between 0 and 100 and a confidence between 0 and 1, and so has
    every top risk. *)
Theorem X14_report_scores_of_ranged_analyses
    (list_of_set : list string -> list string) (document_id : string)
    (clauses : list ExtractedClause.t) (analyses : list ComplianceAnalysis.t) :
  Forall (fun a => 0 <= ComplianceAnalysis.risk_score a <= 100
                   /\ 0 <= ComplianceAnalysis.confidence a <= 1) analyses ->
  let report := calculate_risk_report list_of_set document_id clauses analyses in
  let ranged r := 0 <= ClauseRisk.risk_score r <= 100
                  /\ 0 <= ClauseRisk.confidence r <= 1 in
  Forall ranged (ContractRiskReport.all_clause_risks report)
  /\ Forall ranged (ContractRiskReport.top_risks report).
Proof.
  intros Hall report ranged. subst report ranged.
  rewrite report_all_clause_risks, report_top_risks.
  pose proof (_calculate_clause_risks_score_range clauses _ Hall) as Hscores.
  assert (Hconf : Forall (fun r => 0 <= ClauseRisk.confidence r <= 1)
                    (_calculate_clause_risks clauses analyses)).
  { apply _calculate_clause_risks_confidence_range.
    eapply Forall_impl; [exact Hall|]. simpl. tauto. }
  assert (Hboth : Forall (fun r => 0 <= ClauseRisk.risk_score r <= 100
                                   /\ 0 <= ClauseRisk.confidence r <= 1)
                    (_calculate_clause_risks clauses analyses)).
  { rewrite Forall_forall in *. auto. }
  split; [exact Hboth|].
  apply Forall_take. rewrite sorted_desc_Permutation. exact Hboth.
Qed.

Lemma X14_report_scores_of_ranged_analyses_witness :
  Forall (fun r => 0 <= ClauseRisk.risk_score r <= 100
                   /\ 0 <= ClauseRisk.confidence r <= 1)
    (ContractRiskReport.top_risks
       (calculate_risk_report id "doc"
          [sample_clause "c1" DATA_PROTECTION; sample_clause "c2" NOTICES]
          [sample_analysis "c1" 100 1 []; sample_analysis "c2" 35 (1 # 2) []])).
Proof.
  apply (X14_report_scores_of_ranged_analyses id "doc"
           [sample_clause "c1" DATA_PROTECTION; sample_clause "c2" NOTICES]
           [sample_analysis "c1" 100 1 []; sample_analysis "c2" 35 (1 # 2) []]).
  repeat constructor; simpl; lra.
Defined.

(** * Failed analyses in the engine *)

Lemma clause_weight_ge_half (k : string) : 1 # 2 <= clause_weight k.
Proof.
  unfold clause_weight.
  destruct (CLAUSE_TYPE_WEIGHTS !! k) as [w|] eqn:E; simpl; [|lra].
  apply elem_of_list_to_map_2 in E.
  assert (HF : List.Forall (fun kv => 1 # 2 <= snd kv) CLAUSE_TYPE_WEIGHTS_items).
  { repeat constructor; simpl; lra. }
  rewrite List.Forall_forall in HF.
  apply (HF (k, w)). apply list_elem_of_In. exact E.
Qed.

Lemma clause_weight_le_3_2 (k : string) : clause_weight k <= 3 # 2.
Proof.
  unfold clause_weight.
  destruct (CLAUSE_TYPE_WEIGHTS !! k) as [w|] eqn:E; simpl; [|lra].
  apply elem_of_list_to_map_2 in E.
  assert (HF : List.Forall (fun kv => snd kv <= 3 # 2) CLAUSE_TYPE_WEIGHTS_items).
  { repeat constructor; simpl; lra. }
  rewrite List.Forall_forall in HF.
  apply (HF (k, w)). apply list_elem_of_In. exact E.
Qed.

(** X15.  A clause whose analysis failed upstream (risk score 75, stated
    level "high", confidence 0) gets the clause risk score
    min(100, 75 * weight) / 2, which lies between 18.75 and 50: such a
    clause is never counted as high or critical. *)
Theorem X15_failed_analysis_never_high
    (clauses : list ExtractedClause.t) (analyses : list ComplianceAnalysis.t)
    (i : nat) (c : ExtractedClause.t) (error : string)
    (a : ComplianceAnalysis.t) :
  clauses !! i = Some c ->
  a = _create_error_analysis c error \/ a = analyze_clauses_failure c error ->
  analysis_map analyses !! ExtractedClause.clause_id c = Some a ->
  exists r,
    _calculate_clause_risks clauses analyses !! i = Some r
    /\ ComplianceAnalysis.risk_level a = "high"%string
    /\ ClauseRisk.risk_score r
       == py_min 100
            (75 * clause_weight (ClauseType_value (ExtractedClause.clause_type c)))
          * (1 # 2)
    /\ 75 # 4 <= ClauseRisk.risk_score r <= 50
    /\ clause_is_high r = false
    /\ ClauseRisk.confidence r = 0.
Proof.
  intros Hi Ha Hlookup. exists (analysed_clause_risk c a).
  split.
  { unfold _calculate_clause_risks. change (map ?f ?l) with (f <$> l).
    rewrite list_lookup_fmap, Hi. simpl. f_equal.
    unfold clause_risk_of. rewrite Hlookup. reflexivity. }
  set (w := clause_weight (ClauseType_value (ExtractedClause.clause_type c))).
  pose proof (clause_weight_ge_half
                (ClauseType_value (ExtractedClause.clause_type c))) as Hlo.
  pose proof (clause_weight_le_3_2
                (ClauseType_value (ExtractedClause.clause_type c))) as Hhi.
  fold w in Hlo, Hhi.
  assert (Hscore : ClauseRisk.risk_score (analysed_clause_risk c a)
                   == py_min 100 (75 * w) * (1 # 2)).
  { destruct Ha as [-> | ->]; simpl; fold w; ring. }
  assert (Hrange : 75 # 4 <= ClauseRisk.risk_score (analysed_clause_risk c a)
                   <= 50).
  { rewrite Hscore. unfold py_min. case_Qltb (75 * w) 100; lra. }
  split; [destruct Ha as [-> | ->]; reflexivity|].
  split; [exact Hscore|]. split; [exact Hrange|]. split.
  - unfold clause_is_high.
    change (ClauseRisk.risk_level (analysed_clause_risk c a))
      with (_score_to_level (ClauseRisk.risk_score (analysed_clause_risk c a))).
    destruct (is_high_risk _) eqn:E; [|reflexivity].
    apply is_high_iff_score in E. lra.
  - destruct Ha as [-> | ->]; reflexivity.
Qed.

Lemma X15_failed_analysis_never_high_witness :
  exists r,
    _calculate_clause_risks [sample_clause "c1" DATA_PROTECTION]
      [_create_error_analysis (sample_clause "c1" DATA_PROTECTION) "timeout"]
      !! 0%nat = Some r
    /\ ClauseRisk.risk_score r == 50
    /\ clause_is_high r = false.
Proof.
  destruct (X15_failed_analysis_never_high
              [sample_clause "c1" DATA_PROTECTION]
              [_create_error_analysis (sample_clause "c1" DATA_PROTECTION)
                 "timeout"]
              0 (sample_clause "c1" DATA_PROTECTION) "timeout"
              (_create_error_analysis (sample_clause "c1" DATA_PROTECTION)
                 "timeout"))
    as (r & Hr & _ & Hscore & _ & Hhigh & _).
  - reflexivity.
  - left. reflexivity.
  - vm_compute. reflexivity.
  - exists r. split; [exact Hr|]. split; [|exact Hhigh].
    rewrite Hscore. vm_compute. reflexivity.
Defined.

(** * The conversion of the report to the API schema *)

Lemma field_ge_le_Some (lo hi x : Q) :
  is_Some (field_ge_le lo hi x) <-> lo <= x <= hi.
Proof.
  unfold field_ge_le.
  case_Qle lo x; case_Qle x hi; simpl; split;
    intros H; try (eexists; reflexivity); try lra;
    destruct H as [? H]; discriminate.
Qed.

Lemma field_ge_le_id (lo hi x y : Q) : field_ge_le lo hi x = Some y -> y = x.
Proof.
  unfold field_ge_le. destruct (_ && _); [|discriminate]. congruence.
Qed.

Lemma field_max_length_preview (s : text) :
  field_max_length 500 (take 500 s) = Some (take 500 s).
Proof.
  unfold field_max_length.
  assert (H : (length (take 500 s) <= 500)%nat) by (rewrite length_take; lia).
  apply Nat.leb_le in H. rewrite H. reflexivity.
Qed.

Lemma RiskLevelEnum_of_value (l : RiskLevel) :
  is_Some (RiskLevelEnum.of_value (RiskLevel_value l)).
Proof. destruct l; vm_compute; eexists; reflexivity. Qed.

Lemma ClauseTypeEnum_of_value (t : ClauseType) :
  is_Some (ClauseTypeEnum.of_value (ClauseType_value t)).
Proof. destruct t; vm_compute; eexists; reflexivity. Qed.

Lemma clause_risk_to_schema_is_Some (r : ClauseRisk.t) :
  is_Some (clause_risk_to_schema r)
  <-> is_Some (ClauseTypeEnum.of_value (ClauseRisk.clause_type r))
      /\ 0 <= ClauseRisk.risk_score r <= 100
      /\ 0 <= ClauseRisk.confidence r <= 1.
Proof.
  unfold clause_risk_to_schema.
  destruct (RiskLevelEnum_of_value (ClauseRisk.risk_level r)) as [lvl ->].
  rewrite field_max_length_preview. simpl.
  rewrite <- !field_ge_le_Some.
  destruct (ClauseTypeEnum.of_value _); simpl;
    destruct (field_ge_le 0 100 _); simpl;
    destruct (field_ge_le 0 1 _); simpl;
    split; intros H; repeat split; try (eexists; reflexivity);
    try tauto; destruct H as [? ?]; try discriminate;
    repeat match goal with
           | H : _ /\ _ |- _ => destruct H
           | H : is_Some None |- _ => destruct H; discriminate
           end.
Qed.

Lemma category_risk_to_schema_is_Some (c : CategoryRisk.t) :
  is_Some (category_risk_to_schema c) <-> 0 <= CategoryRisk.risk_score c <= 100.
Proof.
  unfold category_risk_to_schema.
  destruct (RiskLevelEnum_of_value (CategoryRisk.risk_level c)) as [lvl ->].
  simpl. rewrite <- field_ge_le_Some.
  destruct (field_ge_le 0 100 _); simpl; split; intros [? H];
    try discriminate; eexists; reflexivity.
Qed.

Lemma engine_breakdown_converts l cats :
  exists wa mp hd f,
    breakdown_numbers "weighted_average" (snd (_calculate_overall_score l cats))
    = Some wa
    /\ breakdown_numbers "max_risk_penalty"
         (snd (_calculate_overall_score l cats)) = Some mp
    /\ breakdown_numbers "high_risk_density"
         (snd (_calculate_overall_score l cats)) = Some hd
    /\ breakdown_text "formula" (snd (_calculate_overall_score l cats))
       = Some f.
Proof.
  destruct l as [|r0 rest]; do 4 eexists; repeat split; reflexivity.
Qed.

Lemma engine_clause_type_valid clauses analyses :
  Forall (fun r => is_Some (ClauseTypeEnum.of_value (ClauseRisk.clause_type r)))
         (_calculate_clause_risks clauses analyses).
Proof.
  unfold _calculate_clause_risks. apply Forall_fmap, Forall_forall.
  intros c _. simpl. unfold clause_risk_of.
  destruct (analysis_map analyses !! ExtractedClause.clause_id c); simpl;
    apply ClauseTypeEnum_of_value.
Qed.

Lemma top_risks_subset {P : ClauseRisk.t -> Prop} (l : list ClauseRisk.t) :
  Forall P l -> Forall P (take 5 (sorted_desc ClauseRisk.risk_score l)).
Proof.
  intros H. apply Forall_take. rewrite sorted_desc_Permutation. exact H.
Qed.

Lemma convert_risk_report_to_schema_Some
    (analyzed_at : Z) (summary : string) (report : ContractRiskReport.t)
    (schema : RiskReportSchema.t) :
  convert_risk_report_to_schema analyzed_at summary report = Some schema
  <-> exists high_risk_clauses category_risks wa mp hd f level,
        mapM clause_risk_to_schema (ContractRiskReport.top_risks report)
        = Some high_risk_clauses
        /\ mapM category_risk_to_schema
             (ContractRiskReport.category_risks report) = Some category_risks
        /\ breakdown_numbers "weighted_average"
             (ContractRiskReport.scoring_breakdown report) = Some wa
        /\ breakdown_numbers "max_risk_penalty"
             (ContractRiskReport.scoring_breakdown report) = Some mp
        /\ breakdown_numbers "high_risk_density"
             (ContractRiskReport.scoring_breakdown report) = Some hd
        /\ breakdown_text "formula"
             (ContractRiskReport.scoring_breakdown report) = Some f
        /\ RiskLevelEnum.of_value
             (RiskLevel_value (ContractRiskReport.overall_risk_level report))
           = Some level
        /\ 0 <= ContractRiskReport.overall_risk_score report <= 100
        /\ 0 <= ContractRiskReport.confidence report <= 1
        /\ schema
           = RiskReportSchema.mk
               (ContractRiskReport.document_id report)
               analyzed_at
               (ContractRiskReport.overall_risk_score report)
               level
               (ContractRiskReport.total_clauses_analyzed report)
               (ContractRiskReport.high_risk_clause_count report)
               (ContractRiskReport.medium_risk_clause_count report)
               (ContractRiskReport.low_risk_clause_count report)
               category_risks
               high_risk_clauses
               summary
               (map citation_to_schema (ContractRiskReport.citations report))
               (ContractRiskReport.confidence report)
               (ScoringBreakdownSchema.mk wa mp hd f).
Proof.
  unfold convert_risk_report_to_schema. split.
  - intros H.
    apply bind_Some in H as (hrc & Hhrc & H).
    apply bind_Some in H as (cr & Hcr & H).
    apply bind_Some in H as (wa & Hwa & H).
    apply bind_Some in H as (mp & Hmp & H).
    apply bind_Some in H as (hd & Hhd & H).
    apply bind_Some in H as (f & Hf & H).
    apply bind_Some in H as (lvl & Hlvl & H).
    apply bind_Some in H as (o & Ho & H).
    apply bind_Some in H as (cf & Hcf & H).
    injection H as <-.
    exists hrc, cr, wa, mp, hd, f, lvl.
    pose proof (field_ge_le_id _ _ _ _ Ho) as ->.
    pose proof (field_ge_le_id _ _ _ _ Hcf) as ->.
    repeat split; try assumption;
      try (apply (proj1 (field_ge_le_Some 0 100 _)); eexists; exact Ho);
      try (apply (proj1 (field_ge_le_Some 0 1 _)); eexists; exact Hcf).
  - intros (hrc & cr & wa & mp & hd & f & lvl & -> & -> & -> & -> & -> & ->
            & -> & Ho & Hcf & ->).
    apply field_ge_le_Some in Ho as [o Ho].
    apply field_ge_le_Some in Hcf as [cf Hcf].
    rewrite Ho, Hcf. simpl.
    apply field_ge_le_id in Ho as ->. apply field_ge_le_id in Hcf as ->.
    reflexivity.
Qed.

Lemma mapM_clause_risks_engine clauses analyses :
  is_Some (mapM clause_risk_to_schema
             (take 5 (sorted_desc ClauseRisk.risk_score
                        (_calculate_clause_risks clauses analyses))))
  <-> Forall (fun r => 0 <= ClauseRisk.risk_score r <= 100
                       /\ 0 <= ClauseRisk.confidence r <= 1)
             (take 5 (sorted_desc ClauseRisk.risk_score
                        (_calculate_clause_risks clauses analyses))).
Proof.
  rewrite mapM_is_Some.
  pose proof (top_risks_subset _ (engine_clause_type_valid clauses analyses))
    as Htypes.
  rewrite !Forall_forall in *. split; intros H r Hr.
  - apply clause_risk_to_schema_is_Some, H, Hr.
  - simpl. apply clause_risk_to_schema_is_Some. split; [apply Htypes, Hr|].
    apply H, Hr.
Qed.

Lemma mapM_category_risks (cats : list CategoryRisk.t) :
  is_Some (mapM category_risk_to_schema cats)
  <-> Forall (fun c => 0 <= CategoryRisk.risk_score c <= 100) cats.
Proof.
  rewrite mapM_is_Some, !Forall_forall. split; intros H c Hc.
  - apply category_risk_to_schema_is_Some, H, Hc.
  - simpl. apply category_risk_to_schema_is_Some, H, Hc.
Qed.

(** X16.  The conversion of a report of the engine to the API schema
    raises exactly when a top risk has a score outside 0..100 or a
    confidence outside 0..1, a category has a score outside 0..100, or the
    confidence of the report is outside 0..1; the enumeration tags, the
    length of the previews, the breakdown and the overall score never make
    it fail. *)
Theorem X16_conversion_fails_only_on_ranges
    (analyzed_at : Z) (summary : string)
    (list_of_set : list string -> list string) (document_id : string)
    (clauses : list ExtractedClause.t) (analyses : list ComplianceAnalysis.t) :
  let report := calculate_risk_report list_of_set document_id clauses analyses in
  is_Some (convert_risk_report_to_schema analyzed_at summary report)
  <-> Forall (fun r => 0 <= ClauseRisk.risk_score r <= 100
                       /\ 0 <= ClauseRisk.confidence r <= 1)
             (ContractRiskReport.top_risks report)
      /\ Forall (fun c => 0 <= CategoryRisk.risk_score c <= 100)
                (ContractRiskReport.category_risks report)
      /\ 0 <= ContractRiskReport.confidence report <= 1.
Proof.
  intros report. subst report.
  set (report := calculate_risk_report list_of_set document_id clauses analyses).
  assert (Htop : ContractRiskReport.top_risks report
                 = take 5 (sorted_desc ClauseRisk.risk_score
                             (_calculate_clause_risks clauses analyses)))
    by apply report_top_risks.
  destruct (engine_breakdown_converts
              (_calculate_clause_risks clauses analyses)
              (_aggregate_by_category list_of_set
                 (_calculate_clause_risks clauses analyses)))
    as (wa & mp & hd & f & Hwa & Hmp & Hhd & Hf).
  rewrite <- (report_scoring_breakdown list_of_set document_id) in Hwa, Hmp, Hhd, Hf.
  fold report in Hwa, Hmp, Hhd, Hf.
  destruct (RiskLevelEnum_of_value (ContractRiskReport.overall_risk_level report))
    as [lvl Hlvl].
  assert (Ho : 0 <= ContractRiskReport.overall_risk_score report <= 100).
  { unfold report. rewrite (proj1 (report_overall _ _ _ _)).
    apply _calculate_overall_score_range. }
  rewrite <- mapM_category_risks, Htop, <- mapM_clause_risks_engine, <- Htop.
  split.
  - intros [schema Hs].
    apply convert_risk_report_to_schema_Some in Hs
      as (hrc & cr & _ & _ & _ & _ & _ & Hhrc & Hcr & _ & _ & _ & _ & _ & _
          & Hcf & _).
    rewrite Hhrc, Hcr. repeat split; try (eexists; reflexivity); apply Hcf.
  - intros ([hrc Hhrc] & [cr Hcr] & Hcf).
    eexists. apply convert_risk_report_to_schema_Some.
    exists hrc, cr, wa, mp, hd, f, lvl. repeat split; try assumption; tauto.
Qed.

Example conversion_raises_on_unclamped_score :
  convert_risk_report_to_schema 0 "summary"
    (calculate_risk_report id "doc" [sample_clause "c1" DATA_PROTECTION]
       [sample_analysis "c1" 100 2 []])
  = None.
Proof. vm_compute. reflexivity. Qed.

(** ** Reports in binary64 *)

Example round_1_2 : Binary64.round (1 # 2) == 1 # 2.
Proof. vm_compute. reflexivity. Qed.

Example round_100 : Binary64.round 100 == 100.
Proof. vm_compute. reflexivity. Qed.

Lemma binary64_analysed_score_in_range
    (c : ExtractedClause.t) (a : ComplianceAnalysis.t) :
  0 <= ComplianceAnalysis.risk_score a <= 100 ->
  0 <= ComplianceAnalysis.confidence a <= 1 ->
  0 <= ClauseRisk.risk_score (Binary64.analysed_clause_risk c a) <= 100.
Proof.
  intros Hs Hc. simpl.
  pose proof (clause_weight_range
                (ClauseType_value (ExtractedClause.clause_type c))) as Hw.
  set (w := Binary64.clause_weight _) in *.
  assert (Hm : 0 <= py_min 100 (Binary64.mul (ComplianceAnalysis.risk_score a) w)
               <= 100).
  { assert (0 <= Binary64.mul (ComplianceAnalysis.risk_score a) w)
      by (apply round_nonneg; nra).
    unfold py_min.
    case_Qltb (Binary64.mul (ComplianceAnalysis.risk_score a) w) 100; lra. }
  set (m := py_min 100 _) in *.
  assert (Hh : 0 <= Binary64.mul (ComplianceAnalysis.confidence a) (5 # 10)
               <= 1 # 2).
  { unfold Binary64.mul. split; [apply round_nonneg; lra|].
    rewrite <- round_1_2. apply round_mono; lra. }
  set (h := Binary64.mul (ComplianceAnalysis.confidence a) (5 # 10)) in *.
  assert (Hf : 1 # 2 <= Binary64.add (5 # 10) h <= 1).
  { unfold Binary64.add. split.
    - rewrite <- round_1_2 at 1. apply round_mono; lra.
    - rewrite <- round_1. apply round_mono; lra. }
  set (f := Binary64.add (5 # 10) h) in *.
  unfold Binary64.mul. split; [apply round_nonneg; nra|].
  rewrite <- round_100. apply round_mono; nra.
Qed.

Lemma binary64_clause_risks_score_range clauses analyses :
  Forall (fun a => 0 <= ComplianceAnalysis.risk_score a <= 100
                   /\ 0 <= ComplianceAnalysis.confidence a <= 1) analyses ->
  Forall (fun r => 0 <= ClauseRisk.risk_score r <= 100)
         (Binary64._calculate_clause_risks clauses analyses).
Proof.
  intros Hall. unfold Binary64._calculate_clause_risks.
  apply Forall_fmap, Forall_forall. intros c _. simpl.
  unfold Binary64.clause_risk_of.
  destruct (analysis_map analyses !! ExtractedClause.clause_id c) as [a|] eqn:E.
  - apply analysis_map_lookup_elem in E as [Ha _].
    rewrite Forall_forall in Hall. destruct (Hall a Ha) as [Hs Hc].
    apply binary64_analysed_score_in_range; assumption.
  - simpl. lra.
Qed.

Lemma binary64_elem_of_aggregate
    (list_of_set : list string -> list string) (l : list ClauseRisk.t)
    (c : CategoryRisk.t) :
  c ∈ Binary64._aggregate_by_category list_of_set l ->
  exists cat,
    cat ∈ map ClauseRisk.clause_type l
    /\ c = Binary64.category_risk_of list_of_set
             (cat, filter (fun r => ClauseRisk.clause_type r = cat) l).
Proof.
  unfold Binary64._aggregate_by_category.
  rewrite sorted_desc_Permutation, group_by_category_spec, map_map.
  intros (cat & -> & Hcat)%list_elem_of_fmap.
  exists cat. split; [|reflexivity].
  apply first_occurrences_id_elem, Hcat.
Qed.

Lemma Qnat_le_length {A} (l k : list A) :
  (length l <= length k)%nat -> Qnat (length l) <= Qnat (length k).
Proof. intros H. unfold Qnat. rewrite <- Zle_Qle. lia. Qed.

Lemma binary64_category_score_range
    (list_of_set : list string -> list string) (l : list ClauseRisk.t) :
  Forall (fun r => 0 <= ClauseRisk.risk_score r <= 100) l ->
  Qnat (length l) <= 1000000 ->
  Forall (fun c => 0 <= CategoryRisk.risk_score c <= 100 + (1 # 10000000))
         (Binary64._aggregate_by_category list_of_set l).
Proof.
  intros Hl Hn. apply Forall_forall. intros c Hc.
  apply binary64_elem_of_aggregate in Hc as (cat & Hcat & ->). simpl.
  pose proof (filter_type_nonempty _ cat Hcat) as Hne.
  assert (HF : Forall (fun r => 0 <= ClauseRisk.risk_score r <= 100)
                 (filter (fun r => ClauseRisk.clause_type r = cat) l)).
  { apply Forall_forall. intros r [_ Hr]%list_elem_of_filter.
    rewrite Forall_forall in Hl. auto. }
  assert (Hlen : Qnat (length (filter (fun r => ClauseRisk.clause_type r = cat) l))
                 <= 1000000).
  { eapply Qle_trans; [|exact Hn]. apply Qnat_le_length, length_filter. }
  destruct (filter _ _) as [|r rs]; [congruence|].
  apply weighted_average_of_upper; assumption.
Qed.

Lemma binary64_report_fields
    (list_of_set : list string -> list string) (document_id : string)
    (clauses : list ExtractedClause.t) (analyses : list ComplianceAnalysis.t) :
  let report :=
    Binary64.calculate_risk_report list_of_set document_id clauses analyses in
  let risks := Binary64._calculate_clause_risks clauses analyses in
  let cats := Binary64._aggregate_by_category list_of_set risks in
  ContractRiskReport.all_clause_risks report = risks
  /\ ContractRiskReport.category_risks report = cats
  /\ ContractRiskReport.overall_risk_score report
     = fst (Binary64._calculate_overall_score risks cats).
Proof.
  cbv zeta. unfold Binary64.calculate_risk_report.
  destruct (Binary64._calculate_overall_score _ _). repeat split; reflexivity.
Qed.

(** X30.  In binary64, a report computed from at most a million clauses
    and analyses with risk scores between 0 and 100 and confidences
    between 0 and 1 has clause scores between 0 and 100, category scores
    between 0 and 100.0000001 and an overall score of at most 80.000001.
    A category score can exceed 100: three liability clauses with risk
    score 100 and confidence 1 have the category score 100 + 2^-46, and
    the conversion of that report to the API schema raises. *)
Theorem X30_binary64_scores_of_ranged_analyses :
  (forall (list_of_set : list string -> list string) (document_id : string)
          (clauses : list ExtractedClause.t)
          (analyses : list ComplianceAnalysis.t),
     Forall (fun a => 0 <= ComplianceAnalysis.risk_score a <= 100
                      /\ 0 <= ComplianceAnalysis.confidence a <= 1) analyses ->
     Qnat (length clauses) <= 1000000 ->
     let report :=
       Binary64.calculate_risk_report list_of_set document_id clauses analyses in
     Forall (fun r => 0 <= ClauseRisk.risk_score r <= 100)
            (ContractRiskReport.all_clause_risks report)
     /\ Forall (fun c => 0 <= CategoryRisk.risk_score c <= 100 + (1 # 10000000))
               (ContractRiskReport.category_risks report)
     /\ 0 <= ContractRiskReport.overall_risk_score report <= 80 + (1 # 1000000))
  /\
  (let clauses := [sample_clause "c1" LIABILITY; sample_clause "c2" LIABILITY;
                   sample_clause "c3" LIABILITY] in
   let analyses := [sample_analysis "c1" 100 1 []; sample_analysis "c2" 100 1 [];
                    sample_analysis "c3" 100 1 []] in
   let report := Binary64.calculate_risk_report id "doc" clauses analyses in
   Forall2 Qeq (map CategoryRisk.risk_score
                    (ContractRiskReport.category_risks report))
           [100 + (1 # 70368744177664)]
   /\ convert_risk_report_to_schema 0 "summary" report = None).
Proof.
  split.
  - intros list_of_set document_id clauses analyses Hall Hn report.
    destruct (binary64_report_fields list_of_set document_id clauses analyses)
      as (Hr & Hc & Ho).
    fold report in Hr, Hc, Ho. rewrite Hr, Hc, Ho.
    pose proof (binary64_clause_risks_score_range clauses _ Hall) as Hrisks.
    assert (Hlen : Qnat (length (Binary64._calculate_clause_risks clauses analyses))
                   <= 1000000).
    { unfold Binary64._calculate_clause_risks. rewrite length_map. exact Hn. }
    split; [exact Hrisks|]. split.
    + apply binary64_category_score_range; assumption.
    + destruct (Binary64._calculate_clause_risks clauses analyses)
        as [|r0 rest] eqn:E.
      * simpl. lra.
      * pose proof (raw_overall_upper r0 rest Hrisks Hlen) as Hraw.
        change (fst (Binary64._calculate_overall_score (r0 :: rest) _))
          with (py_min 100 (py_max 0 (Binary64.raw_overall r0 rest))).
        rewrite clamp_of_raw; lra.
  - split; [repeat constructor|].
    vm_compute. reflexivity.
Qed.

Lemma X30_binary64_scores_of_ranged_analyses_witness :
  0 <= ContractRiskReport.overall_risk_score
         (Binary64.calculate_risk_report id "doc"
            [sample_clause "c1" DATA_PROTECTION; sample_clause "c2" NOTICES]
            [sample_analysis "c1" 100 1 []; sample_analysis "c2" 35 (1 # 2) []])
    <= 80 + (1 # 1000000).
Proof.
  apply (proj1 X30_binary64_scores_of_ranged_analyses id "doc"
           [sample_clause "c1" DATA_PROTECTION; sample_clause "c2" NOTICES]
           [sample_analysis "c1" 100 1 []; sample_analysis "c2" 35 (1 # 2) []]).
  - repeat constructor; simpl; lra.
  - apply Qle_bool_iff. vm_compute. reflexivity.
Defined.

(** * Serialisation *)




Example round2_half_to_even :
  round2 (1 # 8) == 12 # 100 /\ round2 (3 # 8) == 38 # 100
  /\ round2 (-1 # 8) == -12 # 100 /\ round2 (8149 # 100) == 8149 # 100.
Proof. vm_compute. repeat split. Qed.


(** * Looking a clause up in a stored report *)

Lemma clause_risk_of_clause_id m c :
  ClauseRisk.clause_id (clause_risk_of m c) = ExtractedClause.clause_id c.
Proof.
  unfold clause_risk_of. destruct (m !! ExtractedClause.clause_id c); reflexivity.
Qed.

Lemma first_with_id (clause_id : string) (clauses : list ExtractedClause.t) :
  clause_id ∈ map ExtractedClause.clause_id clauses ->
  exists before c after,
    clauses = before ++ c :: after
    /\ ExtractedClause.clause_id c = clause_id
    /\ clause_id ∉ map ExtractedClause.clause_id before.
Proof.
  induction clauses as [|x l IH]; simpl; [intros H; inversion H|].
  destruct (decide (ExtractedClause.clause_id x = clause_id)) as [He|Hne].
  - intros _. exists [], x, l. split; [reflexivity|]. split; [exact He|].
    apply not_elem_of_nil.
  - intros [H|H]%elem_of_cons; [congruence|].
    destruct (IH H) as (before & c & after & -> & Hc & Hb).
    exists (x :: before), c, after. split; [reflexivity|]. split; [exact Hc|].
    simpl. rewrite elem_of_cons. intros [?|?]; [congruence|tauto].
Qed.

Lemma find_clause_risk_first m clause_id before c after :
  ExtractedClause.clause_id c = clause_id ->
  clause_id ∉ map ExtractedClause.clause_id before ->
  find_clause_risk clause_id (map (clause_risk_of m) (before ++ c :: after))
  = Some (clause_risk_of m c).
Proof.
  intros Hc. induction before as [|x l IH]; simpl; intros Hb.
  - rewrite clause_risk_of_clause_id, decide_True by exact Hc. reflexivity.
  - apply not_elem_of_cons in Hb as [Hne Hb].
    rewrite clause_risk_of_clause_id, decide_False by congruence.
    apply IH, Hb.
Qed.

Lemma find_clause_risk_absent m clause_id clauses :
  clause_id ∉ map ExtractedClause.clause_id clauses ->
  find_clause_risk clause_id (map (clause_risk_of m) clauses) = None.
Proof.
  induction clauses as [|x l IH]; simpl; intros H; [reflexivity|].
  apply not_elem_of_cons in H as [Hne H].
  rewrite clause_risk_of_clause_id, decide_False by congruence.
  apply IH, H.
Qed.

(** X19.  For a stored report of the engine, whatever the status of the
    document, the clause endpoint answers with the dict of the clause risk
    of the first clause that has the identifier asked for, and raises 404
    "ClauseNotFound" exactly when no clause has it. *)
Theorem X19_get_clause_risk_of_engine_report
    (store : gmap string Document.t) (document_id clause_id : string)
    (doc : Document.t)
    (list_of_set : list string -> list string) (report_id : string)
    (clauses : list ExtractedClause.t) (analyses : list ComplianceAnalysis.t) :
  store !! document_id = Some doc ->
  Document.risk_report doc
  = Some (calculate_risk_report list_of_set report_id clauses analyses) ->
  (clause_id ∈ map ExtractedClause.clause_id clauses ->
   exists before c after,
     clauses = before ++ c :: after
     /\ ExtractedClause.clause_id c = clause_id
     /\ (clause_id ∉ map ExtractedClause.clause_id before)
     /\ get_clause_risk store document_id clause_id
        = inr (ClauseRisk_to_dict (clause_risk_of (analysis_map analyses) c)))
  /\ (clause_id ∉ map ExtractedClause.clause_id clauses ->
      get_clause_risk store document_id clause_id
      = inl (HTTPException.mk 404 "ClauseNotFound"
               ("Clause with ID '" ++ clause_id ++ "' not found in document."))).
Proof.
  intros Hstore Hreport. unfold get_clause_risk.
  rewrite Hstore, Hreport, report_all_clause_risks.
  unfold _calculate_clause_risks. split.
  - intros Hin.
    destruct (first_with_id _ _ Hin) as (before & c & after & -> & Hc & Hb).
    exists before, c, after. split; [reflexivity|]. split; [exact Hc|].
    split; [exact Hb|].
    rewrite find_clause_risk_first by assumption. reflexivity.
  - intros Hout. rewrite find_clause_risk_absent by exact Hout. reflexivity.
Qed.

Lemma X19_get_clause_risk_of_engine_report_witness :
  let doc :=
    Document.mk "doc-1" "contract.pdf" "/uploads/doc-1.pdf" 1000 0 FAILED
      None None
      (Some (calculate_risk_report id "doc-1"
               [sample_clause "c1" LIABILITY] []))
      (Some "Analysis failed"%string) in
  get_clause_risk {[ "doc-1"%string := doc ]} "doc-1" "c2"
  = inl (HTTPException.mk 404 "ClauseNotFound"
           "Clause with ID 'c2' not found in document.").
Proof.
  intros doc.
  apply (X19_get_clause_risk_of_engine_report
           {[ "doc-1"%string := doc ]} "doc-1" "c2" doc id "doc-1"
           [sample_clause "c1" LIABILITY] []).
  - apply lookup_singleton_eq.
  - reflexivity.
  - simpl. intros [H|H]%elem_of_cons; [discriminate|inversion H].
Defined.

(** * The enumerations and the tables *)

(** X20.  The tags of the risk levels and of the clause types are accepted
    by the enumerations of the API schema, different members have
    different tags, and every member of the schema's enumerations is the
    image of one of them. *)
Theorem X20_enumerations_of_core_and_schema_agree :
  (forall l : RiskLevel, is_Some (RiskLevelEnum.of_value (RiskLevel_value l)))
  /\ (forall l1 l2 : RiskLevel,
        RiskLevel_value l1 = RiskLevel_value l2 -> l1 = l2)
  /\ (forall e : RiskLevelEnum.t,
        exists l, RiskLevelEnum.of_value (RiskLevel_value l) = Some e)
  /\ (forall t : ClauseType,
        is_Some (ClauseTypeEnum.of_value (ClauseType_value t)))
  /\ (forall t1 t2 : ClauseType,
        ClauseType_value t1 = ClauseType_value t2 -> t1 = t2)
  /\ (forall e : ClauseTypeEnum.t,
        exists t, ClauseTypeEnum.of_value (ClauseType_value t) = Some e).
Proof.
  split; [apply RiskLevelEnum_of_value|].
  split; [intros [] []; simpl; intros H; try reflexivity; discriminate|].
  split.
  { intros [];
      [exists CRITICAL|exists HIGH|exists MEDIUM|exists LOW|exists MINIMAL];
      vm_compute; reflexivity. }
  split; [apply ClauseTypeEnum_of_value|].
  split; [intros [] []; simpl; intros H; try reflexivity; discriminate|].
  intros [];
    [exists DATA_PROTECTION|exists LIABILITY|exists TERMINATION
    |exists INTELLECTUAL_PROPERTY|exists JURISDICTION|exists CONFIDENTIALITY
    |exists INDEMNIFICATION|exists FORCE_MAJEURE|exists PAYMENT_TERMS
    |exists WARRANTIES|exists DISPUTE_RESOLUTION|exists AMENDMENT
    |exists ASSIGNMENT|exists GOVERNING_LAW|exists SEVERABILITY|exists NOTICES
    |exists ENTIRE_AGREEMENT|exists COUNTERPARTS|exists UNKNOWN];
    vm_compute; reflexivity.
Qed.

(** X21.  Every clause type has its own entry in the weight table, with a
    weight between 0.5 and 1.5, and in the table of display names: no
    clause of the extractor is weighted or named by the defaults, which
    are weight 1 and the raw tag. *)
Theorem X21_tables_cover_every_clause_type (t : ClauseType) (k : string) :
  (exists w name,
     CLAUSE_TYPE_WEIGHTS !! ClauseType_value t = Some w
     /\ clause_weight (ClauseType_value t) = w
     /\ 1 # 2 <= w <= 3 # 2
     /\ CATEGORY_DISPLAY_NAMES !! ClauseType_value t = Some name
     /\ category_name (ClauseType_value t) = name)
  /\ (CLAUSE_TYPE_WEIGHTS !! k = None -> clause_weight k = 1)
  /\ (CATEGORY_DISPLAY_NAMES !! k = None -> category_name k = k).
Proof.
  split; [|split].
  - pose proof (clause_weight_ge_half (ClauseType_value t)) as Hlo.
    pose proof (clause_weight_le_3_2 (ClauseType_value t)) as Hhi.
    assert (Hw : is_Some (CLAUSE_TYPE_WEIGHTS !! ClauseType_value t))
      by (destruct t; vm_compute; eexists; reflexivity).
    assert (Hn : is_Some (CATEGORY_DISPLAY_NAMES !! ClauseType_value t))
      by (destruct t; vm_compute; eexists; reflexivity).
    destruct Hw as [w Hw]. destruct Hn as [name Hn].
    exists w, name. unfold clause_weight, category_name in *.
    rewrite Hw, Hn in *. simpl in *. repeat split; assumption.
  - intros H. unfold clause_weight. rewrite H. reflexivity.
  - intros H. unfold category_name. rewrite H. reflexivity.
Qed.

(** * The regulatory context of an analysis *)

Lemma foldl_snoc_map {A B} (f : A -> B) (l : list A) (acc : list B) :
  foldl (fun acc x => acc ++ [f x]) acc l = acc ++ map f l.
Proof.
  revert acc. induction l as [|x l IH]; intros acc; simpl.
  - rewrite app_nil_r. reflexivity.
  - rewrite IH, <- app_assoc. reflexivity.
Qed.

Lemma foldl_snoc_unless {A} (P : A -> Prop) `{!forall x, Decision (P x)}
    (l : list A) (acc : list A) :
  foldl (fun acc x => if decide (P x) then acc else acc ++ [x]) acc l
  = acc ++ filter (fun x => ~ P x) l.
Proof.
  revert acc. induction l as [|x l IH]; intros acc; simpl.
  - rewrite app_nil_r. reflexivity.
  - rewrite IH, filter_cons. destruct (decide (P x)) as [HP|HP].
    + rewrite decide_False by tauto. reflexivity.
    + rewrite decide_True by exact HP. rewrite <- app_assoc. reflexivity.
Qed.

Lemma filter_direct_none (i : string) (regulations : list RegulationArticle.t) :
  i ∉ map RegulationArticle.regulation_id regulations ->
  filter (fun c => RetrievedContext.regulation_id c = i)
         (map direct_context regulations) = [].
Proof.
  induction regulations as [|reg regs IH]; [reflexivity|].
  simpl. intros [Hne Hi]%not_elem_of_cons.
  rewrite filter_cons, decide_False by (simpl; congruence).
  apply IH, Hi.
Qed.

(** X22.  The regulatory context is the regulations found by clause type,
    in their order and each with relevance 1, followed by those results
    of the semantic search whose identifier is not the identifier of one
    of these regulations, in their order; two search results with the
    same identifier are both kept. *)
Theorem X22_regulatory_context_direct_then_search
    (regulations : list RegulationArticle.t)
    (additional_context : list RetrievedContext.t) :
  let direct_ids := map RegulationArticle.regulation_id regulations in
  _prepare_regulatory_context regulations additional_context
  = map direct_context regulations
    ++ filter (fun ctx => RetrievedContext.regulation_id ctx ∉ direct_ids)
              additional_context
  /\ Forall (fun ctx => RetrievedContext.relevance_score ctx = 1)
            (map direct_context regulations)
  /\ map RetrievedContext.regulation_id (map direct_context regulations)
     = direct_ids
  /\ (forall i : string, i ∉ direct_ids ->
        filter (fun c => RetrievedContext.regulation_id c = i)
               (_prepare_regulatory_context regulations additional_context)
        = filter (fun c => RetrievedContext.regulation_id c = i)
                 additional_context).
Proof.
  intros direct_ids.
  assert (Hids : map RetrievedContext.regulation_id
                   (map direct_context regulations) = direct_ids).
  { rewrite map_map. reflexivity. }
  assert (Heq : _prepare_regulatory_context regulations additional_context
                = map direct_context regulations
                  ++ filter (fun ctx => RetrievedContext.regulation_id ctx
                                        ∉ direct_ids) additional_context).
  { unfold _prepare_regulatory_context. cbv zeta.
    rewrite foldl_snoc_map. simpl.
    rewrite (foldl_snoc_unless
               (fun ctx => RetrievedContext.regulation_id ctx
                           ∈ (list_to_set
                                (map RetrievedContext.regulation_id
                                   (map direct_context regulations))
                              : gset string))).
    f_equal. rewrite Hids. apply list_filter_iff. intros ctx.
    rewrite elem_of_list_to_set. reflexivity. }
  split; [exact Heq|]. split; [|split; [exact Hids|]].
  - apply Forall_fmap, Forall_forall. intros reg _. reflexivity.
  - intros i Hi. rewrite Heq, filter_app.
    assert (Hnone : filter (fun c => RetrievedContext.regulation_id c = i)
                           (map direct_context regulations) = []).
    { apply filter_direct_none, Hi. }
    rewrite Hnone. simpl. rewrite list_filter_filter.
    apply list_filter_iff. intros c. split; [tauto|].
    intros He. split; [exact He|]. rewrite He. exact Hi.
Qed.

(** * The clean-up of the extracted clauses *)

Lemma _calculate_type_distribution_snoc l c :
  _calculate_type_distribution (l ++ [c])
  = <[ClauseType_value (ExtractedClause.clause_type c) :=
        (default 0 (_calculate_type_distribution l
                      !! ClauseType_value (ExtractedClause.clause_type c))
         + 1)%nat]>
      (_calculate_type_distribution l).
Proof. unfold _calculate_type_distribution. rewrite foldl_snoc. reflexivity. Qed.

(** X23.  The type distribution maps each type tag that occurs among the
    clauses to the number of clauses of that type, and has no entry for a
    tag that does not occur. *)
Theorem X23_type_distribution_counts
    (clauses : list ExtractedClause.t) (k : string) :
  let n := length (filter (fun c => ClauseType_value
                                      (ExtractedClause.clause_type c) = k)
                          clauses) in
  _calculate_type_distribution clauses !! k
  = if decide (n = 0%nat) then None else Some n.
Proof.
  induction clauses as [|c l IH] using rev_ind; [reflexivity|].
  cbv zeta in *.
  rewrite _calculate_type_distribution_snoc, filter_app, length_app,
    filter_cons, filter_nil.
  destruct (decide (ClauseType_value (ExtractedClause.clause_type c) = k))
    as [He|Hne].
  - rewrite He, lookup_insert_eq, IH. simpl length.
    set (n := length (filter _ l)).
    rewrite (decide_False (P := (n + 1)%nat = 0%nat)) by lia.
    destruct (decide (n = 0%nat)) as [H0|H0]; simpl; [rewrite H0|];
      reflexivity.
  - rewrite lookup_insert_ne by exact Hne. rewrite IH. simpl length.
    rewrite Nat.add_0_r. reflexivity.
Qed.

Section Validate.
Variable strip : text -> text.

Let key (c : ExtractedClause.t) : text := strip (ExtractedClause.raw_text c).
Let long (c : ExtractedClause.t) : Prop := (10 <= length (key c))%nat.

Lemma existsb_same_text (validated : list ExtractedClause.t)
    (clause : ExtractedClause.t) :
  existsb (fun c => bool_decide (strip (ExtractedClause.raw_text c)
                                 = strip (ExtractedClause.raw_text clause)))
          validated = true
  <-> key clause ∈ map key validated.
Proof.
  rewrite existsb_exists, list_elem_of_fmap. split.
  - intros (c & Hc%list_elem_of_In & He%bool_decide_eq_true). exists c. auto.
  - intros (c & He & Hc). exists c. split; [apply list_elem_of_In, Hc|].
    apply bool_decide_eq_true. symmetry. exact He.
Qed.

Lemma first_occurrences_NoDup_id {A K} `{EqDecision K} (k : A -> K)
    (l : list A) :
  NoDup (map k l) -> first_occurrences k l = l.
Proof.
  induction l as [|x l IH]; [reflexivity|].
  simpl. intros [Hx Hl]%NoDup_cons. rewrite IH by exact Hl. f_equal.
  clear IH Hl. induction l as [|y l IH]; [reflexivity|].
  simpl in Hx. apply not_elem_of_cons in Hx as [Hne Hx].
  rewrite filter_cons, decide_True by congruence. f_equal. apply IH, Hx.
Qed.

(** The clean-up keeps, of the clauses whose stripped text has at least
    ten characters, the first with each stripped text. *)
Lemma _validate_clauses_spec (clauses : list ExtractedClause.t) :
  _validate_clauses strip clauses
  = first_occurrences key (filter long clauses).
Proof.
  induction clauses as [|c l IH] using rev_ind; [reflexivity|].
  unfold _validate_clauses in *. rewrite foldl_snoc, IH. clear IH.
  rewrite filter_app, filter_cons, filter_nil.
  destruct (length (strip (ExtractedClause.raw_text c)) <? 10)%nat
    eqn:Elen.
  - apply Nat.ltb_lt in Elen.
    rewrite decide_False by (unfold long, key; lia).
    rewrite app_nil_r. reflexivity.
  - apply Nat.ltb_ge in Elen.
    rewrite decide_True by (unfold long, key; lia).
    rewrite first_occurrences_snoc.
    destruct (existsb _ _) eqn:Edup.
    + apply existsb_same_text in Edup.
      rewrite first_occurrences_keys in Edup.
      rewrite decide_True by exact Edup. rewrite app_nil_r. reflexivity.
    + rewrite decide_False; [reflexivity|].
      intros Hin. rewrite <- (first_occurrences_keys key) in Hin.
      apply existsb_same_text in Hin. congruence.
Qed.

(** X24.  The clean-up of the extracted clauses returns a sublist of its
    input in which every stripped text has at least ten characters and no
    two clauses have the same stripped text; every stripped text of the
    input that is long enough is still there; and cleaning up a second
    time changes nothing.  Lengths are counted in code points, as [len]
    does. *)
Theorem X24_validate_clauses (clauses : list ExtractedClause.t) :
  let validated := _validate_clauses strip clauses in
  validated `sublist_of` clauses
  /\ Forall (fun c => (10 <= length (strip (ExtractedClause.raw_text c)))%nat)
            validated
  /\ NoDup (map (fun c => strip (ExtractedClause.raw_text c)) validated)
  /\ (forall c, c ∈ clauses ->
        (10 <= length (strip (ExtractedClause.raw_text c)))%nat ->
        strip (ExtractedClause.raw_text c)
          ∈ map (fun c => strip (ExtractedClause.raw_text c)) validated)
  /\ _validate_clauses strip validated = validated.
Proof.
  intros validated. subst validated. rewrite !_validate_clauses_spec.
  assert (Hlong : Forall long (first_occurrences key (filter long clauses))).
  { apply Forall_forall. intros c Hc.
    eapply elem_of_sublist in Hc; [|apply first_occurrences_sublist].
    apply list_elem_of_filter in Hc. tauto. }
  split; [|split; [|split; [|split]]].
  - etrans; [apply first_occurrences_sublist|apply sublist_filter].
  - exact Hlong.
  - apply (first_occurrences_NoDup key).
  - intros c Hc Hlen. apply (first_occurrences_keys key).
    apply (list_elem_of_fmap_2 key). apply list_elem_of_filter. auto.
  - assert (Hfilter : filter long (first_occurrences key (filter long clauses))
                      = first_occurrences key (filter long clauses)).
    { induction Hlong as [|x l Hx Hl IH]; [reflexivity|].
      rewrite filter_cons, decide_True by exact Hx. f_equal. exact IH. }
    rewrite Hfilter. apply first_occurrences_NoDup_id.
    apply (first_occurrences_NoDup key).
Qed.

End Validate.

Example validate_clauses_sample :
  map ExtractedClause.clause_id
    (_validate_clauses id
       [ ExtractedClause.mk "a" LIABILITY "T" (text_of "The supplier is liable.");
         ExtractedClause.mk "b" NOTICES "T" (text_of "short");
         ExtractedClause.mk "c" UNKNOWN "T" (text_of "The supplier is liable.");
         ExtractedClause.mk "d" NOTICES "T" (text_of "Notices are sent by mail.") ])
  = ["a"; "d"]%string.
Proof. reflexivity. Qed.

(** Six accented letters are six code points, fewer than ten, whatever
    the number of bytes of their encoding: the clause is dropped. *)
Example validate_clauses_counts_code_points :
  _validate_clauses id
    [ ExtractedClause.mk "a" NOTICES "T" (replicate 6 233%N) ]
  = [].
Proof. reflexivity. Qed.

Example text_preview_counts_code_points :
  length (text_preview (replicate 400 233%N)) = 303%nat.
Proof. reflexivity. Qed.

(** * More on scores and levels *)

(** X25.  When the analysis of a clause has a risk score of at least 0 and
    a confidence between 0 and 1, the confidence only dampens the weighted
    score, and at most by half: the clause risk score lies between
    min(100, base * weight) / 2 and min(100, base * weight), and reaches
    the latter at confidence 1. *)
Theorem X25_confidence_dampens_at_most_by_half
    (c : ExtractedClause.t) (a : ComplianceAnalysis.t) :
  0 <= ComplianceAnalysis.risk_score a ->
  0 <= ComplianceAnalysis.confidence a <= 1 ->
  let weighted :=
    py_min 100 (ComplianceAnalysis.risk_score a
                * clause_weight (ClauseType_value (ExtractedClause.clause_type c))) in
  let score := ClauseRisk.risk_score (analysed_clause_risk c a) in
  weighted * (1 # 2) <= score <= weighted
  /\ (ComplianceAnalysis.confidence a == 1 -> score == weighted)
  /\ (ComplianceAnalysis.confidence a == 0 -> score == weighted * (1 # 2)).
Proof.
  intros Hs Hc weighted score. subst score. simpl.
  fold weighted.
  pose proof (clause_weight_pos
                (ClauseType_value (ExtractedClause.clause_type c))) as Hw.
  assert (H0 : 0 <= weighted).
  { unfold weighted, py_min.
    case_Qltb (ComplianceAnalysis.risk_score a
               * clause_weight (ClauseType_value (ExtractedClause.clause_type c)))
              100; [|lra].
    apply Qmult_le_0_compat; lra. }
  split; [split; nra|]. split; intros H; rewrite H; ring.
Qed.

Lemma X25_confidence_dampens_at_most_by_half_witness :
  let c := sample_clause "c1" LIABILITY in
  let a := sample_analysis "c1" 50 (1 # 2) [] in
  35 <= ClauseRisk.risk_score (analysed_clause_risk c a) <= 70.
Proof.
  intros c a.
  destruct (X25_confidence_dampens_at_most_by_half c a) as [H _].
  - simpl. lra.
  - simpl. lra.
  - revert H. vm_compute. tauto.
Defined.

(** X26.  The classifier is monotone: a score that is not lower never gets
    a less severe level. *)
Theorem X26_classifier_is_monotone (s1 s2 : Q) :
  s1 <= s2 ->
  (level_rank (_score_to_level s1) <= level_rank (_score_to_level s2))%nat.
Proof.
  intros H. unfold _score_to_level.
  case_Qle 80 s1; [|case_Qle 60 s1; [|case_Qle 40 s1; [|case_Qle 20 s1]]];
    (case_Qle 80 s2; [|case_Qle 60 s2; [|case_Qle 40 s2; [|case_Qle 20 s2]]]);
    simpl; try lia; lra.
Qed.

Lemma X26_classifier_is_monotone_witness :
  (level_rank (_score_to_level 59) <= level_rank (_score_to_level 60))%nat.
Proof. apply X26_classifier_is_monotone. lra. Defined.

(** ** The order of the clauses *)




(** ** Counts of the categories and of the report *)

Lemma count_if_filter_type (p : ClauseRisk.t -> bool) (l : list ClauseRisk.t)
    (c : string) :
  count_if p (filter (fun r => ClauseRisk.clause_type r = c) l)
  = length (filter (fun r => ClauseRisk.clause_type r = c) (List.filter p l)).
Proof.
  unfold count_if. induction l as [|x l IH]; [reflexivity|].
  rewrite filter_cons. simpl.
  destruct (decide (ClauseRisk.clause_type x = c)) as [He|Hne];
    destruct (p x) eqn:Ep; simpl.
  - rewrite Ep, filter_cons, decide_True by exact He. simpl. rewrite IH.
    reflexivity.
  - rewrite Ep. exact IH.
  - rewrite filter_cons, decide_False by exact Hne. exact IH.
  - exact IH.
Qed.

(** X28.  The numbers of high or critical clauses of the categories add up
    to the high-risk clause count of the report, and the clause counts of
    the categories to its total. *)
Theorem X28_category_counts_add_up_to_report
    (list_of_set : list string -> list string) (document_id : string)
    (clauses : list ExtractedClause.t) (analyses : list ComplianceAnalysis.t) :
  let report := calculate_risk_report list_of_set document_id clauses analyses in
  sum_list_with CategoryRisk.high_risk_clauses
                (ContractRiskReport.category_risks report)
  = ContractRiskReport.high_risk_clause_count report
  /\ sum_list_with CategoryRisk.clause_count
                   (ContractRiskReport.category_risks report)
     = ContractRiskReport.total_clauses_analyzed report.
Proof.
  intros report. subst report.
  rewrite report_category_risks.
  destruct (report_counts list_of_set document_id clauses analyses)
    as (-> & -> & _ & _).
  set (l := _calculate_clause_risks clauses analyses).
  rewrite !_aggregate_by_category_met.
  set (ks := first_occurrences id (map ClauseRisk.clause_type l)).
  assert (Hnd : NoDup ks) by apply first_occurrences_id_NoDup.
  assert (Hin : forall r, r ∈ l -> ClauseRisk.clause_type r ∈ ks).
  { intros r Hr. apply first_occurrences_id_elem, list_elem_of_fmap_2, Hr. }
  split.
  - unfold count_if at 1.
    rewrite <- (sum_filter_lengths (List.filter clause_is_high l) ks Hnd).
    + clear Hnd Hin. induction ks as [|k ks IH]; [reflexivity|].
      cbn [map sum_list_with]. rewrite IH. f_equal.
      apply (count_if_filter_type clause_is_high).
    + intros r Hr. apply Hin. apply list_elem_of_In in Hr.
      apply List.filter_In in Hr as [Hr _]. apply list_elem_of_In, Hr.
  - rewrite <- (sum_filter_lengths l ks Hnd Hin).
    clear Hnd Hin. induction ks as [|k ks IH]; [reflexivity|].
    cbn [map sum_list_with]. rewrite IH. reflexivity.
Qed.

